(** * xlayer-402: settlement-and-swap orchestration, embedded in Rocq

    A shallow embedding of the retry engine, the circuit breaker, the quote
    cache, the swap orchestrator and the [/verify] settlement pipeline of
    the repository, followed by the properties established about them.

    Conventions of the embedding:
    - a JavaScript [number] that holds a count or a millisecond clock
      reading is a [Z]; a number the code computes in doubles from a string
      ([parseFloat] and the arithmetic on its result) is kept as an
      expression of that string;
    - an [async] function that calls a remote collaborator takes the
      collaborator's answer from an explicit world or oracle and returns the
      new world: every [await] of the settlement pipeline is one step of a
      small-step machine, so that interleavings of concurrent requests can
      be replayed;
    - a value that a JavaScript function throws is the left summand of a
      sum ([inl]), a value it returns the right one ([inr]);
    - a [Map] is an association list in insertion order with unique keys
      (iteration order matters for eviction), a Redis keyspace is a [gmap]
      from key strings. *)

From Stdlib Require Import ZArith List String Ascii Bool Lia DecimalString.
From stdpp Require Import base option list gmap strings.
Import ListNotations.

Local Open Scope string_scope.
Local Open Scope Z_scope.

(* ================================================================== *)
(** * Part I — the program                                              *)
(* ================================================================== *)

(** ** Strings: the two [String.prototype] methods the classifiers use *)

Module Js.

(** [c.toLowerCase()] on the ASCII range (messages outside ASCII are left
    as they are, byte by byte). *)
Definition lower_ascii (c : ascii) : ascii :=
  let n := nat_of_ascii c in
  if ((65 <=? n)%nat && (n <=? 90)%nat)%bool then ascii_of_nat (n + 32) else c.

Fixpoint toLowerCase (s : string) : string :=
  match s with
  | EmptyString => EmptyString
  | String c s' => String (lower_ascii c) (toLowerCase s')
  end.

(** [s.includes(needle)] *)
Definition includes (s needle : string) : bool :=
  match String.index 0 needle s with
  | Some _ => true
  | None => false
  end.

(** JavaScript truthiness of a [string | undefined]. *)
Definition truthy (k : option string) : bool :=
  match k with
  | Some EmptyString => false
  | Some _ => true
  | None => false
  end.

End Js.

(** ** Error codes and error objects ([SwapErrorCode] of the DEX types,
    lib/dex/errors.ts) *)

Inductive SwapErrorCode :=
| INSUFFICIENT_BALANCE
| INSUFFICIENT_ALLOWANCE
| SLIPPAGE_EXCEEDED
| DEADLINE_EXCEEDED
| LIQUIDITY_INSUFFICIENT
| PRICE_IMPACT_TOO_HIGH
| NETWORK_ERROR
| API_ERROR
| GAS_ESTIMATION_FAILED
| TRANSACTION_FAILED
| INVALID_PARAMETERS
| UNKNOWN_ERROR.

#[global] Instance SwapErrorCode_eq_dec : EqDecision SwapErrorCode.
Proof. solve_decision. Defined.

(** [retryableErrors.includes(code)] *)
Definition code_in (c : SwapErrorCode) (l : list SwapErrorCode) : bool :=
  existsb (fun c' => bool_decide (c' = c)) l.

(** An [Error] object as the classifiers see it: either a [DexSwapError]
    (code, message, suggestions, recoverable flag) or any other [Error],
    of which only the message is read. *)
Record DexSwapError := mkDexSwapError {
  code : SwapErrorCode;
  dex_message : string;
  suggestions : list string;
  recoverable : bool
}.

Inductive JsError :=
| EDex (e : DexSwapError)
| EPlain (message : string).

Definition message_of (e : JsError) : string :=
  match e with
  | EDex d => dex_message d
  | EPlain m => m
  end.

Module DexErrorFactory.

Definition insufficientBalance (requiredAmount currentBalance tokenSymbol : string) : DexSwapError :=
  mkDexSwapError INSUFFICIENT_BALANCE
    ("余额不足：需要 " ++ requiredAmount ++ " " ++ tokenSymbol ++ "，当前余额 "
       ++ currentBalance ++ " " ++ tokenSymbol)
    [] false.

Definition insufficientAllowance (requiredAmount currentAllowance tokenSymbol spender : string)
  : DexSwapError :=
  mkDexSwapError INSUFFICIENT_ALLOWANCE
    ("授权不足：需要授权 " ++ requiredAmount ++ " " ++ tokenSymbol)
    ["点击授权按钮完成代币授权"] true.

Definition slippageExceeded (expectedAmount actualAmount slippagePercent : string) : DexSwapError :=
  mkDexSwapError SLIPPAGE_EXCEEDED
    ("滑点过大：预期 " ++ expectedAmount ++ "，实际 " ++ actualAmount)
    ["增加滑点容忍度"; "减少交换数量"] true.

(** The message embeds [new Date(deadline * 1000).toISOString()]; the
    rendered date is passed in. *)
Definition deadlineExceeded (isoDeadline : string) : DexSwapError :=
  mkDexSwapError DEADLINE_EXCEEDED
    ("交易截止时间已过期：" ++ isoDeadline)
    ["重新获取报价"; "使用更快的Gas价格"] true.

Definition liquidityInsufficient (fromSym toSym requestedAmount : string) : DexSwapError :=
  mkDexSwapError LIQUIDITY_INSUFFICIENT
    ("流动性不足：" ++ fromSym ++ " -> " ++ toSym ++ "，请求数量 " ++ requestedAmount)
    ["减少交换数量"; "等待流动性改善"] false.

Definition networkError (originalError : JsError) (networkName : option string) : DexSwapError :=
  mkDexSwapError NETWORK_ERROR
    ("网络错误"
       ++ (if Js.truthy networkName then " (" ++ default "" networkName ++ ")" else "")
       ++ ": " ++ message_of originalError)
    ["检查网络连接"; "刷新页面重试"] true.

(** [statusCode] is rendered by the caller when it is truthy. *)
Definition apiError (apiName : string) (statusCode : option string) : DexSwapError :=
  mkDexSwapError API_ERROR
    ("API错误 (" ++ apiName ++ ")"
       ++ (match statusCode with Some c => " HTTP " ++ c | None => "" end))
    ["稍后重试"; "检查API服务状态"] true.

Definition gasEstimationFailed (originalError : JsError) : DexSwapError :=
  mkDexSwapError GAS_ESTIMATION_FAILED
    ("Gas估算失败: " ++ message_of originalError)
    ["使用默认Gas设置"; "检查交易参数"] true.

Definition transactionFailed (transactionHash revertReason : option string) : DexSwapError :=
  mkDexSwapError TRANSACTION_FAILED
    ("交易执行失败"
       ++ (if Js.truthy revertReason then ": " ++ default "" revertReason else ""))
    ["检查交易参数"; "增加Gas限制"; "稍后重试"] false.

Definition invalidParameters (parameterName value requirement : string) : DexSwapError :=
  mkDexSwapError INVALID_PARAMETERS
    ("参数无效：" ++ parameterName ++ " = " ++ value ++ "，要求：" ++ requirement)
    ["检查输入参数"; "查看API文档"] false.

(** [fromError]: a [DexSwapError] is returned as it is, any other error is
    classified by the content of its lower-cased message. [isoNow] is the
    rendering of the current time used by the deadline branch. *)
Definition fromError (isoNow : string) (error : JsError) : DexSwapError :=
  match error with
  | EDex d => d
  | EPlain m =>
      let message := Js.toLowerCase m in
      if Js.includes message "insufficient funds" || Js.includes message "balance" then
        insufficientBalance "unknown" "unknown" "unknown"
      else if Js.includes message "allowance" || Js.includes message "approval" then
        insufficientAllowance "unknown" "unknown" "unknown" "unknown"
      else if Js.includes message "slippage" || Js.includes message "tolerance" then
        slippageExceeded "unknown" "unknown" "unknown"
      else if Js.includes message "deadline" || Js.includes message "expired" then
        deadlineExceeded isoNow
      else if Js.includes message "liquidity" then
        liquidityInsufficient "unknown" "unknown" "unknown"
      else if Js.includes message "network" || Js.includes message "connection" then
        networkError error None
      else if Js.includes message "gas" then
        gasEstimationFailed error
      else
        mkDexSwapError UNKNOWN_ERROR m ["稍后重试"; "如问题持续请联系支持"] false
  end.

End DexErrorFactory.

(** [DexSwapError.prototype.toUserFriendly] *)
Definition toUserFriendly (e : DexSwapError) : string :=
  match code e with
  | INSUFFICIENT_BALANCE => "余额不足，请检查账户余额"
  | INSUFFICIENT_ALLOWANCE => "代币授权不足，需要先进行代币授权"
  | SLIPPAGE_EXCEEDED => "滑点过大，请增加滑点容忍度或稍后重试"
  | DEADLINE_EXCEEDED => "交易超时，请稍后重试"
  | LIQUIDITY_INSUFFICIENT => "流动性不足，无法完成交换"
  | PRICE_IMPACT_TOO_HIGH => "价格影响过大，建议减少交换数量"
  | NETWORK_ERROR => "网络连接错误，请检查网络连接"
  | GAS_ESTIMATION_FAILED => "Gas估算失败，请稍后重试"
  | TRANSACTION_FAILED => "交易执行失败，请查看详细信息"
  | _ => if Js.truthy (Some (dex_message e)) then dex_message e else "未知错误"
  end.

(** ** lib/dex/retry.ts — SmartRetryManager *)

Module Retry.

Inductive RetryStrategy :=
| FIXED_DELAY | EXPONENTIAL_BACKOFF | LINEAR_BACKOFF | JITTERED_BACKOFF.

(** [backoffMultiplier] only feeds the delay curve, which is a parameter of
    the engine below. *)
Record RetryConfig := mkRetryConfig {
  maxAttempts : Z;
  backoffMs : Z;
  retryableErrors : list SwapErrorCode
}.

(** [Partial<RetryConfig>] as passed in [customConfig]. *)
Record PartialRetryConfig := mkPartial {
  p_maxAttempts : option Z;
  p_backoffMs : option Z;
  p_retryableErrors : option (list SwapErrorCode)
}.

(** [{ ...this.config, ...customConfig }] *)
Definition merge (c : RetryConfig) (p : option PartialRetryConfig) : RetryConfig :=
  match p with
  | None => c
  | Some p =>
      mkRetryConfig (default (maxAttempts c) (p_maxAttempts p))
                    (default (backoffMs c) (p_backoffMs p))
                    (default (retryableErrors c) (p_retryableErrors p))
  end.

Record RetryContext := mkContext {
  attempt : Z;
  lastError : option JsError;
  delays : list Z
}.

(** [totalDuration] and [lastAttemptAt] are clock readings taken when the
    result is built; they do not influence control flow and are left out.
    [error] is optional in the source: the loop throws [lastError!], which
    is [undefined] when the body never ran. *)
Record RetryResult (T : Type) := mkResult {
  success : bool;
  result : option T;
  error : option JsError;
  attempts : Z
}.
Arguments mkResult {T}.
Arguments success {T}.
Arguments result {T}.
Arguments error {T}.
Arguments attempts {T}.

(** [isRetryableError] *)
Definition isRetryableError (error : JsError) (retryable : list SwapErrorCode) : bool :=
  match error with
  | EDex d => code_in (code d) retryable
  | EPlain m =>
      let message := Js.toLowerCase m in
      if Js.includes message "network" || Js.includes message "timeout"
         || Js.includes message "connection" || Js.includes message "fetch" then
        code_in NETWORK_ERROR retryable
      else if Js.includes message "api" || Js.includes message "500"
              || Js.includes message "502" || Js.includes message "503"
              || Js.includes message "504" then
        code_in API_ERROR retryable
      else if Js.includes message "gas" || Js.includes message "estimate" then
        code_in GAS_ESTIMATION_FAILED retryable
      else false
  end.

Record SmartRetryManager := mkManager {
  config : RetryConfig;
  strategy : RetryStrategy;
  activeRetries : gmap string RetryContext
}.

Section Engine.
(** The world the operation acts on, the operation itself (one call:
    it throws or returns, and changes the world), the suspension of the
    calling task, and the delay curve ([Math.pow] on floats and
    [Math.random] for the jitter, capped at 30000). *)
Context {W T : Type}.
Variable operation : W -> (JsError + T) * W.
Variable sleep : Z -> W -> W.
Variable calculateDelay : RetryStrategy -> Z -> RetryConfig -> Z.

(** The body of [for (let attempt = 1; attempt <= config.maxAttempts;
    attempt++)], with [n] iterations left. The left summand is the
    thrown value ([None] is [undefined]). *)
Fixpoint attempts_loop (st : RetryStrategy) (cfg : RetryConfig) (n : nat)
         (attempt : Z) (ctx : RetryContext) (w : W)
  : (option JsError + T) * RetryContext * W :=
  match n with
  | O => (inl (lastError ctx), ctx, w)
  | S n' =>
      let ctx1 := mkContext attempt (lastError ctx) (delays ctx) in
      match operation w with
      | (inr r, w') => (inr r, ctx1, w')
      | (inl e, w') =>
          let ctx2 := mkContext attempt (Some e) (delays ctx1) in
          if negb (isRetryableError e (retryableErrors cfg)) then
            (inl (Some e), ctx2, w')
          else if attempt <? maxAttempts cfg then
            let delay := calculateDelay st attempt cfg in
            attempts_loop st cfg n' (attempt + 1)
                          (mkContext attempt (Some e) (delays ctx2 ++ [delay])%list)
                          (sleep delay w')
          else
            attempts_loop st cfg n' (attempt + 1) ctx2 w'
      end
  end.

(** [executeAttempts]: the loop runs for attempt = 1 .. maxAttempts.
    The local [lastError] and [context.lastError] are assigned together,
    so one field stands for both. *)
Definition executeAttempts (st : RetryStrategy) (cfg : RetryConfig)
           (ctx : RetryContext) (w : W) :=
  attempts_loop st cfg (Z.to_nat (maxAttempts cfg)) 1 ctx w.

(** [executeWithRetry] *)
Definition executeWithRetry (m : SmartRetryManager) (operationId : option string)
           (customConfig : option PartialRetryConfig) (w : W)
  : RetryResult T * SmartRetryManager * W :=
  let effectiveConfig := merge (config m) customConfig in
  let context := mkContext 0 None [] in
  let m1 :=
    match operationId with
    | Some id => if Js.truthy (Some id)
                 then mkManager (config m) (strategy m) (<[id := context]> (activeRetries m))
                 else m
    | None => m
    end in
  let '(out, ctx', w') := executeAttempts (strategy m) effectiveConfig context w in
  let m2 :=
    match operationId with
    | Some id => if Js.truthy (Some id)
                 then mkManager (config m1) (strategy m1) (delete id (activeRetries m1))
                 else m1
    | None => m1
    end in
  match out with
  | inr r => (mkResult true (Some r) None (attempt ctx'), m2, w')
  | inl e => (mkResult false None e (attempt ctx'), m2, w')
  end.

(** Vocabulary for the statements: the world left by a failed attempt
    number [a] that is retried (the operation ran, then the loop slept
    unless [a] was the last attempt), the world in which the attempt
    [a + k] starts after [k] such failures, and the answer of the
    invocation number [k + 1] of a run that starts in [w]. *)
Definition after_failure (st : RetryStrategy) (cfg : RetryConfig) (a : Z) (w : W) : W :=
  let w' := snd (operation w) in
  if a <? maxAttempts cfg then sleep (calculateDelay st a cfg) w' else w'.

Fixpoint world_before (st : RetryStrategy) (cfg : RetryConfig) (a : Z) (k : nat) (w : W) : W :=
  match k with
  | O => w
  | S k' => world_before st cfg (a + 1) k' (after_failure st cfg a w)
  end.

Definition outcome (st : RetryStrategy) (cfg : RetryConfig) (k : nat) (w : W) : JsError + T :=
  fst (operation (world_before st cfg 1 k w)).

End Engine.

(** [new SmartRetryManager()] with the constructor's defaults. *)
Definition default_config : RetryConfig :=
  mkRetryConfig 3 1000 [NETWORK_ERROR; API_ERROR; GAS_ESTIMATION_FAILED].

Definition new_manager (cfg : RetryConfig) (st : RetryStrategy) : SmartRetryManager :=
  mkManager cfg st ∅.

(** Scripted operations to exercise the engine: the world counts the
    invocations made so far, the script answers invocation number
    [calls + 1]. The FIXED_DELAY curve is [min(backoffMs, 30000)]. *)
Definition scripted (script : nat -> JsError + Z) (calls : nat) : (JsError + Z) * nat :=
  (script calls, S calls).

Definition no_sleep (_ : Z) (calls : nat) : nat := calls.

Definition fixed_delay (_ : RetryStrategy) (_ : Z) (cfg : RetryConfig) : Z :=
  Z.min (backoffMs cfg) 30000.

Definition network_down : JsError :=
  EDex (DexErrorFactory.networkError (EPlain "socket hang up") None).

Definition bad_request : JsError :=
  EDex (DexErrorFactory.invalidParameters "amount" "-1" "positive amount").

Definition third_time_lucky (calls : nat) : JsError + Z :=
  if (calls <? 2)%nat then inl network_down else inr 42.

End Retry.

(** ** lib/dex/retry.ts — CircuitBreaker *)

Module Breaker.

Inductive State := CLOSED | OPEN | HALF_OPEN.

Record CircuitBreaker := mkBreaker {
  failureCount : Z;
  successCount : Z;
  lastFailureTime : Z;
  state : State;
  failureThreshold : Z;
  recoveryTimeMs : Z;
  successThreshold : Z
}.

(** [new CircuitBreaker(failureThreshold, recoveryTimeMs, successThreshold)] *)
Definition new (ft rt st : Z) : CircuitBreaker := mkBreaker 0 0 0 CLOSED ft rt st.

Definition set_state (b : CircuitBreaker) (s : State) : CircuitBreaker :=
  mkBreaker (failureCount b) (successCount b) (lastFailureTime b) s
            (failureThreshold b) (recoveryTimeMs b) (successThreshold b).

(** [onSuccess] *)
Definition onSuccess (b : CircuitBreaker) : CircuitBreaker :=
  let b1 := mkBreaker 0 (successCount b) (lastFailureTime b) (state b)
                      (failureThreshold b) (recoveryTimeMs b) (successThreshold b) in
  match state b1 with
  | HALF_OPEN =>
      let sc := successCount b1 + 1 in
      if successThreshold b1 <=? sc then
        mkBreaker 0 0 (lastFailureTime b1) CLOSED
                  (failureThreshold b1) (recoveryTimeMs b1) (successThreshold b1)
      else
        mkBreaker 0 sc (lastFailureTime b1) HALF_OPEN
                  (failureThreshold b1) (recoveryTimeMs b1) (successThreshold b1)
  | _ => b1
  end.

(** [onFailure], [now] being the reading of [Date.now()] *)
Definition onFailure (now : Z) (b : CircuitBreaker) : CircuitBreaker :=
  let fc := failureCount b + 1 in
  let b1 := mkBreaker fc 0 now (state b)
                      (failureThreshold b) (recoveryTimeMs b) (successThreshold b) in
  if failureThreshold b1 <=? fc then set_state b1 OPEN else b1.

Section Execute.
Context {W T : Type}.
Variable Date_now : W -> Z.
Variable operation : W -> (JsError + T) * W.

(** [execute]: an OPEN breaker inside its recovery window throws the
    synthetic 503 without calling the operation. *)
Definition execute (b : CircuitBreaker) (w : W) : (JsError + T) * CircuitBreaker * W :=
  let gate :=
    match state b with
    | OPEN =>
        if Date_now w - lastFailureTime b <? recoveryTimeMs b
        then inl (EDex (DexErrorFactory.apiError "Circuit Breaker" (Some "503")))
        else inr (set_state b HALF_OPEN)
    | _ => inr b
    end in
  match gate with
  | inl e => (inl e, b, w)
  | inr b1 =>
      match operation w with
      | (inr r, w') => (inr r, onSuccess b1, w')
      | (inl e, w') => (inl e, onFailure (Date_now w') b1, w')
      end
  end.
End Execute.

(** A protected dependency driven by a script: the world is the clock
    reading together with the answer the dependency gives to the next
    call ([true]: it returns, [false]: it throws). [call] is one
    [execute] against it, [calls] a sequence of them. *)
Definition scripted (w : Z * bool) : (JsError + unit) * (Z * bool) :=
  (if snd w then inr tt else inl (EPlain "dependency down"), w).

Definition call (b : CircuitBreaker) (ev : Z * bool) : CircuitBreaker :=
  snd (fst (execute fst scripted b ev)).

Definition calls (b : CircuitBreaker) (evs : list (Z * bool)) : CircuitBreaker :=
  fold_left call evs b.

End Breaker.

(** ** SmartCacheManager and QuoteCacheManager (the cache manager of the DEX
    service, kept in the same file as routes/x402.ts) *)

Module Cache.

Inductive CacheStrategy := LRU | LFU | FIFO | TTL_ONLY.

Record ExtendedCacheEntry (T : Type) := mkEntry {
  key : string;
  data : T;
  timestamp : Z;
  ttl : Z;
  accessCount : Z;
  lastAccessed : Z;
  createdAt : Z
}.
Arguments mkEntry {T}.
Arguments key {T}.
Arguments data {T}.
Arguments timestamp {T}.
Arguments ttl {T}.
Arguments accessCount {T}.
Arguments lastAccessed {T}.
Arguments createdAt {T}.

(** The counters of [CacheStats]. [maxSize] is a copy of the
    configuration; [hitRate] and [averageAge] are floating-point quotients
    recomputed from the counters and are left out. *)
Record CacheStats := mkStats {
  hits : Z;
  misses : Z;
  size : Z;
  evictions : Z
}.

(** *** A JavaScript [Map<string, V>]: association list in insertion order *)
Section JsMap.
Context {V : Type}.

Fixpoint map_get (k : string) (m : list (string * V)) : option V :=
  match m with
  | [] => None
  | (k', v) :: m' => if String.eqb k' k then Some v else map_get k m'
  end.

Definition map_has (k : string) (m : list (string * V)) : bool :=
  match map_get k m with Some _ => true | None => false end.

(** [map.set(k, v)]: an existing key keeps its position, a new key goes
    to the end. *)
Fixpoint map_set (k : string) (v : V) (m : list (string * V)) : list (string * V) :=
  match m with
  | [] => [(k, v)]
  | (k', v') :: m' =>
      if String.eqb k' k then (k', v) :: m' else (k', v') :: map_set k v m'
  end.

Fixpoint map_delete (k : string) (m : list (string * V)) : list (string * V) :=
  match m with
  | [] => []
  | (k', v') :: m' =>
      if String.eqb k' k then map_delete k m' else (k', v') :: map_delete k m'
  end.

Definition map_keys (m : list (string * V)) : list string := map fst m.
End JsMap.

(** [const i = a.indexOf(k); if (i !== -1) a.splice(i, 1)] *)
Fixpoint remove_first (k : string) (a : list string) : list string :=
  match a with
  | [] => []
  | k' :: a' => if String.eqb k' k then a' else k' :: remove_first k a'
  end.

Record SmartCacheManager (T : Type) := mkCache {
  cache : list (string * ExtendedCacheEntry T);
  accessOrder : list string;
  quoteTtl : Z;
  maxSize : Z;
  strategy : CacheStrategy;
  stats : CacheStats
}.
Arguments mkCache {T}.
Arguments cache {T}.
Arguments accessOrder {T}.
Arguments quoteTtl {T}.
Arguments maxSize {T}.
Arguments strategy {T}.
Arguments stats {T}.

Section Manager.
Context {T : Type}.
Local Abbreviation Mgr := (SmartCacheManager T).

(** [new SmartCacheManager({quoteTtl, maxSize}, strategy)] *)
Definition new (quoteTtl maxSize : Z) (strategy : CacheStrategy) : Mgr :=
  mkCache [] [] quoteTtl maxSize strategy (mkStats 0 0 0 0).

Definition with_cache (c : Mgr) (m : list (string * ExtendedCacheEntry T))
           (o : list string) : Mgr :=
  mkCache m o (quoteTtl c) (maxSize c) (strategy c) (stats c).

Definition with_stats (c : Mgr) (s : CacheStats) : Mgr :=
  mkCache (cache c) (accessOrder c) (quoteTtl c) (maxSize c) (strategy c) s.

Definition cache_size (c : Mgr) : Z := Z.of_nat (length (cache c)).

(** [updateStats]: [stats.size = cache.size] *)
Definition updateStats (c : Mgr) : Mgr :=
  with_stats c (mkStats (hits (stats c)) (misses (stats c)) (cache_size c)
                        (evictions (stats c))).

Definition count_miss (c : Mgr) : Mgr :=
  with_stats c (mkStats (hits (stats c)) (misses (stats c) + 1) (size (stats c))
                        (evictions (stats c))).

Definition count_hit (c : Mgr) : Mgr :=
  with_stats c (mkStats (hits (stats c) + 1) (misses (stats c)) (size (stats c))
                        (evictions (stats c))).

Definition count_eviction (c : Mgr) : Mgr :=
  with_stats c (mkStats (hits (stats c)) (misses (stats c)) (size (stats c))
                        (evictions (stats c) + 1)).

(** [removeFromAccessOrder] and [updateAccessOrder] *)
Definition removeFromAccessOrder (k : string) (c : Mgr) : Mgr :=
  with_cache c (cache c) (remove_first k (accessOrder c)).

Definition updateAccessOrder (k : string) (c : Mgr) : Mgr :=
  with_cache c (cache c) (remove_first k (accessOrder c) ++ [k])%list.

(** The three scans of [cache.forEach]: the running minimum starts at
    [Infinity] ([None]) and a strictly smaller measure replaces it, so
    the first minimal entry in insertion order wins. The measures are
    finite here: an access count and a creation time always are, an expiry
    time [timestamp + ttl] is when the ttl given to [set] is a finite
    number. ([set] takes any number: with a ttl of [Infinity] or [NaN] the
    expiry time never is below the running minimum and
    [findSoonestToExpire] finds no victim. Such ttls are outside this
    model, and the statements about victims leave TTL_ONLY out.) *)
Definition scan_min (measure : ExtendedCacheEntry T -> Z)
           (m : list (string * ExtendedCacheEntry T)) : option string :=
  snd (fold_left
         (fun (acc : option Z * option string) (p : string * ExtendedCacheEntry T) =>
            match fst acc with
            | None => (Some (measure (snd p)), Some (fst p))
            | Some best =>
                if measure (snd p) <? best
                then (Some (measure (snd p)), Some (fst p))
                else acc
            end)
         m (None, None)).

Definition findLeastFrequentlyUsed (c : Mgr) : option string :=
  scan_min accessCount (cache c).

Definition findOldestEntry (c : Mgr) : option string :=
  scan_min createdAt (cache c).

Definition findSoonestToExpire (c : Mgr) : option string :=
  scan_min (fun e => timestamp e + ttl e) (cache c).

(** [evictEntry]: the victim is removed only under [if (keyToEvict)]. *)
Definition keyToEvict (c : Mgr) : option string :=
  match strategy c with
  | LRU => head (accessOrder c)
  | LFU => findLeastFrequentlyUsed c
  | FIFO => findOldestEntry c
  | TTL_ONLY => findSoonestToExpire c
  end.

Definition evictEntry (c : Mgr) : Mgr :=
  match keyToEvict c with
  | Some k =>
      if Js.truthy (Some k) then
        count_eviction (with_cache c (map_delete k (cache c))
                                   (remove_first k (accessOrder c)))
      else c
  | None => c
  end.

(** [set(key, data, ttl = this.config.quoteTtl)] at clock reading [now] *)
Definition set (key : string) (data : T) (ttl : option Z) (now : Z) (c : Mgr) : Mgr :=
  let entry := mkEntry key data now (default (quoteTtl c) ttl) 1 now now in
  let c1 := if (maxSize c <=? cache_size c) && negb (map_has key (cache c))
            then evictEntry c else c in
  let c2 := match strategy c1 with
            | LRU => updateAccessOrder key c1
            | _ => c1
            end in
  updateStats (with_cache c2 (map_set key entry (cache c2)) (accessOrder c2)).

(** [get(key)] at clock reading [now]: [None] is the [undefined] of a
    miss. *)
Definition get (key : string) (now : Z) (c : Mgr) : option T * Mgr :=
  match map_get key (cache c) with
  | None => (None, count_miss c)
  | Some entry =>
      if ttl entry <? now - timestamp entry then
        (None, count_miss (with_cache c (map_delete key (cache c))
                                      (remove_first key (accessOrder c))))
      else
        let entry' := mkEntry (Cache.key entry) (data entry) (timestamp entry) (ttl entry)
                              (accessCount entry + 1) now (createdAt entry) in
        let c1 := with_cache c (map_set key entry' (cache c)) (accessOrder c) in
        let c2 := match strategy c1 with
                  | LRU => updateAccessOrder key c1
                  | _ => c1
                  end in
        (Some (data entry), count_hit c2)
  end.

(** [has(key)] *)
Definition has (key : string) (now : Z) (c : Mgr) : bool * Mgr :=
  match map_get key (cache c) with
  | None => (false, c)
  | Some entry =>
      if ttl entry <? now - timestamp entry then
        (false, with_cache c (map_delete key (cache c))
                           (remove_first key (accessOrder c)))
      else (true, c)
  end.

(** [delete(key)] *)
Definition delete (key : string) (c : Mgr) : bool * Mgr :=
  if map_has key (cache c) then
    (true, updateStats (with_cache c (map_delete key (cache c))
                                   (remove_first key (accessOrder c))))
  else (false, c).

(** [clear()] followed by its [resetStats()] *)
Definition clear (c : Mgr) : Mgr :=
  with_stats (with_cache c [] []) (mkStats 0 0 0 0).

(** [cleanup()] at clock reading [now] *)
Definition expiredKeys (now : Z) (c : Mgr) : list string :=
  map fst (List.filter (fun p => ttl (snd p) <? now - timestamp (snd p)) (cache c)).

Definition cleanup (now : Z) (c : Mgr) : Z * Mgr :=
  let ks := expiredKeys now c in
  let c' := fold_left (fun acc k => with_cache acc (map_delete k (cache acc))
                                               (remove_first k (accessOrder acc)))
                      ks c in
  (Z.of_nat (length ks), updateStats c').

End Manager.

(** Vocabulary for the statements: the keys and the LRU order of a manager
    are in step ([in_step]: no key is the empty string and, under LRU,
    [accessOrder] lists the keys of the map once each), and the manager is
    within its bound. *)
Definition in_step {T} (c : SmartCacheManager T) : Prop :=
  ("" ∉ map_keys (cache c))
  /\ (strategy c = LRU ->
      NoDup (accessOrder c) /\ forall k, k ∈ accessOrder c <-> k ∈ map_keys (cache c)).

Definition within_bound {T} (c : SmartCacheManager T) : Prop :=
  cache_size c <= maxSize c.

(** The calls a client can make, each with the clock reading at which it
    runs, and a run of a sequence of them. *)
Inductive Op (T : Type) :=
| OpSet (key : string) (data : T) (ttl : option Z)
| OpGet (key : string)
| OpHas (key : string)
| OpDelete (key : string)
| OpCleanup
| OpClear.
Arguments OpSet {T}.
Arguments OpGet {T}.
Arguments OpHas {T}.
Arguments OpDelete {T}.
Arguments OpCleanup {T}.
Arguments OpClear {T}.

Definition op_key {T} (o : Op T) : option string :=
  match o with
  | OpSet k _ _ | OpGet k | OpHas k | OpDelete k => Some k
  | OpCleanup | OpClear => None
  end.

Definition apply {T} (c : SmartCacheManager T) (ev : Z * Op T) : SmartCacheManager T :=
  match snd ev with
  | OpSet k d t => set k d t (fst ev) c
  | OpGet k => snd (get k (fst ev) c)
  | OpHas k => snd (has k (fst ev) c)
  | OpDelete k => snd (delete k c)
  | OpCleanup => snd (cleanup (fst ev) c)
  | OpClear => clear c
  end.

Definition run {T} (c : SmartCacheManager T) (evs : list (Z * Op T)) : SmartCacheManager T :=
  fold_left apply evs c.

(** [QuoteCacheManager]: an LRU [SmartCacheManager] with generated keys. *)
Definition generateQuoteKey (fromToken toToken amount slippage : string) : string :=
  "quote:" ++ fromToken ++ ":" ++ toToken ++ ":" ++ amount ++ ":" ++ slippage.

Definition newQuoteCache {T} (quoteTtl maxSize : Z) : SmartCacheManager T :=
  new quoteTtl maxSize LRU.

Definition setQuote {T} (fromToken toToken amount slippage : string) (quote : T)
           (ttl : option Z) (now : Z) (c : SmartCacheManager T) : SmartCacheManager T :=
  set (generateQuoteKey fromToken toToken amount slippage) quote ttl now c.

Definition getQuote {T} (fromToken toToken amount slippage : string)
           (now : Z) (c : SmartCacheManager T) : option T * SmartCacheManager T :=
  get (generateQuoteKey fromToken toToken amount slippage) now c.

Definition hasQuote {T} (fromToken toToken amount slippage : string)
           (now : Z) (c : SmartCacheManager T) : bool * SmartCacheManager T :=
  has (generateQuoteKey fromToken toToken amount slippage) now c.

(** [deleteByPrefix]: the keys are collected first ([key.startsWith(prefix)]),
    then deleted one by one; the count is the number of deletions that
    found their key. *)
Definition deleteByPrefix {T} (prefix : string) (c : SmartCacheManager T)
  : Z * SmartCacheManager T :=
  let keysToDelete := List.filter (String.prefix prefix) (map_keys (cache c)) in
  fold_left (fun (acc : Z * SmartCacheManager T) key =>
               let '(deleted, c') := delete key (snd acc) in
               (if deleted then fst acc + 1 else fst acc, c'))
            keysToDelete (0, c).

(** [clearPairQuotes] *)
Definition clearPairQuotes {T} (fromToken toToken : string) (c : SmartCacheManager T)
  : Z * SmartCacheManager T :=
  deleteByPrefix ("quote:" ++ fromToken ++ ":" ++ toToken ++ ":") c.

(** The representation invariant of a JavaScript [Map]: one entry per key. *)
Definition unique_keys {T} (c : SmartCacheManager T) : Prop :=
  NoDup (map_keys (cache c)).

(** [now - entry.timestamp > entry.ttl] *)
Definition expired {T} (now : Z) (e : ExtendedCacheEntry T) : bool :=
  ttl e <? now - timestamp e.

(** A key component that does not contain the separator of
    [generateQuoteKey]. *)
Fixpoint colon_free (s : string) : bool :=
  match s with
  | EmptyString => true
  | String c s' => negb (Ascii.eqb c ":"%char) && colon_free s'
  end.

(** The measure each scanning strategy minimises. *)
Definition measure {T} (s : CacheStrategy) (e : ExtendedCacheEntry T) : Z :=
  match s with
  | LRU => 0
  | LFU => accessCount e
  | FIFO => createdAt e
  | TTL_ONLY => timestamp e + ttl e
  end.

End Cache.

(** ** TieredCacheManager: an LRU first level over an optional LFU second
    level *)

Module Tiered.

(** [Partial<CacheConfig>] (the fields that are read). *)
Record PartialCacheConfig := mkPartialConfig {
  p_quoteTtl : option Z;
  p_maxSize : option Z
}.

(** [new SmartCacheManager(config, strategy)]: the constructor's defaults
    are [quoteTtl: 30000] and [maxSize: 100]. *)
Definition newSmartCacheManager {T} (config : PartialCacheConfig)
           (strategy : Cache.CacheStrategy) : Cache.SmartCacheManager T :=
  Cache.new (default 30000 (p_quoteTtl config)) (default 100 (p_maxSize config)) strategy.

Record TieredCacheManager (T : Type) := mkTiered {
  l1Cache : Cache.SmartCacheManager T;
  l2Cache : option (Cache.SmartCacheManager T)
}.
Arguments mkTiered {T}.
Arguments l1Cache {T}.
Arguments l2Cache {T}.

(** The constructor: [quoteTtl: l2Config.quoteTtl || 300000] replaces a
    missing or zero ttl. *)
Definition new {T} (l1Config : PartialCacheConfig) (l2Config : option PartialCacheConfig)
  : TieredCacheManager T :=
  mkTiered (newSmartCacheManager l1Config Cache.LRU)
           (match l2Config with
            | Some c2 =>
                let ttl := match p_quoteTtl c2 with
                           | Some t => if t =? 0 then 300000 else t
                           | None => 300000
                           end in
                Some (newSmartCacheManager (mkPartialConfig (Some ttl) (p_maxSize c2))
                                           Cache.LFU)
            | None => None
            end).

Section Tiers.
Context {T : Type}.
(** JavaScript truthiness of a cached value: [if (data)]. *)
Variable truthy : T -> bool.

(** [set(key, data, ttl)] at clock reading [now]; [ttl ? ttl * 5 : undefined]
    sends a missing or zero ttl to the second level's default. *)
Definition set (key : string) (data : T) (ttl : option Z) (now : Z)
           (c : TieredCacheManager T) : TieredCacheManager T :=
  let l1 := Cache.set key data ttl now (l1Cache c) in
  match l2Cache c with
  | Some l2 =>
      let l2Ttl := match ttl with
                   | Some t => if t =? 0 then None else Some (t * 5)
                   | None => None
                   end in
      mkTiered l1 (Some (Cache.set key data l2Ttl now l2))
  | None => mkTiered l1 None
  end.

(** [get(key, dataProvider)] at clock reading [now]. The provider, when
    given, either throws or resolves with a value, at clock reading
    [fetched]; [called] reports whether it was invoked. *)
Definition get (key : string) (dataProvider : option ((JsError + T) * Z)) (now : Z)
           (c : TieredCacheManager T) : option T * bool * TieredCacheManager T :=
  let '(data1, l1) := Cache.get key now (l1Cache c) in
  let from_provider (c1 : TieredCacheManager T) :=
    match dataProvider with
    | Some (inr data, fetched) => (Some data, true, set key data None fetched c1)
    | Some (inl _, _) => (None, true, c1)
    | None => (None, false, c1)
    end in
  let from_l2 :=
    match l2Cache c with
    | Some l2 =>
        let '(data2, l2') := Cache.get key now l2 in
        match data2 with
        | Some d2 =>
            if truthy d2
            then (Some d2, false, mkTiered (Cache.set key d2 None now l1) (Some l2'))
            else from_provider (mkTiered l1 (Some l2'))
        | None => from_provider (mkTiered l1 (Some l2'))
        end
    | None => from_provider (mkTiered l1 None)
    end in
  match data1 with
  | Some d1 => if truthy d1 then (Some d1, false, mkTiered l1 (l2Cache c)) else from_l2
  | None => from_l2
  end.

(** [delete(key)] *)
Definition delete (key : string) (c : TieredCacheManager T) : bool * TieredCacheManager T :=
  let '(l1Deleted, l1) := Cache.delete key (l1Cache c) in
  match l2Cache c with
  | Some l2 =>
      let '(l2Deleted, l2') := Cache.delete key l2 in
      (l1Deleted || l2Deleted, mkTiered l1 (Some l2'))
  | None => (l1Deleted, mkTiered l1 None)
  end.

End Tiers.

End Tiered.

(** ** lib/dex/config.ts — networks, tokens and the configuration manager *)

Module Config.

Record TokenInfo := mkToken {
  address : string;
  symbol : string;
  name : string;
  decimals : Z
}.

(** [NetworkConfig] (the native token is not read by the code modelled). *)
Record NetworkConfig := mkNetwork {
  chainId : string;
  network_name : string;
  rpcUrl : string;
  explorerUrl : string
}.

Record DexConfig := mkDexConfig {
  chainIndex : string;
  fromTokenAddress : string;
  toTokenAddress : string;
  slippagePercent : string
}.

(** [NETWORKS]: keyed by network key; [X_LAYER_RPC_URL] is the environment
    variable read for the first entry. *)
Definition NETWORKS (X_LAYER_RPC_URL : option string) : list (string * NetworkConfig) :=
  [("xlayer", mkNetwork "196" "X Layer"
                        (if Js.truthy X_LAYER_RPC_URL
                         then default "" X_LAYER_RPC_URL else "https://rpc.xlayer.tech")
                        "https://www.oklink.com/xlayer");
   ("base", mkNetwork "8453" "Base" "https://mainnet.base.org" "https://basescan.org");
   ("ethereum", mkNetwork "1" "Ethereum"
                          "https://eth-mainnet.alchemyapi.io/v2/YOUR_API_KEY"
                          "https://etherscan.io");
   ("bsc", mkNetwork "56" "BNB Smart Chain" "https://bsc-dataseed.binance.org"
                     "https://bscscan.com")].

(** [TOKENS]: keyed by network key, then by symbol. *)
Definition TOKENS : list (string * list (string * TokenInfo)) :=
  [("xlayer",
    [("ETH", mkToken "0xEeeeeEeeeEeEeeEeEeEeeEEEeeeeEeeeeeeeEEeE" "ETH" "Ethereum" 18);
     ("USDC", mkToken "0x74b7f16337b8972027f6196a17a631ac6de26d22" "USDC" "USD Coin" 6);
     ("WOKB", mkToken "0xe538905cf8410324e03a5a23c1c177a474d59b2b" "WOKB" "Wrapped OKB" 18)]);
   ("base",
    [("ETH", mkToken "0xEeeeeEeeeEeEeeEeEeEeeEEEeeeeEeeeeeeeEEeE" "ETH" "Ethereum" 18);
     ("USDC", mkToken "0x833589fCD6eDb6E08f4c7C32D4f71b54bdA02913" "USDC" "USD Coin" 6)])].

(** [ConfigManager]: the two maps that are read ([dexConfigs] is only
    written). *)
Record ConfigManager := mkConfigManager {
  networks : gmap string NetworkConfig;
  tokens : gmap string (gmap string TokenInfo)
}.

(** [ConfigManager.getInstance()] on first use: [initializeDefaults]. *)
Definition getInstance (X_LAYER_RPC_URL : option string) : ConfigManager :=
  mkConfigManager
    (list_to_map (NETWORKS X_LAYER_RPC_URL))
    (list_to_map (map (fun p => (fst p, list_to_map (snd p))) TOKENS)).

Definition getNetwork (cm : ConfigManager) (networkKey : string) : option NetworkConfig :=
  networks cm !! networkKey.

(** [this.tokens.get(networkKey)?.get(symbol)] *)
Definition getToken (cm : ConfigManager) (networkKey symbol : string) : option TokenInfo :=
  match tokens cm !! networkKey with
  | Some networkTokens => networkTokens !! symbol
  | None => None
  end.

Definition addToken (cm : ConfigManager) (networkKey symbol : string) (token : TokenInfo)
  : ConfigManager :=
  mkConfigManager (networks cm)
    (<[networkKey := <[symbol := token]> (default ∅ (tokens cm !! networkKey))]> (tokens cm)).

(** [createDexConfig(networkKey, fromSymbol, toSymbol, slippagePercent = '5.0')] *)
Definition createDexConfig (cm : ConfigManager) (networkKey fromSymbol toSymbol : string)
           (slippage : option string) : option DexConfig :=
  match getNetwork cm networkKey, getToken cm networkKey fromSymbol,
        getToken cm networkKey toSymbol with
  | Some network, Some fromToken, Some toToken =>
      Some (mkDexConfig (chainId network) (address fromToken) (address toToken)
                        (default "5.0" slippage))
  | _, _, _ => None
  end.

(** [createSwapConfig]: throws when [createDexConfig] finds nothing. *)
Definition createSwapConfig (cm : ConfigManager) (networkKey fromSymbol toSymbol : string)
           (slippage : option string) : JsError + DexConfig :=
  match createDexConfig cm networkKey fromSymbol toSymbol slippage with
  | Some config => inr config
  | None => inl (EPlain ("Cannot create swap config: " ++ fromSymbol ++ " -> " ++ toSymbol
                           ++ " on " ++ networkKey))
  end.

End Config.

(** ** lib/dex/DexSwapService.ts — the swap orchestrator *)

Module Dex.

Inductive SwapEventType :=
| QUOTE_REQUESTED | QUOTE_RECEIVED | QUOTE_FAILED | SWAP_INITIATED
| APPROVAL_REQUIRED | APPROVAL_COMPLETED | SIMULATION_STARTED | SIMULATION_COMPLETED
| TRANSACTION_SUBMITTED | TRANSACTION_CONFIRMED | TRANSACTION_FAILED
| SWAP_COMPLETED | SWAP_FAILED.

Record SwapEvent := mkEvent {
  ev_type : SwapEventType;
  ev_transactionHash : option string
}.

(** [SwapExecuteRequest] (the fields the orchestrator reads). *)
Record SwapRequest := mkRequest {
  fromTokenAddress : string;
  toTokenAddress : string;
  amount : string;
  walletAddress : string;
  slippagePercent : option string
}.

(** [SwapQuoteResponse]: the amount of the target token and the rate. *)
Record SwapQuoteResponse := mkQuote {
  toToken_amount : string;
  exchangeRate : string;
  estimatedGas : string
}.

Record TransactionData := mkTx {
  to : option string;
  tx_data : option string;
  value : string;
  gas : string;
  gasPrice : string
}.

Record Receipt := mkReceipt {
  status : Z;
  receipt_gasUsed : option string;
  receipt_fee : option string
}.

Record ValidationResult := mkValidation {
  isValid : bool;
  errors : list string
}.

Record SwapExecuteResponse := mkResponse {
  success : bool;
  transactionHash : option string;
  explorerUrl : option string;
  fromAmount : string;
  toAmount : string;
  actualRate : option string;
  gasUsed : option string;
  gasFee : option string;
  errorMessage : option string;
  errorCode : option SwapErrorCode
}.

(** [averageExecutionTime] is a floating-point running mean and is left
    out; [averageGasUsed] is computed on [BigInt]s. *)
Record SwapMetrics := mkMetrics {
  totalSwaps : Z;
  successfulSwaps : Z;
  failedSwaps : Z;
  totalVolume : Z;
  averageGasUsed : Z;
  errorBreakdown : SwapErrorCode -> Z
}.

(** The service instance together with the two process-wide singletons it
    writes to (event emitter history, error tracker). *)
Record Service := mkService {
  wallet : bool;
  enableMetrics : bool;
  enableEvents : bool;
  simulationEnabled : bool;
  defaultSlippage : string;
  network_explorerUrl : string;
  tokensConfigured : bool;
  cacheManager : Cache.SmartCacheManager SwapQuoteResponse;
  networkRetry : Retry.SmartRetryManager;
  metrics : SwapMetrics;
  eventHistory : list SwapEvent;
  errorCounts : SwapErrorCode -> Z;
  recentErrors : list DexSwapError
}.

Definition set_metrics (s : Service) (m : SwapMetrics) : Service :=
  mkService (wallet s) (enableMetrics s) (enableEvents s) (simulationEnabled s)
            (defaultSlippage s) (network_explorerUrl s) (tokensConfigured s)
            (cacheManager s) (networkRetry s) m (eventHistory s)
            (errorCounts s) (recentErrors s).

Definition set_cache (s : Service) (c : Cache.SmartCacheManager SwapQuoteResponse) : Service :=
  mkService (wallet s) (enableMetrics s) (enableEvents s) (simulationEnabled s)
            (defaultSlippage s) (network_explorerUrl s) (tokensConfigured s)
            c (networkRetry s) (metrics s) (eventHistory s)
            (errorCounts s) (recentErrors s).

Definition set_retry (s : Service) (r : Retry.SmartRetryManager) : Service :=
  mkService (wallet s) (enableMetrics s) (enableEvents s) (simulationEnabled s)
            (defaultSlippage s) (network_explorerUrl s) (tokensConfigured s)
            (cacheManager s) r (metrics s) (eventHistory s)
            (errorCounts s) (recentErrors s).

Definition set_events (s : Service) (h : list SwapEvent) : Service :=
  mkService (wallet s) (enableMetrics s) (enableEvents s) (simulationEnabled s)
            (defaultSlippage s) (network_explorerUrl s) (tokensConfigured s)
            (cacheManager s) (networkRetry s) (metrics s) h
            (errorCounts s) (recentErrors s).

Definition set_tracker (s : Service) (n : SwapErrorCode -> Z) (r : list DexSwapError)
  : Service :=
  mkService (wallet s) (enableMetrics s) (enableEvents s) (simulationEnabled s)
            (defaultSlippage s) (network_explorerUrl s) (tokensConfigured s)
            (cacheManager s) (networkRetry s) (metrics s) (eventHistory s) n r.

(** What a [throw] carries: an [Error] object, or [undefined] (the
    engine's [quote.error!] when no attempt ran). *)
Inductive Thrown :=
| ThrowError (e : JsError)
| ThrowUndefined.

(** [history.push(x); if (history.length > max) history.shift()] *)
Definition push_bounded {A} (max : nat) (x : A) (h : list A) : list A :=
  let h' := (h ++ [x])%list in
  if (max <? length h')%nat then tail h' else h'.

(** [errors.join(', ')] *)
Fixpoint join (l : list string) : string :=
  match l with
  | [] => ""
  | [x] => x
  | x :: l' => x ++ ", " ++ join l'
  end.

Section Orchestrator.
(** The world outside the process and the collaborators that act on it:
    the clock, the validators, the aggregator, the signer, the RPC
    provider, [BigInt(...)] on an amount string, and the retry engine's
    sleep and delay curve. A collaborator throws [Error] objects. *)
Context {W : Type}.
Variable Date_now : W -> Z.
Variable isoNow : W -> string.
Variable validateQuoteRequest : SwapRequest -> ValidationResult.
Variable validateCompleteSwapRequest : SwapRequest -> W -> (JsError + ValidationResult) * W.
Variable fetchQuoteFromAPI : SwapRequest -> W -> (JsError + SwapQuoteResponse) * W.
Variable validateAllowance : SwapRequest -> W -> (JsError + ValidationResult) * W.
Variable approve : SwapRequest -> W -> (JsError + unit) * W.
Variable getSwapTx : SwapRequest -> W -> (JsError + TransactionData) * W.
Variable validateTransactionData : TransactionData -> ValidationResult.
Variable sendTransaction : TransactionData -> W -> (JsError + string) * W.
Variable waitForTransaction : string -> W -> (JsError + option Receipt) * W.
Variable parseBigInt : string -> option Z.
Variable sleep : Z -> W -> W.
Variable calculateDelay : Retry.RetryStrategy -> Z -> Retry.RetryConfig -> Z.

(** *** State-and-exception monad of the async methods *)
Definition M (A : Type) : Type := Service * W -> (Thrown + A) * (Service * W).

Definition ret {A} (a : A) : M A := fun s => (inr a, s).
Definition throw {A} (e : JsError) : M A := fun s => (inl (ThrowError e), s).
Definition throw_undefined {A} : M A := fun s => (inl ThrowUndefined, s).
Definition bind {A B} (m : M A) (k : A -> M B) : M B :=
  fun s => match m s with
           | (inl e, s') => (inl e, s')
           | (inr a, s') => k a s'
           end.
Definition try_catch {A} (body : M A) (handler : Thrown -> M A) : M A :=
  fun s => match body s with
           | (inl e, s') => handler e s'
           | (inr a, s') => (inr a, s')
           end.
Definition modify (f : Service -> Service) : M unit := fun s => (inr tt, (f (fst s), snd s)).
Definition service : M Service := fun s => (inr (fst s), s).
Definition clock : M Z := fun s => (inr (Date_now (snd s)), s).
Definition when (b : bool) (m : M unit) : M unit := if b then m else ret tt.
(** An awaited collaborator. *)
Definition await {A} (f : W -> (JsError + A) * W) : M A :=
  fun s => match f (snd s) with
           | (inl e, w') => (inl (ThrowError e), (fst s, w'))
           | (inr a, w') => (inr a, (fst s, w'))
           end.

Notation "'let*' x ':=' m 'in' k" := (bind m (fun x => k))
  (at level 10, x pattern, m at level 100, k at level 200).
Notation "m ';;' k" := (bind m (fun _ => k))
  (at level 100, k at level 200, right associativity).

(** [dexEventEmitter.emit]: listeners run under their own [try/catch],
    the history keeps the last 1000 events. *)
Definition emit (t : SwapEventType) (txHash : option string) : M unit :=
  modify (fun s => set_events s (push_bounded 1000 (mkEvent t txHash) (eventHistory s))).

Definition emit_if_enabled (t : SwapEventType) (txHash : option string) : M unit :=
  let* s := service in when (enableEvents s) (emit t txHash).

(** [dexErrorTracker.trackError] *)
Definition trackError (e : DexSwapError) : M unit :=
  modify (fun s =>
    set_tracker s
      (fun c => if bool_decide (c = code e) then errorCounts s c + 1 else errorCounts s c)
      (push_bounded 100 e (recentErrors s))).

(** [error instanceof DexSwapError ? error : DexErrorFactory.fromError(error)];
    on [undefined] the read of [error.message] raises a [TypeError]. *)
Definition toDexError (t : Thrown) : M DexSwapError :=
  match t with
  | ThrowError e => fun s => (inr (DexErrorFactory.fromError (isoNow (snd s)) e), s)
  | ThrowUndefined =>
      throw (EPlain "Cannot read properties of undefined (reading 'message')")
  end.

(** [updateProgress]: the optional callback of the caller. *)
Definition updateProgress (cb : option (Z -> string -> W -> (JsError + unit) * W))
           (progress : Z) (message : string) : M unit :=
  match cb with
  | Some f => await (f progress message)
  | None => ret tt
  end.

(** [getQuote] *)
Definition getQuote (request : SwapRequest) : M SwapQuoteResponse :=
  try_catch
    (emit_if_enabled QUOTE_REQUESTED None ;;
     let validation := validateQuoteRequest request in
     (if isValid validation then ret tt
      else throw (EDex (DexErrorFactory.invalidParameters
                          "request" "[object Object]" (join (errors validation))))) ;;
     let* s := service in
     let cacheKey :=
       Cache.generateQuoteKey (fromTokenAddress request) (toTokenAddress request)
         (amount request)
         (if Js.truthy (slippagePercent request)
          then default "" (slippagePercent request) else defaultSlippage s) in
     let* now := clock in
     let '(cachedQuote, c') := Cache.get cacheKey now (cacheManager s) in
     modify (fun s => set_cache s c') ;;
     match cachedQuote with
     | Some q => emit_if_enabled QUOTE_RECEIVED None ;; ret q
     | None =>
         let* quote :=
           (fun st : Service * W =>
              let '(r, m', w') :=
                Retry.executeWithRetry (fetchQuoteFromAPI request) sleep calculateDelay
                                       (networkRetry (fst st)) None None (snd st) in
              (inr r, (set_retry (fst st) m', w'))) in
         if negb (Retry.success quote) then
           match Retry.error quote with
           | Some e => throw e
           | None => throw_undefined
           end
         else
           match Retry.result quote with
           | None => throw_undefined (* not reached: a success carries its result *)
           | Some quoteResponse =>
               let* now := clock in
               modify (fun s => set_cache s
                         (Cache.set cacheKey quoteResponse None now (cacheManager s))) ;;
               emit_if_enabled QUOTE_RECEIVED None ;;
               ret quoteResponse
           end
     end)
    (fun error =>
       emit_if_enabled QUOTE_FAILED None ;;
       let* dexError := toDexError error in
       trackError dexError ;;
       throw (EDex dexError)).

(** [handleTokenApproval] with [executeApproval] *)
Definition handleTokenApproval (request : SwapRequest)
           (cb : option (Z -> string -> W -> (JsError + unit) * W)) : M unit :=
  if String.eqb (fromTokenAddress request) "0xEeeeeEeeeEeEeeEeEeEeeEEEeeeeEeeeeeeeEEeE"
  then ret tt
  else
    let* validation := await (validateAllowance request) in
    if isValid validation then ret tt
    else
      emit_if_enabled APPROVAL_REQUIRED None ;;
      updateProgress cb 35 "执行代币授权..." ;;
      let* s := service in
      (if wallet s then await (approve request)
       else throw (EDex (DexErrorFactory.invalidParameters
                           "wallet" "undefined" "wallet required for approval"))) ;;
      emit_if_enabled APPROVAL_COMPLETED None.

(** [prepareTransactionData] *)
Definition prepareTransactionData (request : SwapRequest) : M TransactionData :=
  let* txData := await (getSwapTx request) in
  let validation := validateTransactionData txData in
  if isValid validation then ret txData
  else throw (EDex (DexErrorFactory.invalidParameters
                      "txData" "[object Object]" (join (errors validation)))).

(** [simulateTransaction] *)
Definition simulateTransaction (txData : TransactionData) : M unit :=
  emit_if_enabled SIMULATION_STARTED None ;;
  (if negb (Js.truthy (to txData)) || negb (Js.truthy (tx_data txData))
      || bool_decide (tx_data txData = Some "0x")
   then throw (EDex (DexErrorFactory.transactionFailed None (Some "Invalid transaction data")))
   else ret tt) ;;
  emit_if_enabled SIMULATION_COMPLETED None.

(** [executeTransaction] *)
Definition executeTransaction (txData : TransactionData) : M string :=
  let* s := service in
  (if wallet s then ret tt
   else throw (EDex (DexErrorFactory.invalidParameters
                       "wallet" "undefined" "wallet required for transaction"))) ;;
  let* hash := await (sendTransaction txData) in
  emit_if_enabled TRANSACTION_SUBMITTED (Some hash) ;;
  ret hash.

(** [waitForTransactionConfirmation] *)
Definition waitForTransactionConfirmation (txHash : string) : M Receipt :=
  let* receipt := await (waitForTransaction txHash) in
  match receipt with
  | None => throw (EDex (DexErrorFactory.transactionFailed
                           (Some txHash) (Some "Transaction not found")))
  | Some r =>
      if status r =? 0 then
        throw (EDex (DexErrorFactory.transactionFailed
                       (Some txHash) (Some "Transaction reverted")))
      else emit_if_enabled TRANSACTION_CONFIRMED (Some txHash) ;; ret r
  end.

(** [BigInt(s)] raises a [SyntaxError] on a string that is no integer. *)
Definition bigInt (s : string) : M Z :=
  match parseBigInt s with
  | Some z => ret z
  | None => throw (EPlain ("Cannot convert " ++ s ++ " to a BigInt"))
  end.

(** [updateVolumeMetrics], [updateGasMetrics] and [updateErrorMetrics] *)
Definition updateVolumeMetrics (amount : string) : M unit :=
  let* newAmount := bigInt amount in
  modify (fun s =>
    let m := metrics s in
    set_metrics s (mkMetrics (totalSwaps m) (successfulSwaps m) (failedSwaps m)
                             (totalVolume m + newAmount) (averageGasUsed m)
                             (errorBreakdown m))).

Definition updateGasMetrics (gasUsed : string) : M unit :=
  let* newGas := bigInt gasUsed in
  modify (fun s =>
    let m := metrics s in
    let avg := if 0 <? successfulSwaps m
               then Z.quot (averageGasUsed m * (successfulSwaps m - 1) + newGas)
                           (successfulSwaps m)
               else newGas in
    set_metrics s (mkMetrics (totalSwaps m) (successfulSwaps m) (failedSwaps m)
                             (totalVolume m) avg (errorBreakdown m))).

Definition updateErrorMetrics (e : DexSwapError) : M unit :=
  modify (fun s =>
    let m := metrics s in
    set_metrics s (mkMetrics (totalSwaps m) (successfulSwaps m) (failedSwaps m)
                             (totalVolume m) (averageGasUsed m)
                             (fun c => if bool_decide (c = code e)
                                       then errorBreakdown m c + 1
                                       else errorBreakdown m c))).

Definition count_swap (f : SwapMetrics -> SwapMetrics) : M unit :=
  let* s := service in
  when (enableMetrics s) (modify (fun s => set_metrics s (f (metrics s)))).

(** The [try] block of [executeSwap] *)
Definition executeSwap_try (request : SwapRequest)
           (cb : option (Z -> string -> W -> (JsError + unit) * W))
  : M SwapExecuteResponse :=
  let* s := service in
  (if wallet s then ret tt
   else throw (EDex (DexErrorFactory.invalidParameters
                       "wallet" "undefined"
                       "wallet instance required for swap execution"))) ;;
  count_swap (fun m => mkMetrics (totalSwaps m + 1) (successfulSwaps m) (failedSwaps m)
                                 (totalVolume m) (averageGasUsed m) (errorBreakdown m)) ;;
  emit_if_enabled SWAP_INITIATED None ;;
  updateProgress cb 10 "验证交换参数..." ;;
  (if tokensConfigured s then ret tt
   else throw (EDex (DexErrorFactory.invalidParameters
                       "tokens" "not found" "token configuration not found"))) ;;
  let* validation := await (validateCompleteSwapRequest request) in
  (if isValid validation then ret tt
   else throw (EDex (DexErrorFactory.invalidParameters
                       "request" "[object Object]" (join (errors validation))))) ;;
  updateProgress cb 20 "获取最新报价..." ;;
  let* quote := getQuote request in
  updateProgress cb 30 "检查代币授权..." ;;
  handleTokenApproval request cb ;;
  updateProgress cb 50 "准备交易数据..." ;;
  let* txData := prepareTransactionData request in
  updateProgress cb 60 "模拟交易执行..." ;;
  when (simulationEnabled s) (simulateTransaction txData) ;;
  updateProgress cb 70 "提交区块链交易..." ;;
  let* txHash := executeTransaction txData in
  updateProgress cb 90 "等待交易确认..." ;;
  let* receipt := waitForTransactionConfirmation txHash in
  updateProgress cb 100 "交换完成" ;;
  let response :=
    mkResponse true (Some txHash)
               (Some (network_explorerUrl s ++ "/tx/" ++ txHash))
               (amount request) (toToken_amount quote) (Some (exchangeRate quote))
               (receipt_gasUsed receipt) (receipt_fee receipt) None None in
  when (enableMetrics s)
       (modify (fun s =>
          let m := metrics s in
          set_metrics s (mkMetrics (totalSwaps m) (successfulSwaps m + 1) (failedSwaps m)
                                   (totalVolume m) (averageGasUsed m) (errorBreakdown m))) ;;
        updateVolumeMetrics (amount request) ;;
        updateGasMetrics (if Js.truthy (receipt_gasUsed receipt)
                          then default "0" (receipt_gasUsed receipt) else "0")) ;;
  emit_if_enabled SWAP_COMPLETED (Some txHash) ;;
  ret response.

(** The [catch] block of [executeSwap] *)
Definition executeSwap_catch (request : SwapRequest) (error : Thrown)
  : M SwapExecuteResponse :=
  count_swap (fun m => mkMetrics (totalSwaps m) (successfulSwaps m) (failedSwaps m + 1)
                                 (totalVolume m) (averageGasUsed m) (errorBreakdown m)) ;;
  let* dexError := toDexError error in
  let* s := service in
  when (enableMetrics s) (updateErrorMetrics dexError) ;;
  trackError dexError ;;
  emit_if_enabled SWAP_FAILED None ;;
  ret (mkResponse false None None (amount request) "0" None None None
                  (Some (toUserFriendly dexError)) (Some (code dexError))).

(** [executeSwap] *)
Definition executeSwap (request : SwapRequest)
           (cb : option (Z -> string -> W -> (JsError + unit) * W))
  : M SwapExecuteResponse :=
  try_catch (executeSwap_try request cb) (executeSwap_catch request).

(** Vocabulary for the statements: a computation that never throws
    [undefined], and one whose returned values all satisfy [P]. *)
Definition throws_errors {A} (m : M A) : Prop :=
  forall s s', m s <> (inl ThrowUndefined, s').

Definition returns_with {A} (P : A -> Prop) (m : M A) : Prop :=
  forall s a s', m s = (inr a, s') -> P a.

(** A service that has a signer and whose retry engine is allowed at least
    one attempt, and a computation that, run on such a service, returns a
    value that satisfies [Q] and leaves such a service. *)
Definition ready (s : Service * W) : Prop :=
  wallet (fst s) = true
  /\ 1 <= Retry.maxAttempts (Retry.config (networkRetry (fst s))).

Definition answers {A} (Q : A -> Prop) (m : M A) : Prop :=
  forall s, ready s -> exists a s', m s = (inr a, s') /\ ready s' /\ Q a.

(** What the response of a swap that was completed tells: the service has a
    signer and knows the tokens, the validator accepted the request, the
    aggregator gave transaction data that were accepted, the signer answered
    the hash for them, and the provider returned for it a receipt that does
    not report a revert. *)
Definition completed_swap (request : SwapRequest) (sv : Service)
           (resp : SwapExecuteResponse) : Prop :=
  wallet sv = true
  /\ tokensConfigured sv = true
  /\ (exists w v, fst (validateCompleteSwapRequest request w) = inr v /\ isValid v = true)
  /\ exists tx h receipt,
       (exists w, fst (getSwapTx request w) = inr tx)
       /\ isValid (validateTransactionData tx) = true
       /\ (exists w, fst (sendTransaction tx w) = inr h)
       /\ (exists w, fst (waitForTransaction h w) = inr (Some receipt))
       /\ status receipt <> 0
       /\ transactionHash resp = Some h
       /\ explorerUrl resp = Some (network_explorerUrl sv ++ "/tx/" ++ h)
       /\ gasUsed resp = receipt_gasUsed receipt
       /\ gasFee resp = receipt_fee receipt.

(** A request that nothing stops, on the service [sv]: there is a signer, the
    tokens are known, the retry engine is allowed an attempt, and every
    collaborator answers wherever it is called: the progress callback
    returns, the validators accept, the aggregator gives a quote and
    transaction data that pass the validation and the simulation, the
    allowance is read and an approval goes through, the signer sends, the
    provider returns a receipt that does not report a revert, and the amounts
    fed to the metrics are integers. *)
Definition swap_goes_through (request : SwapRequest)
           (cb : option (Z -> string -> W -> (JsError + unit) * W)) (sv : Service) : Prop :=
  wallet sv = true
  /\ tokensConfigured sv = true
  /\ 1 <= Retry.maxAttempts (Retry.config (networkRetry sv))
  /\ (forall f, cb = Some f -> forall progress message w, fst (f progress message w) = inr tt)
  /\ (forall w, exists v, fst (validateCompleteSwapRequest request w) = inr v
                          /\ isValid v = true)
  /\ isValid (validateQuoteRequest request) = true
  /\ (forall w, exists quote, fst (fetchQuoteFromAPI request w) = inr quote)
  /\ (forall w, exists v, fst (validateAllowance request w) = inr v)
  /\ (forall w, fst (approve request w) = inr tt)
  /\ (forall w, exists tx,
        fst (getSwapTx request w) = inr tx
        /\ isValid (validateTransactionData tx) = true
        /\ (simulationEnabled sv = true ->
            Js.truthy (to tx) = true /\ Js.truthy (tx_data tx) = true
            /\ tx_data tx <> Some "0x"))
  /\ (forall tx w, exists h, fst (sendTransaction tx w) = inr h)
  /\ (forall h w, exists receipt,
        fst (waitForTransaction h w) = inr (Some receipt)
        /\ status receipt <> 0
        /\ (enableMetrics sv = true ->
            is_Some (parseBigInt (if Js.truthy (receipt_gasUsed receipt)
                                  then default "0" (receipt_gasUsed receipt) else "0"))))
  /\ (enableMetrics sv = true -> is_Some (parseBigInt (amount request))).

End Orchestrator.

(** [new DexSwapService(options)] with the options the factory passes, with
    or without a signer ([XLAYER_PRIVATE_KEY]). [tokensConfigured] is what the
    two lookups [configManager.getToken(this.networkConfig.chainId, ...)] of
    [executeSwap] find: the key they pass is the chain id of the network. *)
Definition newDexSwapService (cm : Config.ConfigManager) (network : Config.NetworkConfig)
           (wallet : bool) (defaultSlippage : string) : Service :=
  mkService wallet true true true defaultSlippage (Config.explorerUrl network)
            (bool_decide (is_Some (Config.getToken cm (Config.chainId network) "USDC"))
             && bool_decide (is_Some (Config.getToken cm (Config.chainId network) "WOKB")))
            (Cache.newQuoteCache 30000 100)
            (Retry.new_manager (Retry.mkRetryConfig 3 1000 [NETWORK_ERROR])
                               Retry.EXPONENTIAL_BACKOFF)
            (mkMetrics 0 0 0 0 0 (fun _ => 0)) [] (fun _ => 0) [].

(** [createXLayerUsdcWokbSwapService()] *)
Definition createXLayerUsdcWokbSwapService (cm : Config.ConfigManager) (wallet : bool)
  : JsError + Service :=
  let networkConfig := Config.getNetwork cm "xlayer" in
  match Config.createSwapConfig cm "xlayer" "USDC" "WOKB" (Some "10.0") with
  | inl e => inl e
  | inr dexConfig =>
      match networkConfig with
      | Some network => inr (newDexSwapService cm network wallet "10.0")
      | None => inl (EPlain "Failed to create X Layer USDC->WOKB swap service configuration")
      end
  end.

(** The configuration after the two tokens have also been registered under
    the chain id of X Layer. *)
Definition registered_by_chain_id (cm : Config.ConfigManager) : Config.ConfigManager :=
  Config.addToken
    (Config.addToken cm "196" "USDC"
       (Config.mkToken "0x74b7f16337b8972027f6196a17a631ac6de26d22" "USDC" "USD Coin" 6))
    "196" "WOKB"
    (Config.mkToken "0xe538905cf8410324e03a5a23c1c177a474d59b2b" "WOKB" "Wrapped OKB" 18).

(** A scripted outside world to exercise the orchestrator: the world is the
    clock, every collaborator answers at once, and the signer either
    broadcasts the transaction or refuses it. *)
Definition valid : ValidationResult := mkValidation true [].

Definition scripted_swap (signer : JsError + string) (sv : Service) (request : SwapRequest)
  : (Thrown + SwapExecuteResponse) * (Service * Z) :=
  executeSwap (W := Z)
    (fun w => w) (fun _ => "1970-01-01T00:00:00.000Z")
    (fun _ => valid) (fun _ w => (inr valid, w))
    (fun q w => (inr (mkQuote "0.02" "0.020000" "300000"), w))
    (fun _ w => (inr valid, w)) (fun _ w => (inr tt, w))
    (fun _ w => (inr (mkTx (Some "0xrouter") (Some "0xcalldata") "0" "300000" "100000000"), w))
    (fun _ => valid)
    (fun _ w => (signer, w))
    (fun _ w => (inr (Some (mkReceipt 1 (Some "21000") None)), w))
    (fun _ => Some 1000000)
    (fun _ w => w) (fun _ _ cfg => Retry.backoffMs cfg)
    request None (sv, 0).

Definition usdc_to_wokb : SwapRequest :=
  mkRequest "0x74b7f16337b8972027f6196a17a631ac6de26d22"
            "0xe538905cf8410324e03a5a23c1c177a474d59b2b"
            "1000000" "0xreceiver" (Some "10.0").

End Dex.

(** ** lib/dex/validator.ts — the checks on the transaction data *)

Module Validator.

Record ValidationResult := mkResult {
  isValid : bool;
  errors : list string;
  warnings : list string
}.

(** [{ isValid: errors.length === 0, errors, warnings }] *)
Definition result (errors warnings : list string) : ValidationResult :=
  mkResult (bool_decide (errors = [])) errors warnings.

(** What the orchestrator reads of a result. *)
Definition read (r : ValidationResult) : Dex.ValidationResult :=
  Dex.mkValidation (isValid r) (errors r).

Definition ZeroAddress : string := "0x0000000000000000000000000000000000000000".

Section Validate.
(** [ethers.isAddress], and [validateAmount] (number parsing on floats):
    any functions. *)
Variable isAddress : string -> bool.
Variable validateAmount : string -> Z -> string -> ValidationResult.

(** [validateAddress(address, fieldName)] *)
Definition validateAddress (address : option string) (fieldName : string)
  : ValidationResult :=
  if negb (Js.truthy address) then result [fieldName ++ " 不能为空"] []
  else
    let a := default "" address in
    if negb (isAddress a) then result [fieldName ++ " 格式无效: " ++ a] []
    else if String.eqb a ZeroAddress then result [] [fieldName ++ " 是零地址"]
    else result [] [].

(** [validateTransactionData(txData)]: the errors and warnings are collected
    field by field. *)
Definition validateTransactionData (txData : Dex.TransactionData) : ValidationResult :=
  let toValidation := validateAddress (Dex.to txData) "to" in
  let dataCheck : list string * list string :=
    if negb (Js.truthy (Dex.tx_data txData)) || bool_decide (Dex.tx_data txData = Some "0x")
    then (["交易data不能为空"], [])
    else
      let d := default "" (Dex.tx_data txData) in
      if negb (String.prefix "0x" d) then (["交易data格式无效：必须以0x开头"], [])
      else if (String.length d <? 10)%nat then ([], ["交易data过短，可能无效"])
      else ([], []) in
  let optional (present : bool) (v : ValidationResult) : list string * list string :=
    if present then (errors v, warnings v) else ([], []) in
  let valueCheck :=
    optional (Js.truthy (Some (Dex.value txData)) && negb (String.eqb (Dex.value txData) "0"))
             (validateAmount (Dex.value txData) 18 "value") in
  let gasCheck :=
    optional (Js.truthy (Some (Dex.gas txData))) (validateAmount (Dex.gas txData) 0 "gas") in
  let gasPriceCheck :=
    optional (Js.truthy (Some (Dex.gasPrice txData)))
             (validateAmount (Dex.gasPrice txData) 9 "gasPrice") in
  result (errors toValidation ++ fst dataCheck ++ fst valueCheck ++ fst gasCheck
            ++ fst gasPriceCheck)%list
         (warnings toValidation ++ snd dataCheck ++ snd valueCheck ++ snd gasCheck
            ++ snd gasPriceCheck)%list.

End Validate.

End Validator.

(** ** routes/x402.ts — the ledger and the [/verify] pipeline *)

Module Settlement.

(** Values held by the objects the pipeline stores. The [value] of an
    authorization is a string, which the handler reads with [parseFloat]:
    [JParseFloat v] is the number [parseFloat(v)] and [JMicros v] is the
    number [parseFloat(v) / 1000000] (the amount in USDC). *)
Inductive JsVal :=
| JNum (z : Z)
| JParseFloat (v : string)
| JMicros (v : string)
| JStr (s : string)
| JUndefined
| JSwapResult (r : Dex.SwapExecuteResponse).

Definition js_of_hash (h : option string) : JsVal :=
  match h with Some x => JStr x | None => JUndefined end.

(** The hash written by [initializeTemplateConfig]. *)
Record TemplateConfig := mkConfig {
  template_id : string;
  max_mint_count : Z;
  token_name : string;
  token_symbol : string;
  token_address : string;
  mint_price : string
}.

(** The Redis keyspace, one map per key family of [KEYS]:
    [mint:{templateId}:count], [mint:records:{address}],
    [payment:nonce:{nonce}] and [template:config:{templateId}], indexed by the
    part in braces (for the keys the handler builds the four families do not
    overlap). A command of the store is atomic and is taken to succeed; the
    counter and [max_mint_count] are kept as the numbers [parseInt] reads
    back. A nonce key is written with [SETEX] and lives 86400 seconds:
    [nonce_expires] holds, for each nonce key, the reading of the clock at
    which the store drops it (the store and the process are taken to read
    the same clock, in milliseconds). *)
Record Redis := mkRedis {
  mint_count : gmap string Z;
  mint_records : gmap string (list (gmap string JsVal));
  payment_nonce : gmap string (gmap string JsVal);
  template_config : gmap string TemplateConfig;
  nonce_expires : gmap string Z
}.

(** The amount of the swap the handler asks for:
    [Math.floor((parseFloat(value) / 1000000) * 1000000).toString()], for the
    [value] string of the authorization. The division and the multiplication
    are made on doubles and need not give the value back (for '249' the
    amount is '248'); the amount is kept as this expression of [value]. *)
Inductive SwapAmount :=
| FloorOfMicros (value : string).

(** The [SwapExecuteRequest] the handler passes to [executeSwap]. *)
Record SwapExecuteRequest := mkSwapRequest {
  fromTokenAddress : string;
  toTokenAddress : string;
  amount : SwapAmount;
  walletAddress : string;
  slippagePercent : option string
}.

(** The world a request acts on: the store, the clock, and the calls made so
    far to the settlement provider and to the swap service. *)
Record World := mkWorld {
  redis : Redis;
  clock : Z;
  settle_calls : list string;
  swap_calls : list SwapExecuteRequest
}.

Definition set_redis (w : World) (r : Redis) : World :=
  mkWorld r (clock w) (settle_calls w) (swap_calls w).

(** The parsed body of a request: the authorization and the template. The
    schema asks of [value] that it is a string that is not empty. *)
Record Request := mkRequest {
  nonce : string;
  from : string;
  to : string;
  value : string;
  templateId : option string
}.

Record SettlementResult := mkSettlement {
  sr_success : bool;
  sr_txHash : string
}.

Inductive Response :=
| DUPLICATE_NONCE
| MINT_LIMIT_REACHED (currentCount maxCount : Z)
| SETTLEMENT_FAILED
| MINT_FAILED (details : string) (payment_record_id : string)
| PAYMENT_ERROR (details : string)
| OK (payment_record_id : string) (mint_record : option (JsVal * JsVal * JsVal)).

(** *** Ledger operations *)

Definition getCurrentMintCount (templateId : string) (r : Redis) : Z :=
  default 0 (mint_count r !! templateId).

(** [redisClient.incr]: atomic, returns the value after the increment. *)
Definition incrementMintCount (templateId : string) (r : Redis) : Z * Redis :=
  let n := getCurrentMintCount templateId r + 1 in
  (n, mkRedis (<[templateId := n]> (mint_count r)) (mint_records r)
              (payment_nonce r) (template_config r) (nonce_expires r)).

Definition checkNonceExists (nonce : string) (r : Redis) : bool :=
  bool_decide (is_Some (payment_nonce r !! nonce)).

Definition default_template_config (templateId : string) : TemplateConfig :=
  mkConfig templateId 10 "x402" "X402" "0x74b7f16337b8972027f6196a17a631ac6de26d22" "1".

(** [parseInt(config.max_mint_count || '10')] on the result of [hGetAll] *)
Definition read_max_count (templateId : string) (r : Redis) : Z :=
  match template_config r !! templateId with
  | Some c => max_mint_count c
  | None => 10
  end.

(** The object built by [savePaymentRecord]:
    [{ ...paymentData, created_at, status: 'paid' }] *)
Definition paymentRecord (iso : string) (paymentData : gmap string JsVal) : gmap string JsVal :=
  <["status" := JStr "paid"]> (<["created_at" := JStr iso]> paymentData).

(** The object built by [saveMintRecord]:
    [{ id: Date.now(), ...mintData, created_at, status: 'success' }] — a later
    property replaces an earlier one of the same name. *)
Definition mintRecord (now : Z) (iso : string) (mintData : gmap string JsVal)
  : gmap string JsVal :=
  <["status" := JStr "success"]>
    (<["created_at" := JStr iso]> (mintData ∪ {["id" := JNum now]})).

Definition lPush (address : string) (rec : gmap string JsVal) (r : Redis) : Redis :=
  mkRedis (mint_count r)
          (<[address := rec :: default [] (mint_records r !! address)]> (mint_records r))
          (payment_nonce r) (template_config r) (nonce_expires r).

(** What the store still holds at the clock reading [now]: a nonce key whose
    time has come is gone, with its record (a key without an expiry
    stays). *)
Definition expire (now : Z) (r : Redis) : Redis :=
  mkRedis (mint_count r) (mint_records r)
          (filter (fun kv => from_option (Z.ltb now) true (nonce_expires r !! kv.1) = true)
                  (payment_nonce r))
          (template_config r)
          (filter (fun kv => now < kv.2) (nonce_expires r)).

(** [lTrim(key, 0, 49)] *)
Definition lTrim (address : string) (r : Redis) : Redis :=
  match mint_records r !! address with
  | Some l => mkRedis (mint_count r) (<[address := take 50 l]> (mint_records r))
                      (payment_nonce r) (template_config r) (nonce_expires r)
  | None => r
  end.

(** *** The handler of [POST /verify], one step per [await] *)

(** Where a request stands: the [await] it is suspended on, with the locals
    that are live across it. *)
Inductive Pc :=
| AtCheckNonce
| AtConfigExists
| AtConfigHSet
| AtConfigHGetAll
| AtGetCount (maxCount : Z)
| AtSettle
| AtSavePayment
| AtIncr
| AtSwap (swapRequest : SwapExecuteRequest)
| AtLPush (mintRecord : gmap string JsVal) (swapError : option JsError)
| AtLTrim (mintRecord : gmap string JsVal) (swapError : option JsError)
| Done (response : Response).

Section Handler.
(** The collaborators: the settlement provider, the swap service
    ([createXLayerUsdcWokbSwapService] followed by [executeSwap]), the
    environment variable [X402_PAY_TO] and [Date.prototype.toISOString]. *)
Variable okx_settle : Request -> JsError + list SettlementResult.
Variable dex_swap : SwapExecuteRequest -> JsError + Dex.SwapExecuteResponse.
Variable X402_PAY_TO : option string.
Variable toISOString : Z -> string.

Definition is_token_mint (r : Request) : bool :=
  bool_decide (templateId r = Some "token-mint").

Definition mint_success_data (now : Z) (r : Request) (swapResult : Dex.SwapExecuteResponse)
  : gmap string JsVal :=
  list_to_map
    [("payment_id", JNum now); ("template_id", JStr "token-mint");
     ("user_address", JStr (from r)); ("mint_count", JNum 1);
     ("tx_hash", js_of_hash (Dex.transactionHash swapResult));
     ("received_amount", JMicros (value r)); ("swap_result", JSwapResult swapResult)].

Definition mint_failure_data (now : Z) (r : Request) (swapError : JsError)
  : gmap string JsVal :=
  list_to_map
    [("payment_id", JNum now); ("template_id", JStr "token-mint");
     ("user_address", JStr (from r)); ("mint_count", JNum 1);
     ("status", JStr "failed"); ("error_message", JStr (message_of swapError));
     ("received_amount", JMicros (value r))].

Definition field (o : gmap string JsVal) (k : string) : JsVal := default JUndefined (o !! k).

(** One step of a request: the awaited operation completes and the handler
    runs up to its next [await] or to its response. *)
Definition step (w : World) (r : Request) (pc : Pc) : World * Pc :=
  match pc with
  | AtCheckNonce =>
      (* 1. const nonceExists = await checkNonceExists(nonce) *)
      if checkNonceExists (nonce r) (redis w) then (w, Done DUPLICATE_NONCE)
      else if is_token_mint r then (w, AtConfigExists)
      else (w, AtSettle)
  | AtConfigExists =>
      (* checkMintLimit: const exists = await redisClient.exists(configKey) *)
      match template_config (redis w) !! "token-mint" with
      | Some _ => (w, AtConfigHGetAll)
      | None => (w, AtConfigHSet)
      end
  | AtConfigHSet =>
      (* await redisClient.hSet(configKey, config) *)
      let rd := redis w in
      (set_redis w (mkRedis (mint_count rd) (mint_records rd) (payment_nonce rd)
                            (<["token-mint" := default_template_config "token-mint"]>
                               (template_config rd))
                            (nonce_expires rd)),
       AtConfigHGetAll)
  | AtConfigHGetAll =>
      (* const config = await redisClient.hGetAll(configKey) *)
      (w, AtGetCount (read_max_count "token-mint" (redis w)))
  | AtGetCount maxCount =>
      (* const currentCount = await getCurrentMintCount(templateId) *)
      let currentCount := getCurrentMintCount "token-mint" (redis w) in
      let canMint := currentCount <? maxCount in
      let isCompleted := maxCount <=? currentCount in
      if negb canMint || isCompleted
      then (w, Done (MINT_LIMIT_REACHED currentCount maxCount))
      else (w, AtSettle)
  | AtSettle =>
      (* 3. const settleResult = await okxClient.settle(parsed) *)
      let w' := mkWorld (redis w) (clock w) (settle_calls w ++ [nonce r])%list (swap_calls w) in
      match okx_settle r with
      | inl e => (w', Done (PAYMENT_ERROR (message_of e)))
      | inr settleResult =>
          if existsb sr_success settleResult then (w', AtSavePayment)
          else (w', Done SETTLEMENT_FAILED)
      end
  | AtSavePayment =>
      (* 4. await redisClient.setEx(nonceKey, 86400, JSON.stringify(recordData)) *)
      let rd := redis w in
      let recordData :=
        paymentRecord (toISOString (clock w))
          (list_to_map [("nonce", JStr (nonce r)); ("from_address", JStr (from r));
                        ("to_address", JStr (to r)); ("value", JParseFloat (value r));
                        ("template_id", js_of_hash (templateId r))]) in
      let w' := set_redis w (mkRedis (mint_count rd) (mint_records rd)
                                     (<[nonce r := recordData]> (payment_nonce rd))
                                     (template_config rd)
                                     (<[nonce r := clock w + 86400000]> (nonce_expires rd))) in
      if is_token_mint r then (w', AtIncr)
      else (w', Done (OK (nonce r) None))
  | AtIncr =>
      (* 5. const newCount = await incrementMintCount(templateId) *)
      let '(newCount, rd) := incrementMintCount "token-mint" (redis w) in
      let w' := set_redis w rd in
      if Js.truthy X402_PAY_TO then
        (w', AtSwap (mkSwapRequest "0x74b7f16337b8972027f6196a17a631ac6de26d22"
                                   "0xe538905cf8410324e03a5a23c1c177a474d59b2b"
                                   (* Math.floor(receivedAmount * 1000000).toString() *)
                                   (FloorOfMicros (value r))
                                   (default "" X402_PAY_TO) (Some "10.0")))
      else (w', Done (MINT_FAILED "未配置接收钱包地址" (nonce r)))
  | AtSwap swapRequest =>
      (* 6. const swapResult = await dexService.executeSwap(swapRequest) *)
      let w' := mkWorld (redis w) (clock w) (settle_calls w) (swap_calls w ++ [swapRequest])%list in
      match dex_swap swapRequest with
      | inr swapResult =>
          (w', AtLPush (mintRecord (clock w) (toISOString (clock w))
                                   (mint_success_data (clock w) r swapResult)) None)
      | inl swapError =>
          (w', AtLPush (mintRecord (clock w) (toISOString (clock w))
                                   (mint_failure_data (clock w) r swapError))
                       (Some swapError))
      end
  | AtLPush rec swapError =>
      (* saveMintRecord: await redisClient.lPush(recordsKey, JSON.stringify(mintRecord)) *)
      (set_redis w (lPush (from r) rec (redis w)), AtLTrim rec swapError)
  | AtLTrim rec swapError =>
      (* saveMintRecord: await redisClient.lTrim(recordsKey, 0, 49) *)
      let w' := set_redis w (lTrim (from r) (redis w)) in
      match swapError with
      | Some e => (w', Done (MINT_FAILED (message_of e) (nonce r)))
      | None =>
          (w', Done (OK (nonce r)
                        (Some (field rec "id", field rec "mint_count", field rec "tx_hash"))))
      end
  | Done response => (w, Done response)
  end.

(** A request run alone, from its first [await] to its response: no handler
    takes more than eleven steps. *)
Fixpoint steps (n : nat) (w : World) (r : Request) (pc : Pc) : World * Pc :=
  match n with
  | O => (w, pc)
  | S n' => let '(w', pc') := step w r pc in steps n' w' r pc'
  end.

Definition verify (w : World) (r : Request) : World * Pc := steps 11 w r AtCheckNonce.

(** Vocabulary for the statements: what is known about the counter at each
    program point of a request that runs alone. *)
Definition within_cap (w : World) : Prop :=
  getCurrentMintCount "token-mint" (redis w) <= read_max_count "token-mint" (redis w).

Definition alone_at (r : Request) (w : World) (pc : Pc) : Prop :=
  within_cap w
  /\ match pc with
     | AtConfigHSet => template_config (redis w) !! "token-mint" = None
     | AtGetCount maxCount => maxCount = read_max_count "token-mint" (redis w)
     | AtSettle | AtSavePayment =>
         is_token_mint r = true ->
         getCurrentMintCount "token-mint" (redis w) < read_max_count "token-mint" (redis w)
     | AtIncr =>
         getCurrentMintCount "token-mint" (redis w) < read_max_count "token-mint" (redis w)
     | _ => True
     end.

(** *** Concurrent requests *)

(** The requests in flight, each with its program point. An event of a
    schedule resumes one of them, or lets [dt] milliseconds pass: the clock
    moves on and the store drops the nonce keys that have expired. *)
Inductive Event :=
| Resume (i : nat)
| Tick (dt : Z).

Definition System : Type := World * list (Request * Pc).

Definition sched_step (sys : System) (ev : Event) : System :=
  match ev with
  | Tick dt =>
      let w := fst sys in
      (mkWorld (expire (clock w + dt) (redis w)) (clock w + dt)
               (settle_calls w) (swap_calls w),
       snd sys)
  | Resume i =>
      match snd sys !! i with
      | Some (r, pc) =>
          let '(w', pc') := step (fst sys) r pc in
          (w', <[i := (r, pc')]> (snd sys))
      | None => sys
      end
  end.

Definition run_schedule (sys : System) (evs : list Event) : System :=
  fold_left sched_step evs sys.

Definition arrive (w : World) (rs : list Request) : System :=
  (w, map (fun r => (r, AtCheckNonce)) rs).

Definition responses (sys : System) : list (option Response) :=
  map (fun p => match snd p with Done resp => Some resp | _ => None end) (snd sys).

(** [k] rounds in which each of the [n] requests is resumed once, in turn. *)
Definition round_robin (n k : nat) : list Event :=
  concat (repeat (map Resume (seq 0 n)) k).

(** Vocabulary for the statements: the time that passes in a schedule, and a
    schedule in which the clock never runs backwards. *)
Definition elapsed (evs : list Event) : Z :=
  fold_right (fun ev t => match ev with Tick dt => dt + t | Resume _ => t end) 0 evs.

Definition forward (evs : list Event) : Prop :=
  Forall (fun ev => match ev with Tick dt => 0 <= dt | Resume _ => True end) evs.

End Handler.

Definition empty_redis : Redis := mkRedis ∅ ∅ ∅ ∅ ∅.
Definition empty_world : World := mkWorld empty_redis 0 [] [].

(** *** Scenarios

    A provider that settles every payment, a swap service that completes, one
    whose construction throws, one whose [executeSwap] reports a failure, and
    the requests sent to the [token-mint] template. The requests carry the
    value '1000000', for which the amount of the swap is '1000000' (one
    million divided by itself and multiplied back is exact). *)
Definition always_settles (_ : Request) : JsError + list SettlementResult :=
  inr [mkSettlement true "0xsettled"].

Definition swap_completes (_ : SwapExecuteRequest) : JsError + Dex.SwapExecuteResponse :=
  inr (Dex.mkResponse true (Some "0xswapped") (Some "https://www.oklink.com/xlayer/tx/0xswapped")
                      "1000000" "0.02" (Some "0.020000") (Some "21000") None None None).

Definition swap_throws (_ : SwapExecuteRequest) : JsError + Dex.SwapExecuteResponse :=
  inl (EPlain "Failed to create X Layer USDC->WOKB swap service configuration").

Definition swap_reports_failure (_ : SwapExecuteRequest)
  : JsError + Dex.SwapExecuteResponse :=
  inr (Dex.mkResponse false None None "1000000" "0" None None None
                      (Some "网络连接错误，请检查网络连接") (Some NETWORK_ERROR)).

Definition iso_stub (t : Z) : string := "1970-01-01T00:00:00.000Z".

Definition mint_request (nonce : string) : Request :=
  mkRequest nonce "0xpayer" "0xreceiver" "1000000" (Some "token-mint").

Definition numbered_request (i : nat) : Request :=
  mint_request ("nonce-" ++ NilZero.string_of_uint (Nat.to_uint i)).

Definition is_ok (o : option Response) : bool :=
  match o with Some (OK _ _) => true | _ => false end.

Definition is_duplicate (o : option Response) : bool :=
  match o with Some DUPLICATE_NONCE => true | _ => false end.

(** A world in which [n] has just been given a payment record, and one in
    which the counter of the [token-mint] template stands at [c]. *)
Definition with_recorded_nonce (n : string) (w : World) : World :=
  let rd := redis w in
  set_redis w (mkRedis (mint_count rd) (mint_records rd)
                       (<[n := paymentRecord (iso_stub 0) {["nonce" := JStr n]}]>
                          (payment_nonce rd))
                       (template_config rd)
                       (<[n := clock w + 86400000]> (nonce_expires rd))).

Definition with_mint_count (c : Z) (w : World) : World :=
  let rd := redis w in
  set_redis w (mkRedis (<["token-mint" := c]> (mint_count rd)) (mint_records rd)
                       (payment_nonce rd) (template_config rd) (nonce_expires rd)).

(** Vocabulary for the statements: two worlds that differ at most in the
    template configurations. *)
Definition same_ledger (w w' : World) : Prop :=
  mint_count (redis w') = mint_count (redis w)
  /\ mint_records (redis w') = mint_records (redis w)
  /\ payment_nonce (redis w') = payment_nonce (redis w)
  /\ nonce_expires (redis w') = nonce_expires (redis w)
  /\ clock w' = clock w
  /\ settle_calls w' = settle_calls w
  /\ swap_calls w' = swap_calls w.

(** Requests handled one after the other, each run to its response. *)
Definition verify_all okx_settle dex_swap X402_PAY_TO toISOString
           (w : World) (rs : list Request) : World * list Pc :=
  fold_left (fun acc r =>
               let '(w', pc) := verify okx_settle dex_swap X402_PAY_TO toISOString (fst acc) r in
               (w', (snd acc ++ [pc])%list))
            rs (w, []).

End Settlement.

(** ** routes/x402.ts — [checkMintLimit] and the read-only routes *)

Module MintLimit.
Import Settlement.

Record LimitCheck := mkLimit {
  canMint : bool;
  remaining : Z;
  isCompleted : bool;
  currentCount : Z;
  maxCount : Z
}.

(** The object [checkMintLimit] builds from the two values it has read. *)
Definition limitCheck (currentCount maxCount : Z) : LimitCheck :=
  mkLimit (currentCount <? maxCount) (Z.max 0 (maxCount - currentCount))
          (maxCount <=? currentCount) currentCount maxCount.

(** [initializeTemplateConfig] *)
Definition initializeTemplateConfig (templateId : string) (r : Redis) : Redis :=
  match template_config r !! templateId with
  | Some _ => r
  | None => mkRedis (mint_count r) (mint_records r) (payment_nonce r)
                    (<[templateId := default_template_config templateId]> (template_config r))
                    (nonce_expires r)
  end.

(** [checkMintLimit], its four awaits run without another request in
    between. *)
Definition checkMintLimit (templateId : string) (r : Redis) : LimitCheck * Redis :=
  let r1 := initializeTemplateConfig templateId r in
  (limitCheck (getCurrentMintCount templateId r1) (read_max_count templateId r1), r1).

(** The [reason] given by [GET /token-mint/check/:templateId/:address]. *)
Definition check_reason (l : LimitCheck) : string :=
  if canMint l then "可以铸造"
  else if isCompleted l then "铸造已完成"
  else "已达到铸造限制".

End MintLimit.

(** ** lib/dex/retry.ts — DexRetryManager, and instrumentation of the engine *)

Module DexRetry.

Record DexRetryManager := mkDexRetry {
  networkRetry : Retry.SmartRetryManager;
  apiRetry : Retry.SmartRetryManager;
  transactionRetry : Retry.SmartRetryManager;
  circuitBreaker : Breaker.CircuitBreaker
}.

(** The private constructor behind [DexRetryManager.getInstance()]. *)
Definition getInstance : DexRetryManager :=
  mkDexRetry
    (Retry.new_manager (Retry.mkRetryConfig 3 1000 [NETWORK_ERROR]) Retry.EXPONENTIAL_BACKOFF)
    (Retry.new_manager (Retry.mkRetryConfig 5 500 [API_ERROR]) Retry.JITTERED_BACKOFF)
    (Retry.new_manager (Retry.mkRetryConfig 2 2000 [GAS_ESTIMATION_FAILED]) Retry.FIXED_DELAY)
    (Breaker.new 5 60000 2).

(** [getRetryManagerForError] *)
Definition getRetryManagerForError (m : DexRetryManager) (error : JsError)
  : Retry.SmartRetryManager :=
  match error with
  | EDex d =>
      match code d with
      | NETWORK_ERROR => networkRetry m
      | API_ERROR => apiRetry m
      | GAS_ESTIMATION_FAILED => transactionRetry m
      | _ => apiRetry m
      end
  | EPlain _ => networkRetry m
  end.

Section SmartRetry.
Context {W T : Type}.
Variable operation : W -> (JsError + T) * W.
Variable sleep : Z -> W -> W.
Variable calculateDelay : Retry.RetryStrategy -> Z -> Retry.RetryConfig -> Z.

(** [smartRetry]: one probing call; on an error the manager chosen for that
    error runs the operation again under its own budget. The result comes
    with the chosen manager as the call leaves it. *)
Definition smartRetry (m : DexRetryManager) (operationId : option string) (w : W)
  : Retry.RetryResult T * option Retry.SmartRetryManager * W :=
  match operation w with
  | (inr r, w') => (Retry.mkResult true (Some r) None 1, None, w')
  | (inl e, w') =>
      let '(res, mgr, w'') :=
        Retry.executeWithRetry operation sleep calculateDelay
                               (getRetryManagerForError m e) operationId None w' in
      (res, Some mgr, w'')
  end.

(** Instrumentation: the same operation on a world that also counts how many
    times it has been invoked; sleeping leaves the count alone. *)
Definition counted (w : W * nat) : (JsError + T) * (W * nat) :=
  let '(r, w') := operation (fst w) in (r, (w', S (snd w))).

Definition counted_sleep (d : Z) (w : W * nat) : W * nat := (sleep d (fst w), snd w).

End SmartRetry.

(** Vocabulary for the statements: what every breaker built by [new] and
    driven by [execute] satisfies. *)
Definition coherent (b : Breaker.CircuitBreaker) : Prop :=
  Breaker.state b = Breaker.OPEN ->
  Breaker.failureThreshold b <= Breaker.failureCount b /\ Breaker.successCount b = 0.

End DexRetry.

(** ** lib/okxClient.ts — the signed request with its rate-limit retries *)

Module OkxClient.

(** What the [catch] of [request] reads of an error: the HTTP status and the
    API code of the response, when the error has a response at all (a
    timeout or a refused connection has none). *)
Record HttpError := mkHttpError {
  status : option Z;
  apiCode : option string;
  http_message : string
}.

(** One round trip ([buildHeaders] and [client.request]): a response body
    [{code, msg, data}], or an error. *)
Inductive Outcome (T : Type) :=
| Responded (code : string) (msg : option string) (data : T)
| Failed (e : HttpError).
Arguments Responded {T}.
Arguments Failed {T}.

(** What [request] throws: the error it caught, or one of the three [Error]
    objects it creates itself. *)
Inductive ClientError :=
| Caught (e : HttpError)
| ApiError (msg : option string)
| RateLimited
| Exhausted.

Definition message (e : ClientError) : string :=
  match e with
  | Caught e => http_message e
  | ApiError msg => if Js.truthy msg then default "" msg else "OKX API error"
  | RateLimited => "OKX 请求超过限速，请稍后重试或降低调用频率。"
  | Exhausted => "OKX 请求失败"
  end.

Definition isRateLimit (e : HttpError) : bool :=
  bool_decide (status e = Some 429) || bool_decide (apiCode e = Some "50011").

Section Request.
Context {W T : Type}.
Variable http : W -> Outcome T * W.
Variable sleep : Z -> W -> W.

(** The body of [for (let attempt = 0; attempt <= maxRetries; attempt++)]
    with [n] iterations left. The [Error] thrown on a body whose code is not
    '0' is caught by the same [catch]; it has no [response], so it is thrown
    again. *)
Fixpoint request_loop (n : nat) (attempt : Z) (w : W) : (ClientError + T) * W :=
  match n with
  | O => (inl Exhausted, w)
  | S n' =>
      match http w with
      | (Responded code msg data, w') =>
          if String.eqb code "0" then (inr data, w') else (inl (ApiError msg), w')
      | (Failed e, w') =>
          if isRateLimit e && (attempt <? 3) then
            request_loop n' (attempt + 1) (sleep (500 * 2 ^ attempt) w')
          else if isRateLimit e then (inl RateLimited, w')
          else (inl (Caught e), w')
      end
  end.

(** [request]: [maxRetries = 3], attempts 0 to 3. *)
Definition request (w : W) : (ClientError + T) * W := request_loop 4 0 w.

(** Instrumentation: the same collaborators on a world that also counts the
    round trips and logs the delays slept. *)
Definition counted_http (s : W * nat * list Z) : Outcome T * (W * nat * list Z) :=
  let '(o, w') := http (fst (fst s)) in (o, (w', S (snd (fst s)), snd s)).

Definition logged_sleep (ms : Z) (s : W * nat * list Z) : W * nat * list Z :=
  (sleep ms (fst (fst s)), snd (fst s), (snd s ++ [ms])%list).

(** Vocabulary for the statements: a round trip that ends in a rate-limit
    error, the world in which the round trip number [k + 1] starts when the
    [k] round trips before it were answered and slept on (the first of them
    being attempt [a]), and what [request] makes of the outcome of the round
    trip it ends on. *)
Definition rate_limited (o : Outcome T) : bool :=
  match o with
  | Responded _ _ _ => false
  | Failed e => isRateLimit e
  end.

Fixpoint world_before (a : Z) (k : nat) (w : W) : W :=
  match k with
  | O => w
  | S k' => world_before (a + 1) k' (sleep (500 * 2 ^ a) (snd (http w)))
  end.

Definition result_of (o : Outcome T) : ClientError + T :=
  match o with
  | Responded code msg data => if String.eqb code "0" then inr data else inl (ApiError msg)
  | Failed e => if isRateLimit e then inl RateLimited else inl (Caught e)
  end.

End Request.

(** A scripted server to exercise the client: the world is the list of the
    outcomes still to come; when it is used up, the connection times out. *)
Definition scripted_http {T} (w : list (Outcome T)) : Outcome T * list (Outcome T) :=
  match w with
  | o :: w' => (o, w')
  | [] => (Failed (mkHttpError None None "timeout of 10000ms exceeded"), [])
  end.

Definition no_sleep {T} (_ : Z) (w : list (Outcome T)) : list (Outcome T) := w.

(** The back-off delays of [k] retries, the first after attempt [a]. *)
Fixpoint backoffs (k : nat) (a : Z) : list Z :=
  match k with
  | O => []
  | S k' => 500 * 2 ^ a :: backoffs k' (a + 1)
  end.

End OkxClient.

(* ================================================================== *)
(** * Part II — properties                                              *)
(* ================================================================== *)

(** ** Retry engine *)

Section RetryFacts.
Import Retry.
Context {W T : Type}.
Variable operation : W -> (JsError + T) * W.
Variable sleep : Z -> W -> W.
Variable calculateDelay : RetryStrategy -> Z -> RetryConfig -> Z.
Variable st : RetryStrategy.
Variable cfg : RetryConfig.

Local Abbreviation loop := (attempts_loop operation sleep calculateDelay st cfg).
Local Abbreviation wb := (world_before operation sleep calculateDelay st cfg).
Local Abbreviation retryable e := (isRetryableError e (retryableErrors cfg) = true).

(** One retried failure moves the loop to the next attempt in the world
    [after_failure]. *)
Lemma loop_retry_step n a ctx w e :
  fst (operation w) = inl e -> retryable e ->
  exists ctx', lastError ctx' = Some e /\
    loop (S n) a ctx w
    = loop n (a + 1) ctx' (after_failure operation sleep calculateDelay st cfg a w).
Proof.
  intros Hop Hr. cbn [attempts_loop]. unfold after_failure.
  destruct (operation w) as [[e'|r] w'] eqn:E; cbn in Hop; [|discriminate].
  injection Hop as ->. rewrite Hr. cbn [negb snd].
  destruct (a <? maxAttempts cfg); eexists; split; try reflexivity; reflexivity.
Qed.

(** [k] retried failures followed by a success: the loop returns the value
    at attempt [a + k]. *)
Lemma loop_succeeds_after k : forall n a ctx w v,
  (k < n)%nat ->
  (forall j, (j < k)%nat -> exists e, fst (operation (wb a j w)) = inl e /\ retryable e) ->
  fst (operation (wb a k w)) = inr v ->
  exists ctx', loop n a ctx w = (inr v, ctx', snd (operation (wb a k w)))
               /\ attempt ctx' = a + Z.of_nat k.
Proof.
  induction k as [|k IH]; intros n a ctx w v Hlt Hfail Hok.
  - destruct n as [|n]; [lia|]. cbn [world_before] in *. cbn [attempts_loop].
    destruct (operation w) as [[e|r] w'] eqn:E; cbn in Hok; [discriminate|].
    injection Hok as ->. eexists; split; [reflexivity|]. cbn. lia.
  - destruct n as [|n]; [lia|].
    destruct (Hfail 0%nat ltac:(lia)) as (e & He & Hr). cbn [world_before] in He.
    destruct (loop_retry_step n a ctx w e He Hr) as (ctx1 & _ & ->).
    cbn [world_before] in Hok |- *.
    destruct (IH n (a + 1) ctx1 (after_failure operation sleep calculateDelay st cfg a w) v
                 ltac:(lia)) as (ctx' & -> & Ha); auto.
    + intros j Hj. apply (Hfail (S j)). lia.
    + eexists; split; [reflexivity|]. lia.
Qed.

(** Every iteration fails with a retryable error: the loop runs dry and
    throws the error of its last invocation. *)
Lemma loop_exhausted n : forall a ctx w,
  (forall j, (j <= n)%nat -> exists e, fst (operation (wb a j w)) = inl e /\ retryable e) ->
  exists ctx' e,
    loop (S n) a ctx w = (inl (Some e), ctx', wb a (S n) w)
    /\ attempt ctx' = a + Z.of_nat n
    /\ fst (operation (wb a n w)) = inl e.
Proof.
  induction n as [|n IH]; intros a ctx w Hfail.
  - destruct (Hfail 0%nat ltac:(lia)) as (e & He & Hr). cbn [world_before] in *.
    cbn [attempts_loop]. unfold after_failure.
    destruct (operation w) as [[e'|r] w'] eqn:E; cbn in He; [|discriminate].
    injection He as ->. rewrite Hr. cbn [negb snd].
    destruct (a <? maxAttempts cfg); do 2 eexists; (split; [reflexivity|]); cbn; split; auto; lia.
  - destruct (Hfail 0%nat ltac:(lia)) as (e & He & Hr). cbn [world_before] in He.
    destruct (loop_retry_step (S n) a ctx w e He Hr) as (ctx1 & _ & ->).
    destruct (IH (a + 1) ctx1 (after_failure operation sleep calculateDelay st cfg a w))
      as (ctx' & e' & -> & Ha & Hlast).
    + intros j Hj. apply (Hfail (S j)). lia.
    + exists ctx', e'. cbn [world_before]. split; [reflexivity|]. split; [lia|exact Hlast].
Qed.

(** A first failure that is not retryable ends the loop at once. *)
Lemma loop_aborts n a ctx w e :
  fst (operation w) = inl e -> isRetryableError e (retryableErrors cfg) = false ->
  exists ctx', loop (S n) a ctx w = (inl (Some e), ctx', snd (operation w))
               /\ attempt ctx' = a.
Proof.
  intros Hop Hr. cbn [attempts_loop].
  destruct (operation w) as [[e'|r] w'] eqn:E; cbn in Hop; [|discriminate].
  injection Hop as ->. rewrite Hr. cbn. eexists; split; reflexivity.
Qed.

End RetryFacts.

(** C6 — the retry engine, for an attempt budget of at least one.
    (a) An operation whose first [N - 1] invocations throw retryable errors
    and whose invocation [N] returns [v], with [N <= maxAttempts], yields
    [success = true], [result = v] and [attempts = N], after exactly [N]
    invocations. (b) An operation whose first invocation throws an error that
    is not retryable yields [success = false] with [attempts = 1] and that
    error, and the operation has been invoked exactly once. (c) When every
    one of the [maxAttempts] invocations throws a retryable error, the result
    is a failure with [attempts = maxAttempts] that carries, unchanged, the
    error thrown by the last invocation. *)
Theorem retry_engine_contract {W T : Type}
    (operation : W -> (JsError + T) * W) (sleep : Z -> W -> W)
    (calculateDelay : Retry.RetryStrategy -> Z -> Retry.RetryConfig -> Z)
    (m : Retry.SmartRetryManager) (operationId : option string)
    (customConfig : option Retry.PartialRetryConfig) (w : W) :
  let cfg := Retry.merge (Retry.config m) customConfig in
  let answer := Retry.outcome operation sleep calculateDelay (Retry.strategy m) cfg in
  let before := Retry.world_before operation sleep calculateDelay (Retry.strategy m) cfg 1 in
  let run := Retry.executeWithRetry operation sleep calculateDelay m operationId customConfig w in
  let res := fst (fst run) in
  1 <= Retry.maxAttempts cfg ->
  (forall (N : nat) (v : T),
      (1 <= N)%nat -> Z.of_nat N <= Retry.maxAttempts cfg ->
      (forall j, (j < N - 1)%nat ->
         exists e, answer j w = inl e
                   /\ Retry.isRetryableError e (Retry.retryableErrors cfg) = true) ->
      answer (N - 1)%nat w = inr v ->
      Retry.success res = true /\ Retry.result res = Some v
      /\ Retry.error res = None /\ Retry.attempts res = Z.of_nat N
      /\ snd run = snd (operation (before (N - 1)%nat w)))
  /\ (forall e,
      answer 0%nat w = inl e ->
      Retry.isRetryableError e (Retry.retryableErrors cfg) = false ->
      Retry.success res = false /\ Retry.result res = None
      /\ Retry.error res = Some e /\ Retry.attempts res = 1
      /\ snd run = snd (operation w))
  /\ ((forall j, (j < Z.to_nat (Retry.maxAttempts cfg))%nat ->
         exists e, answer j w = inl e
                   /\ Retry.isRetryableError e (Retry.retryableErrors cfg) = true) ->
      exists e,
        answer (Z.to_nat (Retry.maxAttempts cfg) - 1)%nat w = inl e
        /\ Retry.success res = false /\ Retry.result res = None
        /\ Retry.error res = Some e
        /\ Retry.attempts res = Retry.maxAttempts cfg).
Proof.
  intros cfg answer before run res Hmax.
  assert (Hn : exists n, Z.to_nat (Retry.maxAttempts cfg) = S n
                         /\ Z.of_nat n = Retry.maxAttempts cfg - 1).
  { exists (Z.to_nat (Retry.maxAttempts cfg) - 1)%nat. lia. }
  destruct Hn as (n & Hn & Hnz).
  subst res run. unfold Retry.executeWithRetry, Retry.executeAttempts.
  fold cfg. rewrite Hn.
  split; [|split].
  - intros N v HN HNmax Hfail Hok.
    destruct (loop_succeeds_after operation sleep calculateDelay (Retry.strategy m) cfg
                (N - 1)%nat (S n) 1 (Retry.mkContext 0 None []) w v)
      as (ctx' & Hloop & Ha); [lia|exact Hfail|exact Hok|].
    rewrite Hloop. cbn. split_and!; try reflexivity. lia.
  - intros e Hop Hnr.
    destruct (loop_aborts operation sleep calculateDelay (Retry.strategy m) cfg
                n 1 (Retry.mkContext 0 None []) w e Hop Hnr) as (ctx' & Hloop & Ha).
    rewrite Hloop. cbn. split_and!; try reflexivity. exact Ha.
  - intros Hfail.
    destruct (loop_exhausted operation sleep calculateDelay (Retry.strategy m) cfg
                n 1 (Retry.mkContext 0 None []) w) as (ctx' & e & Hloop & Ha & Hlast).
    { intros j Hj. apply Hfail. lia. }
    replace (S n - 1)%nat with n by lia.
    exists e. rewrite Hloop. cbn [fst snd Retry.success Retry.result Retry.error Retry.attempts].
    split_and!; try reflexivity; [exact Hlast | lia].
Qed.

(** With an attempt budget below one the loop body never runs: the operation
    is not invoked and the result is a failure with [attempts = 0] that
    carries no error. *)
Lemma retry_without_budget {W T : Type}
    (operation : W -> (JsError + T) * W) (sleep : Z -> W -> W)
    (calculateDelay : Retry.RetryStrategy -> Z -> Retry.RetryConfig -> Z)
    (m : Retry.SmartRetryManager) (operationId : option string)
    (customConfig : option Retry.PartialRetryConfig) (w : W) :
  Retry.maxAttempts (Retry.merge (Retry.config m) customConfig) < 1 ->
  let run := Retry.executeWithRetry operation sleep calculateDelay m operationId customConfig w in
  fst (fst run) = Retry.mkResult false None None 0 /\ snd run = w.
Proof.
  intros H. unfold Retry.executeWithRetry, Retry.executeAttempts.
  replace (Z.to_nat _) with 0%nat by lia. cbn. auto.
Qed.

Lemma retry_engine_contract_witness :
  let m := Retry.new_manager Retry.default_config Retry.FIXED_DELAY in
  let run script :=
    Retry.executeWithRetry (Retry.scripted script) Retry.no_sleep Retry.fixed_delay
                           m None None 0%nat in
  (Retry.success (fst (fst (run Retry.third_time_lucky))) = true
   /\ Retry.attempts (fst (fst (run Retry.third_time_lucky))) = 3
   /\ snd (run Retry.third_time_lucky) = 3%nat)
  /\ (Retry.success (fst (fst (run (fun _ => inl Retry.bad_request)))) = false
      /\ Retry.attempts (fst (fst (run (fun _ => inl Retry.bad_request)))) = 1
      /\ snd (run (fun _ => inl Retry.bad_request)) = 1%nat)
  /\ (Retry.error (fst (fst (run (fun _ => inl Retry.network_down)))) = Some Retry.network_down
      /\ Retry.attempts (fst (fst (run (fun _ => inl Retry.network_down)))) = 3).
Proof.
  intros m run.
  assert (Hmax : 1 <= Retry.maxAttempts (Retry.merge (Retry.config m) None))
    by (vm_compute; discriminate).
  split; [|split].
  - destruct (retry_engine_contract (Retry.scripted Retry.third_time_lucky) Retry.no_sleep
                Retry.fixed_delay m None None 0%nat Hmax) as (Ha & _ & _).
    destruct (Ha 3%nat 42) as (H1 & _ & _ & H2 & H3).
    + lia.
    + vm_compute; discriminate.
    + intros j Hj. exists Retry.network_down.
      destruct j as [|[|j]]; [split; reflexivity | split; reflexivity | lia].
    + reflexivity.
    + split; [exact H1|]. split; [exact H2|exact H3].
  - destruct (retry_engine_contract (Retry.scripted (fun _ => inl Retry.bad_request))
                Retry.no_sleep Retry.fixed_delay m None None 0%nat Hmax) as (_ & Hb & _).
    destruct (Hb Retry.bad_request) as (H1 & _ & _ & H2 & H3);
      [reflexivity | reflexivity |].
    split; [exact H1|]. split; [exact H2|exact H3].
  - destruct (retry_engine_contract (Retry.scripted (fun _ => inl Retry.network_down))
                Retry.no_sleep Retry.fixed_delay m None None 0%nat Hmax) as (_ & _ & Hc).
    destruct Hc as (e & He & _ & _ & H1 & H2).
    + intros j Hj. exists Retry.network_down. split; reflexivity.
    + unfold Retry.outcome in He. cbn in He. injection He as <-.
      split; [exact H1|exact H2].
Defined.

(** ** Circuit breaker *)

(** A success while CLOSED resets [failureCount] to 0 and keeps the breaker
    CLOSED. *)
Lemma onSuccess_closed_resets (b : Breaker.CircuitBreaker) :
  Breaker.state b = Breaker.CLOSED ->
  Breaker.failureCount (Breaker.onSuccess b) = 0
  /\ Breaker.state (Breaker.onSuccess b) = Breaker.CLOSED.
Proof. intros H. unfold Breaker.onSuccess. cbn. rewrite H. cbn. auto. Qed.

(** The same through [execute]: a call that returns while the breaker is
    CLOSED leaves it CLOSED with [failureCount = 0]. *)
Lemma execute_success_closed {W T : Type} (Date_now : W -> Z)
      (operation : W -> (JsError + T) * W) (b : Breaker.CircuitBreaker) (w : W) (r : T) :
  Breaker.state b = Breaker.CLOSED ->
  fst (operation w) = inr r ->
  let b' := snd (fst (Breaker.execute Date_now operation b w)) in
  Breaker.failureCount b' = 0 /\ Breaker.state b' = Breaker.CLOSED.
Proof.
  intros Hs Hop. unfold Breaker.execute. rewrite Hs.
  destruct (operation w) as [[e|r'] w']; cbn in Hop; [discriminate|].
  cbn [fst snd]. apply onSuccess_closed_resets, Hs.
Qed.

(** What [onFailure] does in HALF_OPEN: the breaker opens only when the
    running failure count reaches the threshold; below it the state is left
    HALF_OPEN. *)
Lemma onFailure_half_open (now : Z) (b : Breaker.CircuitBreaker) :
  Breaker.state b = Breaker.HALF_OPEN ->
  Breaker.state (Breaker.onFailure now b)
  = if Breaker.failureThreshold b <=? Breaker.failureCount b + 1
    then Breaker.OPEN else Breaker.HALF_OPEN.
Proof.
  intros H. unfold Breaker.onFailure. cbn.
  destruct (Breaker.failureThreshold b <=? Breaker.failureCount b + 1); cbn; auto.
Qed.

(** C5 — the breaker of the repository ([new CircuitBreaker(5, 60000, 2)])
    on the trace: five failed calls (it opens), a call after the recovery time
    that succeeds (it is HALF_OPEN with one success counted and
    [failureCount] back at 0), then a call that fails. The failure happens
    while HALF_OPEN and the breaker stays HALF_OPEN instead of going back to
    OPEN: the next call is let through as well. *)
Theorem breaker_half_open_failure_not_reopened :
  let b5 := Breaker.calls (Breaker.new 5 60000 2)
              [(0, false); (1, false); (2, false); (3, false); (4, false)] in
  let b6 := Breaker.call b5 (60004, true) in
  let b7 := Breaker.call b6 (60005, false) in
  Breaker.state b5 = Breaker.OPEN
  /\ Breaker.state b6 = Breaker.HALF_OPEN
  /\ Breaker.failureCount b6 = 0 /\ Breaker.successCount b6 = 1
  /\ Breaker.state b7 = Breaker.HALF_OPEN
  /\ Breaker.failureCount b7 = 1
  /\ fst (fst (Breaker.execute fst Breaker.scripted b7 (60006, true))) = inr tt.
Proof. vm_compute. repeat split; reflexivity. Qed.

(** ** Quote cache *)

Section JsMapFacts.
Import Cache.
Context {V : Type}.
Implicit Types (m : list (string * V)) (k : string).

Lemma map_get_set_eq k v m : map_get k (map_set k v m) = Some v.
Proof.
  induction m as [|[k' v'] m IH]; cbn.
  - now rewrite String.eqb_refl.
  - destruct (String.eqb k' k) eqn:E; cbn; rewrite E; auto.
Qed.

Lemma map_get_delete_eq k m : map_get k (map_delete k m) = None.
Proof.
  induction m as [|[k' v'] m IH]; cbn; auto.
  destruct (String.eqb k' k) eqn:E; cbn; [|rewrite E]; auto.
Qed.

Lemma map_delete_length k m : (length (map_delete k m) <= length m)%nat.
Proof.
  induction m as [|[k' v'] m IH]; cbn; auto.
  destruct (String.eqb k' k); cbn; lia.
Qed.

Lemma map_delete_length_lt k m :
  map_get k m <> None -> (length (map_delete k m) < length m)%nat.
Proof.
  induction m as [|[k' v'] m IH]; cbn; [congruence|].
  destruct (String.eqb k' k); cbn; intros H.
  - pose proof (map_delete_length k m). lia.
  - apply IH in H. lia.
Qed.
End JsMapFacts.

(** C7 — round trip of the cache. After [set(k, v, ttl)] at clock reading
    [now], a [get(k)] at a reading [now'] at which the ttl has not elapsed
    ([now' - now <= ttl], in particular at [now' = now] for a ttl that is not
    negative) returns [v]; a [get(k)] once the ttl has elapsed
    ([now' - now > ttl]) is a miss, whatever the eviction strategy, and that
    access removes the entry from the map and counts a miss. *)
Theorem cache_set_get_round_trip {T : Type} (c : Cache.SmartCacheManager T)
    (k : string) (v : T) (ttl : option Z) (now now' : Z) :
  let t := default (Cache.quoteTtl c) ttl in
  let c1 := Cache.set k v ttl now c in
  (now' - now <= t -> fst (Cache.get k now' c1) = Some v)
  /\ (t < now' - now ->
      fst (Cache.get k now' c1) = None
      /\ Cache.map_get k (Cache.cache (snd (Cache.get k now' c1))) = None
      /\ (length (Cache.cache (snd (Cache.get k now' c1))) < length (Cache.cache c1))%nat
      /\ Cache.misses (Cache.stats (snd (Cache.get k now' c1)))
         = Cache.misses (Cache.stats c1) + 1).
Proof.
  intros t c1.
  assert (Hget : Cache.map_get k (Cache.cache c1)
                 = Some (Cache.mkEntry k v now t 1 now now)).
  { subst c1. unfold Cache.set. cbn. apply map_get_set_eq. }
  split; intros Ht; unfold Cache.get; rewrite Hget; cbn [Cache.ttl Cache.timestamp].
  - destruct (t <? now' - now) eqn:E; [lia|]. reflexivity.
  - destruct (t <? now' - now) eqn:E; [|lia].
    cbn [fst snd Cache.cache Cache.count_miss Cache.with_stats Cache.with_cache
         Cache.stats Cache.misses].
    split_and!; auto.
    + apply map_get_delete_eq.
    + apply map_delete_length_lt. rewrite Hget. discriminate.
Qed.

Lemma cache_set_get_round_trip_witness :
  let c1 := Cache.set "k" 7 (Some 1000) 5 (Cache.new 30000 100 Cache.LRU) in
  fst (Cache.get "k" 5 c1) = Some 7 /\ fst (Cache.get "k" 1006 c1) = None.
Proof.
  intros c1.
  pose proof (cache_set_get_round_trip (Cache.new 30000 100 Cache.LRU) "k" 7 (Some 1000) 5 5)
    as [Hhit _].
  pose proof (cache_set_get_round_trip (Cache.new 30000 100 Cache.LRU) "k" 7 (Some 1000) 5 1006)
    as [_ Hmiss].
  split.
  - apply Hhit. cbn. lia.
  - apply Hmiss. cbn. lia.
Defined.

(** ** Swap orchestrator *)

Section DexFacts.
Import Dex.
Context {W : Type}.
Variable Date_now : W -> Z.
Variable isoNow : W -> string.

Local Abbreviation throws_errors := (Dex.throws_errors (W := W)).
Local Abbreviation returns_with := (Dex.returns_with (W := W)).

Lemma te_ret {A} (a : A) : throws_errors (ret (W := W) a).
Proof. intros s s'. unfold ret. congruence. Qed.

Lemma te_throw {A} e : throws_errors (throw (A := A) e).
Proof. intros s s'. unfold throw. congruence. Qed.

Lemma te_modify f : throws_errors (modify f).
Proof. intros s s'. unfold modify. congruence. Qed.

Lemma te_service : throws_errors service.
Proof. intros s s'. unfold service. congruence. Qed.

Lemma te_clock : throws_errors (clock Date_now).
Proof. intros s s'. unfold clock. congruence. Qed.

Lemma te_await {A} (f : W -> (JsError + A) * W) : throws_errors (await f).
Proof. intros s s'. unfold await. destruct (f (snd s)) as [[e|a] w']; congruence. Qed.

Lemma te_bind {A B} (m : M A) (k : A -> M B) :
  throws_errors m -> (forall a, throws_errors (k a)) -> throws_errors (bind m k).
Proof.
  intros Hm Hk s s'. unfold bind. destruct (m s) as [[e|a] s1] eqn:E.
  - intros H. injection H as -> ->. exact (Hm _ _ E).
  - apply Hk.
Qed.

Lemma te_when b m : throws_errors m -> throws_errors (when b m).
Proof. destruct b; cbn; auto using te_ret. Qed.

Lemma te_try_catch {A} (body : M A) handler :
  (forall e, throws_errors (handler e)) -> throws_errors (try_catch body handler).
Proof.
  intros Hh s s'. unfold try_catch. destruct (body s) as [[e|a] s1]; [apply Hh|congruence].
Qed.

Lemma te_if {A} (b : bool) (m1 m2 : M A) :
  throws_errors m1 -> throws_errors m2 -> throws_errors (if b then m1 else m2).
Proof. destruct b; auto. Qed.

Lemma te_emit t h : throws_errors (emit t h).
Proof. apply te_modify. Qed.

Lemma te_emit_if_enabled t h : throws_errors (emit_if_enabled t h).
Proof. apply te_bind; [apply te_service|]. intros s. apply te_when, te_emit. Qed.

Lemma te_trackError e : throws_errors (trackError e).
Proof. apply te_modify. Qed.

Lemma te_toDexError t : throws_errors (toDexError isoNow t).
Proof. destruct t; cbn; [|apply te_throw]. intros s s'. congruence. Qed.

Lemma te_updateProgress cb p msg : throws_errors (updateProgress cb p msg).
Proof. destruct cb; cbn; [apply te_await|apply te_ret]. Qed.

Lemma te_count_swap f : throws_errors (count_swap f).
Proof. apply te_bind; [apply te_service|]. intros s. apply te_when, te_modify. Qed.

Lemma rw_ret {A} (P : A -> Prop) a : P a -> returns_with P (ret a).
Proof. intros H s a' s'. unfold ret. intros E. injection E as <- _. exact H. Qed.

Lemma rw_throw {A} (P : A -> Prop) e : returns_with P (throw e).
Proof. intros s a s'. unfold throw. congruence. Qed.

Lemma rw_bind {A B} (Q : A -> Prop) (P : B -> Prop) (m : M A) (k : A -> M B) :
  returns_with Q m -> (forall a, Q a -> returns_with P (k a)) ->
  returns_with P (bind m k).
Proof.
  intros Hm Hk s b s'. unfold bind. destruct (m s) as [[e|a] s1] eqn:E; [congruence|].
  intros H. eapply Hk; eauto.
Qed.

Lemma rw_true {A} (m : M A) : returns_with (fun _ => True) m.
Proof. intros s a s' _. exact I. Qed.

Lemma rw_seq {A B} (P : B -> Prop) (m : M A) (k : A -> M B) :
  (forall a, returns_with P (k a)) -> returns_with P (bind m k).
Proof. intros Hk. apply (rw_bind (fun _ => True)); auto using rw_true. Qed.

Lemma rw_await {A} (f : W -> (JsError + A) * W) :
  returns_with (fun a => exists w, fst (f w) = inr a) (await f).
Proof.
  intros s a s'. unfold await. destruct (f (snd s)) as [[e|a'] w'] eqn:E; [congruence|].
  intros H. injection H as <- _. exists (snd s). now rewrite E.
Qed.

Variable validateQuoteRequest : SwapRequest -> ValidationResult.
Variable validateCompleteSwapRequest : SwapRequest -> W -> (JsError + ValidationResult) * W.
Variable fetchQuoteFromAPI : SwapRequest -> W -> (JsError + SwapQuoteResponse) * W.
Variable validateAllowance : SwapRequest -> W -> (JsError + ValidationResult) * W.
Variable approve : SwapRequest -> W -> (JsError + unit) * W.
Variable getSwapTx : SwapRequest -> W -> (JsError + TransactionData) * W.
Variable validateTransactionData : TransactionData -> ValidationResult.
Variable sendTransaction : TransactionData -> W -> (JsError + string) * W.
Variable waitForTransaction : string -> W -> (JsError + option Receipt) * W.
Variable parseBigInt : string -> option Z.
Variable sleep : Z -> W -> W.
Variable calculateDelay : Retry.RetryStrategy -> Z -> Retry.RetryConfig -> Z.

Local Abbreviation getQuote' :=
  (getQuote Date_now isoNow validateQuoteRequest fetchQuoteFromAPI sleep calculateDelay).
Local Abbreviation try' :=
  (executeSwap_try Date_now isoNow validateQuoteRequest validateCompleteSwapRequest
     fetchQuoteFromAPI validateAllowance approve getSwapTx validateTransactionData
     sendTransaction waitForTransaction parseBigInt sleep calculateDelay).
Local Abbreviation executeSwap' :=
  (executeSwap Date_now isoNow validateQuoteRequest validateCompleteSwapRequest
     fetchQuoteFromAPI validateAllowance approve getSwapTx validateTransactionData
     sendTransaction waitForTransaction parseBigInt sleep calculateDelay).

Local Ltac te_step :=
  first
    [ apply te_ret | apply te_throw | apply te_modify | apply te_service
    | apply te_clock | apply te_await | apply te_emit_if_enabled | apply te_emit
    | apply te_trackError | apply te_toDexError | apply te_updateProgress
    | apply te_count_swap | apply te_when | apply te_if
    | apply te_bind; [|intros ?] ].

(** Whatever goes wrong inside [getQuote], what leaves it is a
    [DexSwapError] (or the [TypeError] of its own handler). *)
Lemma te_getQuote request : throws_errors (getQuote' request).
Proof.
  unfold getQuote. apply te_try_catch. intros e. repeat te_step.
Qed.

Lemma te_handleTokenApproval request cb :
  throws_errors (handleTokenApproval validateAllowance approve request cb).
Proof.
  unfold handleTokenApproval.
  destruct (String.eqb _ _); [apply te_ret|].
  apply te_bind; [apply te_await|]. intros v.
  destruct (isValid v); [apply te_ret|]. repeat te_step.
Qed.

Lemma te_prepareTransactionData request :
  throws_errors (prepareTransactionData getSwapTx validateTransactionData request).
Proof. unfold prepareTransactionData. repeat te_step. Qed.

Lemma te_simulateTransaction tx : throws_errors (simulateTransaction tx).
Proof. unfold simulateTransaction. repeat te_step. Qed.

Lemma te_executeTransaction tx : throws_errors (executeTransaction sendTransaction tx).
Proof. unfold executeTransaction. repeat te_step. Qed.

Lemma te_waitForTransactionConfirmation h :
  throws_errors (waitForTransactionConfirmation waitForTransaction h).
Proof.
  unfold waitForTransactionConfirmation. apply te_bind; [apply te_await|].
  intros [r|]; [|apply te_throw]. repeat te_step.
Qed.

Lemma te_bigInt x : throws_errors (bigInt parseBigInt x).
Proof. unfold bigInt. destruct (parseBigInt x); [apply te_ret|apply te_throw]. Qed.

Lemma te_updateVolumeMetrics x : throws_errors (updateVolumeMetrics parseBigInt x).
Proof. unfold updateVolumeMetrics. apply te_bind; [apply te_bigInt|]. intros. apply te_modify. Qed.

Lemma te_updateGasMetrics x : throws_errors (updateGasMetrics parseBigInt x).
Proof. unfold updateGasMetrics. apply te_bind; [apply te_bigInt|]. intros. apply te_modify. Qed.

Local Ltac te_swap :=
  first
    [ apply te_getQuote | apply te_handleTokenApproval | apply te_prepareTransactionData
    | apply te_simulateTransaction | apply te_executeTransaction
    | apply te_waitForTransactionConfirmation | apply te_updateVolumeMetrics
    | apply te_updateGasMetrics | te_step ].

(** The [try] block never throws [undefined]. *)
Lemma te_executeSwap_try request cb : throws_errors (try' request cb).
Proof. unfold executeSwap_try. repeat te_swap. Qed.

(** The handler returns a failure response for every [Error] it is given. *)
Lemma executeSwap_catch_returns request e s :
  exists resp s',
    executeSwap_catch isoNow request (ThrowError e) s = (inr resp, s')
    /\ success resp = false
    /\ transactionHash resp = None
    /\ fromAmount resp = amount request
    /\ toAmount resp = "0"
    /\ errorMessage resp
       = Some (toUserFriendly (DexErrorFactory.fromError (isoNow (snd s)) e))
    /\ errorCode resp = Some (code (DexErrorFactory.fromError (isoNow (snd s)) e)).
Proof.
  unfold executeSwap_catch, count_swap, emit_if_enabled, when, bind, service, modify,
    trackError, updateErrorMetrics, emit, toDexError, ret.
  destruct s as [sv w]. cbn.
  destruct (enableMetrics sv) eqn:Em, (enableEvents sv) eqn:Ee;
    repeat (progress (cbn; rewrite ?Em, ?Ee));
    do 2 eexists; (split; [reflexivity|]); cbn; auto 10.
Qed.

(** The handler leaves the world outside the process alone. *)
Lemma executeSwap_catch_world request e (s : Service * W) :
  snd (snd (executeSwap_catch isoNow request (ThrowError e) s)) = snd s.
Proof.
  unfold executeSwap_catch, count_swap, emit_if_enabled, when, bind, service, modify,
    trackError, updateErrorMetrics, emit, toDexError, ret.
  destruct s as [sv w]. cbn.
  destruct (enableMetrics sv) eqn:Em, (enableEvents sv) eqn:Ee;
    repeat (progress (cbn; rewrite ?Em, ?Ee)); reflexivity.
Qed.

Lemma bind_returned {A B} (m : M (W := W) A) (k : A -> M B) s a s1 :
  m s = (inr a, s1) -> bind m k s = k a s1.
Proof. intros H. unfold bind. now rewrite H. Qed.

Lemma bind_thrown {A B} (m : M (W := W) A) (k : A -> M B) s e s1 :
  m s = (inl e, s1) -> bind m k s = (inl e, s1).
Proof. intros H. unfold bind. now rewrite H. Qed.

(** *** What a returned response tells *)

Lemma rw_guard (b : bool) e :
  returns_with (fun _ : unit => b = true) (if b then ret tt else throw e).
Proof. destruct b; [apply rw_ret; reflexivity|apply rw_throw]. Qed.

(** The data [prepareTransactionData] returns came from the aggregator and
    were accepted. *)
Lemma rw_prepareTransactionData request :
  returns_with (fun tx => (exists w, fst (getSwapTx request w) = inr tx)
                          /\ isValid (validateTransactionData tx) = true)
               (prepareTransactionData getSwapTx validateTransactionData request).
Proof.
  unfold prepareTransactionData. eapply rw_bind; [apply rw_await|]. intros tx Htx.
  cbv zeta. destruct (isValid (validateTransactionData tx)) eqn:Ev; [|apply rw_throw].
  apply rw_ret. auto.
Qed.

(** The hash that [executeTransaction] returns is the one the signer
    answered for the submitted transaction. *)
Lemma rw_executeTransaction tx :
  returns_with (fun h => exists w, fst (sendTransaction tx w) = inr h)
               (executeTransaction sendTransaction tx).
Proof.
  unfold executeTransaction. apply rw_seq; intros s. apply rw_seq; intros _.
  eapply rw_bind; [apply rw_await|]. intros h Hh. apply rw_seq; intros _.
  apply rw_ret. exact Hh.
Qed.

(** The receipt [waitForTransactionConfirmation] returns is the provider's
    and does not report a revert. *)
Lemma rw_waitForTransactionConfirmation h :
  returns_with (fun receipt => (exists w, fst (waitForTransaction h w) = inr (Some receipt))
                               /\ status receipt <> 0)
               (waitForTransactionConfirmation waitForTransaction h).
Proof.
  unfold waitForTransactionConfirmation. eapply rw_bind; [apply rw_await|].
  intros [receipt|] Hr; [|apply rw_throw].
  destruct (status receipt =? 0) eqn:Es; [apply rw_throw|].
  apply rw_seq; intros _. apply rw_ret. split; [exact Hr|]. now apply Z.eqb_neq.
Qed.

(** What the [try] block returns when it returns: the response of a
    completed swap. *)
Lemma executeSwap_try_returned request cb (s s' : Service * W) resp :
  try' request cb s = (inr resp, s') ->
  success resp = true
  /\ fromAmount resp = amount request
  /\ errorMessage resp = None /\ errorCode resp = None
  /\ completed_swap validateCompleteSwapRequest getSwapTx validateTransactionData
                    sendTransaction waitForTransaction request (fst s) resp.
Proof.
  unfold executeSwap_try. erewrite bind_returned by reflexivity.
  intros H.
  match type of H with
  | ?m s = _ =>
      assert (Hrw : returns_with
                (fun resp => success resp = true /\ fromAmount resp = amount request
                             /\ errorMessage resp = None /\ errorCode resp = None
                             /\ completed_swap validateCompleteSwapRequest getSwapTx
                                  validateTransactionData sendTransaction
                                  waitForTransaction request (fst s) resp)
                m); [|exact (Hrw _ _ _ H)]
  end.
  clear H.
  eapply rw_bind; [apply rw_guard|]. intros ? Hwallet. cbv beta in Hwallet.
  do 3 (apply rw_seq; intros _).
  eapply rw_bind; [apply rw_guard|]. intros ? Htokens. cbv beta in Htokens.
  eapply rw_bind; [apply rw_await|]. intros v Hv.
  eapply rw_bind; [apply rw_guard|]. intros ? Hvalid. cbv beta in Hvalid.
  apply rw_seq; intros _. apply rw_seq; intros quote.
  do 3 (apply rw_seq; intros _).
  eapply rw_bind; [apply rw_prepareTransactionData|]. intros tx (Htx & Htxv).
  do 3 (apply rw_seq; intros _).
  eapply rw_bind; [apply rw_executeTransaction|]. intros h Hh.
  apply rw_seq; intros _.
  eapply rw_bind; [apply rw_waitForTransactionConfirmation|]. intros receipt (Hr & Hst).
  apply rw_seq; intros _. cbv zeta.
  do 2 (apply rw_seq; intros _).
  apply rw_ret. cbn [success fromAmount errorMessage errorCode].
  split_and!; try reflexivity.
  unfold completed_swap. split_and!; auto.
  - destruct Hv as (w & Hv). eauto.
  - exists tx, h, receipt. cbn. split_and!; auto.
Qed.

(** Without a signer the [try] block throws at once. *)
Lemma executeSwap_try_without_wallet request cb (s : Service * W) :
  wallet (fst s) = false ->
  try' request cb s
  = (inl (ThrowError (EDex (DexErrorFactory.invalidParameters
                              "wallet" "undefined"
                              "wallet instance required for swap execution"))), s).
Proof.
  intros Hw. unfold executeSwap_try. erewrite bind_returned by reflexivity.
  rewrite Hw. erewrite bind_thrown by reflexivity. reflexivity.
Qed.

(** *** A swap that nothing stops *)

Local Abbreviation ready := (Dex.ready (W := W)).
Local Abbreviation answers := (Dex.answers (W := W)).

Lemma ready_same (sv sv' : Service) (w w' : W) :
  wallet sv' = wallet sv -> networkRetry sv' = networkRetry sv ->
  ready (sv, w) -> ready (sv', w').
Proof. unfold ready. cbn. intros -> ->. auto. Qed.

Lemma aw_ret {A} (Q : A -> Prop) a : Q a -> answers Q (ret a).
Proof. intros H s Hs. exists a, s. auto. Qed.

Lemma aw_bind {A B} (Q : A -> Prop) (P : B -> Prop) (m : M A) (k : A -> M B) :
  answers Q m -> (forall a, Q a -> answers P (k a)) -> answers P (bind m k).
Proof.
  intros Hm Hk s Hs. destruct (Hm s Hs) as (a & s1 & E & Hs1 & Ha).
  destruct (Hk a Ha s1 Hs1) as (b & s2 & E2 & Hs2 & Hb).
  exists b, s2. split; [|auto]. unfold bind. now rewrite E.
Qed.

Lemma aw_true {A} (Q : A -> Prop) (m : M A) : answers Q m -> answers (fun _ => True) m.
Proof.
  intros H s Hs. destruct (H s Hs) as (a & s1 & E & Hs1 & _). exists a, s1. auto.
Qed.

Lemma aw_seq {A B} (P : B -> Prop) (m : M A) (k : A -> M B) :
  answers (fun _ => True) m -> (forall a, answers P (k a)) -> answers P (bind m k).
Proof. intros Hm Hk. apply (aw_bind (fun _ => True)); auto. Qed.

Lemma aw_modify f :
  (forall sv, wallet (f sv) = wallet sv /\ networkRetry (f sv) = networkRetry sv) ->
  answers (fun _ => True) (modify f).
Proof.
  intros Hf [sv w] Hs. exists tt, (f sv, w). unfold modify. cbn [fst snd].
  split_and!; auto. destruct (Hf sv). eapply ready_same; eauto.
Qed.

Lemma aw_service : answers (fun sv => wallet sv = true) service.
Proof. intros s Hs. exists (fst s), s. unfold service. split_and!; auto. apply Hs. Qed.

Lemma aw_clock : answers (fun _ => True) (clock Date_now).
Proof. intros s Hs. exists (Date_now (snd s)), s. unfold clock. auto. Qed.

Lemma aw_await {A} (Q : A -> Prop) (f : W -> (JsError + A) * W) :
  (forall w, exists a, fst (f w) = inr a /\ Q a) -> answers Q (await f).
Proof.
  intros H [sv w] Hs. destruct (H w) as (a & E & Ha). unfold await. cbn [fst snd].
  destruct (f w) as [[e|a'] w']; cbn in E; [discriminate|]. injection E as ->.
  exists a, (sv, w'). split_and!; auto.
Qed.

Lemma aw_when b m : answers (fun _ => True) m -> answers (fun _ => True) (when b m).
Proof. destruct b; cbn; auto using aw_ret. Qed.

Lemma aw_emit_if_enabled t h : answers (fun _ => True) (emit_if_enabled t h).
Proof.
  unfold emit_if_enabled. apply aw_seq; [apply (aw_true _ _ aw_service)|]. intros sv.
  apply aw_when, aw_modify. intros sv'. split; reflexivity.
Qed.

Lemma aw_count_swap f : answers (fun _ => True) (count_swap f).
Proof.
  unfold count_swap. apply aw_seq; [apply (aw_true _ _ aw_service)|]. intros sv.
  apply aw_when, aw_modify. intros sv'. split; reflexivity.
Qed.

Lemma aw_updateProgress cb p msg :
  (forall f, cb = Some f -> forall progress message w, fst (f progress message w) = inr tt) ->
  answers (fun _ => True) (updateProgress cb p msg).
Proof.
  intros H. destruct cb as [f|]; cbn; [|now apply aw_ret].
  apply aw_await. intros w. exists tt. split; [now apply H|exact I].
Qed.

Lemma aw_try_catch {A} (Q : A -> Prop) (body : M A) handler :
  answers Q body -> answers Q (try_catch body handler).
Proof.
  intros H s Hs. destruct (H s Hs) as (a & s1 & E & Hs1 & Ha).
  exists a, s1. unfold try_catch. rewrite E. auto.
Qed.

Lemma aw_bigInt x : is_Some (parseBigInt x) -> answers (fun _ => True) (bigInt parseBigInt x).
Proof. intros [z Hz]. unfold bigInt. rewrite Hz. now apply aw_ret. Qed.

(** The engine on an operation that answers: one attempt, a success. *)
Lemma aw_executeWithRetry {T} (operation : W -> (JsError + T) * W) :
  (forall w, exists v, fst (operation w) = inr v) ->
  answers (fun r => Retry.success r = true /\ is_Some (Retry.result r))
          (fun st : Service * W =>
             let '(r, m', w') :=
               Retry.executeWithRetry operation sleep calculateDelay
                                      (networkRetry (fst st)) None None (snd st) in
             (inr r, (set_retry (fst st) m', w'))).
Proof.
  intros Hop [sv w] [Hw Hmax]. cbn [fst snd] in *.
  destruct (Hop w) as (v & Hv).
  unfold Retry.executeWithRetry, Retry.executeAttempts, Retry.merge.
  destruct (Z.to_nat (Retry.maxAttempts (Retry.config (networkRetry sv)))) as [|n] eqn:En;
    [lia|].
  cbn [Retry.attempts_loop].
  destruct (operation w) as [[e|v'] w']; cbn in Hv; [discriminate|]. injection Hv as ->.
  do 2 eexists. split; [reflexivity|]. split; [|cbn; eauto].
  split; cbn; [exact Hw|exact Hmax].
Qed.

Local Ltac aw_step :=
  first
    [ apply aw_emit_if_enabled | apply aw_count_swap | apply aw_clock
    | apply aw_ret; exact I
    | apply aw_modify; intros ?; split; reflexivity ].

Section GoesThrough.
Variable request : SwapRequest.
Variable cb : option (Z -> string -> W -> (JsError + unit) * W).
Variable sv : Service.
Hypothesis Hgo :
  swap_goes_through validateQuoteRequest validateCompleteSwapRequest fetchQuoteFromAPI
                    validateAllowance approve getSwapTx validateTransactionData
                    sendTransaction waitForTransaction parseBigInt request cb sv.

Lemma aw_progress p msg : answers (fun _ => True) (updateProgress cb p msg).
Proof. apply aw_updateProgress. apply Hgo. Qed.

Lemma aw_getQuote : answers (fun _ => True) (getQuote' request).
Proof.
  destruct Hgo as (_ & _ & _ & _ & _ & Hq & Hfetch & _).
  unfold getQuote. apply aw_try_catch.
  apply aw_seq; [aw_step|]. intros _. cbv zeta. rewrite Hq.
  apply aw_seq; [aw_step|]. intros _.
  apply aw_seq; [apply (aw_true _ _ aw_service)|]. intros s.
  apply aw_seq; [aw_step|]. intros now.
  destruct (Cache.get _ now (cacheManager s)) as [cached c'].
  apply aw_seq; [aw_step|]. intros _.
  destruct cached as [q|].
  - apply aw_seq; [aw_step|]. intros _. aw_step.
  - eapply aw_bind; [apply (aw_executeWithRetry (fetchQuoteFromAPI request) Hfetch)|].
    intros r (Hr & [q Hres]). rewrite Hr, Hres. cbn [negb].
    apply aw_seq; [aw_step|]. intros now'.
    apply aw_seq; [aw_step|]. intros _.
    apply aw_seq; [aw_step|]. intros _. aw_step.
Qed.

Lemma aw_handleTokenApproval :
  answers (fun _ => True) (handleTokenApproval validateAllowance approve request cb).
Proof.
  destruct Hgo as (_ & _ & _ & _ & _ & _ & _ & Hallow & Happrove & _).
  unfold handleTokenApproval. destruct (String.eqb _ _); [aw_step|].
  eapply aw_bind.
  { apply (aw_await (fun _ => True)). intros w. destruct (Hallow w) as (v & Hv). eauto. }
  intros v _. destruct (isValid v); [aw_step|].
  apply aw_seq; [aw_step|]. intros _.
  apply aw_seq; [apply aw_progress|]. intros _.
  eapply aw_bind; [apply aw_service|]. intros s Hs. rewrite Hs.
  apply aw_seq.
  { apply (aw_await (fun _ => True)). intros w. exists tt. split; [apply Happrove|exact I]. }
  intros _. aw_step.
Qed.

Lemma aw_prepareTransactionData :
  answers (fun tx => simulationEnabled sv = true ->
                     Js.truthy (to tx) = true /\ Js.truthy (tx_data tx) = true
                     /\ tx_data tx <> Some "0x")
          (prepareTransactionData getSwapTx validateTransactionData request).
Proof.
  destruct Hgo as (_ & _ & _ & _ & _ & _ & _ & _ & _ & Htx & _).
  unfold prepareTransactionData.
  eapply aw_bind.
  { apply (aw_await (fun tx => isValid (validateTransactionData tx) = true
                               /\ (simulationEnabled sv = true ->
                                   Js.truthy (to tx) = true /\ Js.truthy (tx_data tx) = true
                                   /\ tx_data tx <> Some "0x"))).
    intros w. destruct (Htx w) as (tx & H1 & H2 & H3). eauto. }
  intros tx (Hv & Hsim). cbv zeta. rewrite Hv. apply aw_ret. exact Hsim.
Qed.

Lemma aw_simulateTransaction tx :
  Js.truthy (to tx) = true -> Js.truthy (tx_data tx) = true -> tx_data tx <> Some "0x" ->
  answers (fun _ => True) (simulateTransaction tx).
Proof.
  intros H1 H2 H3. unfold simulateTransaction.
  apply aw_seq; [aw_step|]. intros _. rewrite H1, H2.
  replace (bool_decide (tx_data tx = Some "0x")) with false
    by (symmetry; now apply bool_decide_eq_false).
  cbn [negb orb].
  apply aw_seq; [aw_step|]. intros _. aw_step.
Qed.

Lemma aw_executeTransaction tx :
  answers (fun _ => True) (executeTransaction sendTransaction tx).
Proof.
  destruct Hgo as (_ & _ & _ & _ & _ & _ & _ & _ & _ & _ & Hsend & _).
  unfold executeTransaction.
  eapply aw_bind; [apply aw_service|]. intros s Hs. rewrite Hs.
  apply aw_seq; [aw_step|]. intros _.
  eapply aw_bind.
  { apply (aw_await (fun _ => True)). intros w. destruct (Hsend tx w) as (h & Hh). eauto. }
  intros h _. apply aw_seq; [aw_step|]. intros _. aw_step.
Qed.

Lemma aw_waitForTransactionConfirmation h :
  answers (fun receipt =>
             enableMetrics sv = true ->
             is_Some (parseBigInt (if Js.truthy (receipt_gasUsed receipt)
                                   then default "0" (receipt_gasUsed receipt) else "0")))
          (waitForTransactionConfirmation waitForTransaction h).
Proof.
  destruct Hgo as (_ & _ & _ & _ & _ & _ & _ & _ & _ & _ & _ & Hwait & _).
  unfold waitForTransactionConfirmation.
  eapply aw_bind.
  { apply (aw_await
             (fun o => exists receipt, o = Some receipt /\ status receipt <> 0
                /\ (enableMetrics sv = true ->
                    is_Some (parseBigInt (if Js.truthy (receipt_gasUsed receipt)
                                          then default "0" (receipt_gasUsed receipt)
                                          else "0"))))).
    intros w. destruct (Hwait h w) as (receipt & H1 & H2 & H3). eauto 10. }
  intros o (receipt & -> & Hst & Hgas).
  replace (status receipt =? 0) with false by (symmetry; now apply Z.eqb_neq).
  apply aw_seq; [aw_step|]. intros _. apply aw_ret. exact Hgas.
Qed.

(** Every step answers: the [try] block returns. *)
Lemma executeSwap_try_completes (w : W) :
  exists resp s', try' request cb (sv, w) = (inr resp, s').
Proof.
  pose proof Hgo as (Hwallet & Htokens & Hmax & _ & Hvalid & _).
  destruct Hgo as (_ & _ & _ & _ & _ & _ & _ & _ & _ & _ & _ & _ & Hamount).
  unfold executeSwap_try. erewrite bind_returned by reflexivity. cbn [fst].
  rewrite Hwallet, Htokens.
  match goal with
  | |- exists resp s', ?m (sv, w) = _ =>
      assert (Ha : answers (fun _ => True) m)
  end.
  { apply aw_seq; [aw_step|]. intros _.
    apply aw_seq; [aw_step|]. intros _.
    apply aw_seq; [aw_step|]. intros _.
    apply aw_seq; [apply aw_progress|]. intros _.
    apply aw_seq; [aw_step|]. intros _.
    eapply aw_bind.
    { apply (aw_await (fun v => isValid v = true)). exact Hvalid. }
    intros v Hv. rewrite Hv.
    apply aw_seq; [aw_step|]. intros _.
    apply aw_seq; [apply aw_progress|]. intros _.
    apply aw_seq; [apply aw_getQuote|]. intros quote.
    apply aw_seq; [apply aw_progress|]. intros _.
    apply aw_seq; [apply aw_handleTokenApproval|]. intros _.
    apply aw_seq; [apply aw_progress|]. intros _.
    eapply aw_bind; [apply aw_prepareTransactionData|]. intros tx Hsim.
    apply aw_seq; [apply aw_progress|]. intros _.
    apply aw_seq.
    { destruct (simulationEnabled sv); cbn [when]; [|aw_step].
      destruct (Hsim eq_refl) as (H1 & H2 & H3). now apply aw_simulateTransaction. }
    intros _.
    apply aw_seq; [apply aw_progress|]. intros _.
    apply aw_seq; [apply aw_executeTransaction|]. intros h.
    apply aw_seq; [apply aw_progress|]. intros _.
    eapply aw_bind; [apply aw_waitForTransactionConfirmation|]. intros receipt Hgas.
    apply aw_seq; [apply aw_progress|]. intros _. cbv zeta.
    apply aw_seq.
    { destruct (enableMetrics sv); cbn [when]; [|aw_step].
      apply aw_seq; [aw_step|]. intros _.
      apply aw_seq.
      { unfold updateVolumeMetrics. apply aw_seq; [now apply aw_bigInt, Hamount|].
        intros z. aw_step. }
      intros _. unfold updateGasMetrics. apply aw_seq; [now apply aw_bigInt, Hgas|].
      intros z. aw_step. }
    intros _. apply aw_seq; [aw_step|]. intros _. aw_step. }
  destruct (Ha (sv, w)) as (resp & s' & E & _); [split; [exact Hwallet|exact Hmax]|].
  eauto.
Qed.

End GoesThrough.


End DexFacts.

(** Four runs of the orchestrator on services built by the factory. With the
    tokens registered under the chain id: a swap that goes through; a service
    without a signer; a signer that refuses the transaction. With the
    configuration as shipped: the token lookup fails. *)
Lemma executeSwap_runs :
  let run signer cm wallet :=
    match Dex.createXLayerUsdcWokbSwapService cm wallet with
    | inr sv => fst (Dex.scripted_swap signer sv Dex.usdc_to_wokb)
    | inl e => inl (Dex.ThrowError e)
    end in
  let registered := Dex.registered_by_chain_id (Config.getInstance None) in
  (match run (inr "0xswapped") registered true with
   | inr resp =>
       Dex.success resp = true /\ Dex.transactionHash resp = Some "0xswapped"
       /\ Dex.explorerUrl resp = Some "https://www.oklink.com/xlayer/tx/0xswapped"
       /\ Dex.fromAmount resp = "1000000" /\ Dex.toAmount resp = "0.02"
   | inl _ => False
   end)
  /\ (match run (inr "0xswapped") registered false with
      | inr resp =>
          Dex.success resp = false /\ Dex.errorCode resp = Some INVALID_PARAMETERS
          /\ Dex.fromAmount resp = "1000000" /\ Dex.toAmount resp = "0"
      | inl _ => False
      end)
  /\ (match run (inl (EPlain "insufficient funds for gas")) registered true with
      | inr resp =>
          Dex.success resp = false /\ Dex.errorCode resp = Some INSUFFICIENT_BALANCE
          /\ Dex.errorMessage resp = Some "余额不足，请检查账户余额"
          /\ Dex.toAmount resp = "0"
      | inl _ => False
      end)
  /\ (match run (inr "0xswapped") (Config.getInstance None) true with
      | inr resp =>
          Dex.success resp = false /\ Dex.errorCode resp = Some INVALID_PARAMETERS
          /\ Dex.transactionHash resp = None
      | inl _ => False
      end).
Proof. vm_compute. repeat split; reflexivity. Qed.


(** ** Settlement pipeline *)

Section SettlementFacts.
Import Settlement.
Variable okx_settle : Request -> JsError + list SettlementResult.
Variable dex_swap : SwapExecuteRequest -> JsError + Dex.SwapExecuteResponse.
Variable X402_PAY_TO : option string.
Variable toISOString : Z -> string.

Local Abbreviation step' := (step okx_settle dex_swap X402_PAY_TO toISOString).
Local Abbreviation steps' := (steps okx_settle dex_swap X402_PAY_TO toISOString).
Local Abbreviation verify' := (verify okx_settle dex_swap X402_PAY_TO toISOString).

Lemma steps_done n w r resp : steps' n w r (Done resp) = (w, Done resp).
Proof. induction n; cbn; auto. Qed.

Lemma steps_step n w r pc w' pc' :
  step' w r pc = (w', pc') -> steps' (S n) w r pc = steps' n w' r pc'.
Proof. intros H. cbn [steps]. now rewrite H. Qed.

Lemma checkNonceExists_true n rd :
  checkNonceExists n rd = true <-> is_Some (payment_nonce rd !! n).
Proof. unfold checkNonceExists. apply bool_decide_eq_true. Qed.

Lemma checkNonceExists_false n rd :
  checkNonceExists n rd = false <-> payment_nonce rd !! n = None.
Proof.
  unfold checkNonceExists. rewrite bool_decide_eq_false, <- eq_None_not_Some. tauto.
Qed.

(** A recorded nonce stays recorded, whichever request takes a step. *)
Lemma step_keeps_nonces w r pc n :
  is_Some (payment_nonce (redis w) !! n) ->
  is_Some (payment_nonce (redis (fst (step' w r pc))) !! n).
Proof.
  intros H. destruct pc; cbn; unfold lTrim, lPush;
    repeat match goal with
           | |- context [if ?b then _ else _] => destruct b
           | |- context [match ?x with _ => _ end] => destruct x
           end; cbn; auto.
  all: destruct (decide (nonce r = n)) as [->|Hne];
      [rewrite lookup_insert_eq; eauto | now rewrite lookup_insert_ne].
Qed.

(** On a recorded nonce the first step answers, and nothing else runs. *)
Lemma verify_recorded_nonce w r :
  is_Some (payment_nonce (redis w) !! nonce r) ->
  step' w r AtCheckNonce = (w, Done DUPLICATE_NONCE)
  /\ verify' w r = (w, Done DUPLICATE_NONCE).
Proof.
  intros H. apply checkNonceExists_true in H.
  assert (Hs : step' w r AtCheckNonce = (w, Done DUPLICATE_NONCE)) by (cbn; now rewrite H).
  split; [exact Hs|].
  unfold verify. rewrite (steps_step _ _ _ _ _ _ Hs). apply steps_done.
Qed.

(** A request that runs alone keeps the counter within the cap: the quota
    check it passed still holds when it increments. *)
Lemma step_alone w r pc :
  alone_at r w pc -> alone_at r (fst (step' w r pc)) (snd (step' w r pc)).
Proof.
  unfold alone_at, within_cap, getCurrentMintCount, read_max_count.
  intros [Hcap Hpc]. destruct pc; cbn [step].
  - destruct (checkNonceExists (nonce r) (redis w)); [cbn; auto|].
    destruct (is_token_mint r) eqn:Em; cbn; auto. split; [auto|congruence].
  - destruct (template_config (redis w) !! "token-mint") eqn:Ec; cbn; rewrite ?Ec; auto.
  - cbn. rewrite lookup_insert_eq. cbn. rewrite Hpc in Hcap. auto.
  - cbn. auto.
  - subst maxCount. unfold getCurrentMintCount.
    destruct (default 0 (mint_count (redis w) !! "token-mint")
              <? match template_config (redis w) !! "token-mint" with
                 | Some c => max_mint_count c
                 | None => 10
                 end) eqn:Elt; cbn [negb orb]; [|cbn; auto].
    destruct (_ <=? _); cbn; auto. split; [auto|]. intros _. now apply Z.ltb_lt.
  - destruct (okx_settle r) as [e|res]; cbn; auto.
    destruct (existsb sr_success res); cbn; auto.
  - destruct (is_token_mint r) eqn:Em; cbn; auto.
  - unfold incrementMintCount, getCurrentMintCount.
    destruct (Js.truthy X402_PAY_TO); cbn; rewrite lookup_insert_eq; cbn; split; auto; lia.
  - destruct (dex_swap swapRequest); cbn; auto.
  - cbn. auto.
  - unfold lTrim. destruct (mint_records (redis w) !! from r), swapError; cbn; auto.
  - cbn. auto.
Qed.

Lemma steps_alone n : forall w r pc,
  alone_at r w pc -> within_cap (fst (steps' n w r pc)).
Proof.
  induction n as [|n IH]; intros w r pc H; cbn [steps].
  - apply H.
  - pose proof (step_alone w r pc H) as Hs.
    destruct (step' w r pc) as [w' pc']. apply IH, Hs.
Qed.

Lemma verify_keeps_cap w r : within_cap w -> within_cap (fst (verify' w r)).
Proof. intros H. apply steps_alone. split; [exact H|exact I]. Qed.

(** C3 — a request whose nonce already has a payment record is rejected with
    DUPLICATE_NONCE by the first step of the handler. The world is left as it
    was: the settlement provider and the swap service are not called and the
    mint counter is not incremented. *)
Theorem duplicate_nonce_rejected_at_first_gate w r :
  is_Some (payment_nonce (redis w) !! nonce r) ->
  step' w r AtCheckNonce = (w, Done DUPLICATE_NONCE)
  /\ verify' w r = (w, Done DUPLICATE_NONCE)
  /\ settle_calls (fst (verify' w r)) = settle_calls w
  /\ getCurrentMintCount "token-mint" (redis (fst (verify' w r)))
     = getCurrentMintCount "token-mint" (redis w).
Proof.
  intros H. destruct (verify_recorded_nonce w r H) as [Hs Hv].
  rewrite Hv. auto.
Qed.

(** A step leaves the clock alone, and the expiry of a nonce key as it was
    or, when the step writes the key, 86400 seconds ahead. *)
Lemma step_keeps_expiry w r pc n t :
  nonce_expires (redis w) !! n = Some t ->
  clock (fst (step' w r pc)) = clock w
  /\ exists t', nonce_expires (redis (fst (step' w r pc))) !! n = Some t'
                /\ (t' = t \/ t' = clock w + 86400000).
Proof.
  intros H. destruct pc; cbn; unfold lTrim, lPush;
    repeat match goal with
           | |- context [if ?b then _ else _] => destruct b
           | |- context [match ?x with _ => _ end] => destruct x
           end; cbn; (split; [reflexivity|]); eauto.
  all: destruct (decide (nonce r = n)) as [->|Hne];
      [rewrite lookup_insert_eq; eauto | rewrite lookup_insert_ne by exact Hne; eauto].
Qed.

Lemma elapsed_forward evs : forward evs -> 0 <= elapsed evs.
Proof.
  induction evs as [|[j|dt] evs IH]; intros H; [cbn; lia| |];
    apply Forall_cons in H as [Hev H]; cbn [elapsed fold_right]; fold (elapsed evs);
    specialize (IH H); lia.
Qed.

(** X19 — the same among concurrent requests, for as long as the payment
    record lives. A request has arrived with a nonce whose record the store
    drops at the clock reading [t], at most 86400 seconds from now. After any
    schedule in which the clock does not run backwards and stays below [t],
    the record is still there and the request is still waiting at its first
    step or already answered with DUPLICATE_NONCE. *)
Lemma duplicate_nonce_under_any_schedule evs : forall (sys : System) i r t,
  is_Some (payment_nonce (redis (fst sys)) !! nonce r) ->
  nonce_expires (redis (fst sys)) !! nonce r = Some t ->
  t <= clock (fst sys) + 86400000 ->
  forward evs ->
  clock (fst sys) + elapsed evs < t ->
  (snd sys !! i = Some (r, AtCheckNonce) \/ snd sys !! i = Some (r, Done DUPLICATE_NONCE)) ->
  let sys' := run_schedule okx_settle dex_swap X402_PAY_TO toISOString sys evs in
  is_Some (payment_nonce (redis (fst sys')) !! nonce r)
  /\ (snd sys' !! i = Some (r, AtCheckNonce)
      \/ snd sys' !! i = Some (r, Done DUPLICATE_NONCE)).
Proof.
  induction evs as [|ev evs IH]; intros [w reqs] i r t Hn Ht Hfresh Hfw Hlive Hi;
    cbn [run_schedule fold_left].
  - split; [exact Hn|exact Hi].
  - apply Forall_cons in Hfw as [Hev Hfw]. cbn [elapsed fold_right] in Hlive.
    fold (elapsed evs) in Hlive. cbn [fst snd] in *.
    pose proof (elapsed_forward evs Hfw) as Hrest.
    destruct ev as [j|dt]; cbn [sched_step fst snd].
    + destruct (reqs !! j) as [[r' pc']|] eqn:Ej.
      2:{ apply (IH (w, reqs) i r t); auto. }
      pose proof (step_keeps_nonces w r' pc' (nonce r) Hn) as Hk.
      destruct (step_keeps_expiry w r' pc' (nonce r) t Ht) as (Hclock & t' & Ht' & Hcase).
      destruct (step' w r' pc') as [w' pc''] eqn:Es. cbn [fst snd] in *.
      apply (IH (w', <[j := (r', pc'')]> reqs) i r t'); cbn [fst snd]; auto.
      * rewrite Hclock. destruct Hcase as [->| ->]; lia.
      * rewrite Hclock. destruct Hcase as [->| ->]; lia.
      * destruct (decide (j = i)) as [->|Hne].
        -- assert (Hlt : (i < length reqs)%nat) by (eapply lookup_lt_Some; eauto).
           rewrite list_lookup_insert_eq by exact Hlt.
           destruct Hi as [Hi|Hi]; rewrite Hi in Ej; injection Ej as <- <-.
           ++ cbn in Es. apply checkNonceExists_true in Hn. rewrite Hn in Es.
              injection Es as <- <-. now right.
           ++ cbn in Es. injection Es as <- <-. now right.
        -- rewrite list_lookup_insert_ne by exact Hne. exact Hi.
    + apply (IH (mkWorld (expire (clock w + dt) (redis w)) (clock w + dt)
                         (settle_calls w) (swap_calls w), reqs) i r t);
        cbn [fst snd redis clock expire payment_nonce nonce_expires]; auto.
      * destruct Hn as [rec Hrec]. exists rec.
        apply map_lookup_filter_Some. split; [exact Hrec|].
        cbn [fst]. rewrite Ht. cbn. apply Z.ltb_lt. lia.
      * apply map_lookup_filter_Some. split; [exact Ht|]. cbn [snd]. lia.
      * lia.
      * lia.
Qed.

(** C8 (as amended) — a request to the mint-capped template that arrives when
    the quota is exhausted never reaches the settlement provider, the swap
    service or the counter. When its nonce is not yet recorded it is answered
    MINT_LIMIT_REACHED with the current and the maximum count; when its nonce
    is already recorded the earlier gate answers DUPLICATE_NONCE. *)
Theorem quota_exhausted_rejected_before_settlement w r :
  is_token_mint r = true ->
  read_max_count "token-mint" (redis w) <= getCurrentMintCount "token-mint" (redis w) ->
  let w' := fst (verify' w r) in
  settle_calls w' = settle_calls w
  /\ swap_calls w' = swap_calls w
  /\ mint_count (redis w') = mint_count (redis w)
  /\ payment_nonce (redis w') = payment_nonce (redis w)
  /\ (payment_nonce (redis w) !! nonce r = None ->
      snd (verify' w r)
      = Done (MINT_LIMIT_REACHED (getCurrentMintCount "token-mint" (redis w))
                                 (read_max_count "token-mint" (redis w))))
  /\ (is_Some (payment_nonce (redis w) !! nonce r) ->
      snd (verify' w r) = Done DUPLICATE_NONCE).
Proof.
  intros Hmint Hfull.
  destruct (checkNonceExists (nonce r) (redis w)) eqn:Hn.
  - apply checkNonceExists_true in Hn.
    destruct (verify_recorded_nonce w r Hn) as (_ & Hv).
    cbn zeta. rewrite Hv. cbn. split_and!; auto.
    intros Hnone. rewrite Hnone in Hn. now destruct Hn.
  - assert (Hfresh := proj1 (checkNonceExists_false _ _) Hn).
    assert (Hv : exists w', verify' w r
                 = (w', Done (MINT_LIMIT_REACHED (getCurrentMintCount "token-mint" (redis w))
                                                 (read_max_count "token-mint" (redis w))))
                 /\ settle_calls w' = settle_calls w /\ swap_calls w' = swap_calls w
                 /\ mint_count (redis w') = mint_count (redis w)
                 /\ payment_nonce (redis w') = payment_nonce (redis w)).
    { assert (H1 : step' w r AtCheckNonce = (w, AtConfigExists))
        by (cbn [step]; now rewrite Hn, Hmint).
      unfold verify. rewrite (steps_step _ _ _ _ _ _ H1).
      unfold read_max_count, getCurrentMintCount in *.
      destruct (template_config (redis w) !! "token-mint") as [c|] eqn:Ec.
      - assert (H2 : step' w r AtConfigExists = (w, AtConfigHGetAll))
          by (cbn [step]; now rewrite Ec).
        rewrite (steps_step _ _ _ _ _ _ H2).
        erewrite steps_step by (cbn [step]; reflexivity).
        unfold read_max_count. rewrite Ec.
        erewrite steps_step.
        2:{ cbn [step]. unfold getCurrentMintCount.
            replace (max_mint_count c <=? default 0 (mint_count (redis w) !! "token-mint"))
              with true by (symmetry; apply Z.leb_le; exact Hfull).
            rewrite orb_true_r. reflexivity. }
        rewrite steps_done. eexists; split; [reflexivity|]. auto.
      - assert (H2 : step' w r AtConfigExists = (w, AtConfigHSet))
          by (cbn [step]; now rewrite Ec).
        rewrite (steps_step _ _ _ _ _ _ H2).
        erewrite steps_step by (cbn [step]; reflexivity).
        erewrite steps_step by (cbn [step]; reflexivity).
        unfold read_max_count. cbn [redis set_redis template_config].
        rewrite lookup_insert_eq. cbn [max_mint_count default_template_config].
        erewrite steps_step.
        2:{ cbn [step]. unfold getCurrentMintCount. cbn [redis set_redis mint_count].
            replace (10 <=? default 0 (mint_count (redis w) !! "token-mint"))
              with true by (symmetry; apply Z.leb_le; exact Hfull).
            rewrite orb_true_r. reflexivity. }
        rewrite steps_done. eexists; split; [reflexivity|]. cbn. auto. }
    destruct Hv as (w' & Hv & H1 & H2 & H3 & H4).
    cbn zeta. rewrite Hv. cbn [fst snd]. split_and!; auto.
    intros Hsome. rewrite Hfresh in Hsome. now destruct Hsome.
Qed.

End SettlementFacts.

Lemma duplicate_nonce_rejected_at_first_gate_witness :
  let w := Settlement.with_recorded_nonce "abc" (Settlement.with_mint_count 10 Settlement.empty_world) in
  Settlement.verify Settlement.always_settles Settlement.swap_completes (Some "0xreceiver")
                    Settlement.iso_stub w (Settlement.mint_request "abc")
  = (w, Settlement.Done Settlement.DUPLICATE_NONCE).
Proof.
  intros w.
  apply (duplicate_nonce_rejected_at_first_gate
           Settlement.always_settles Settlement.swap_completes (Some "0xreceiver")
           Settlement.iso_stub w (Settlement.mint_request "abc")).
  subst w. cbn. rewrite lookup_insert_eq. eauto.
Defined.

Lemma quota_exhausted_rejected_before_settlement_witness :
  let w := Settlement.with_mint_count 10 Settlement.empty_world in
  let out := Settlement.verify Settlement.always_settles Settlement.swap_completes
                               (Some "0xreceiver") Settlement.iso_stub w
                               (Settlement.mint_request "abc") in
  snd out = Settlement.Done (Settlement.MINT_LIMIT_REACHED 10 10)
  /\ Settlement.settle_calls (fst out) = [].
Proof.
  intros w out.
  destruct (quota_exhausted_rejected_before_settlement
              Settlement.always_settles Settlement.swap_completes (Some "0xreceiver")
              Settlement.iso_stub w (Settlement.mint_request "abc"))
    as (Hs & _ & _ & _ & Hfresh & _).
  - reflexivity.
  - vm_compute. discriminate.
  - split; [|exact Hs]. apply Hfresh. reflexivity.
Defined.

(** C8 (as stated) fails on a request that repeats a recorded nonce while the
    quota is exhausted: the answer is DUPLICATE_NONCE, not the quota error. *)
Lemma quota_exhausted_duplicate_nonce_counterexample :
  let w := Settlement.with_recorded_nonce "abc"
             (Settlement.with_mint_count 10 Settlement.empty_world) in
  let r := Settlement.mint_request "abc" in
  let out := Settlement.verify Settlement.always_settles Settlement.swap_completes
                               (Some "0xreceiver") Settlement.iso_stub w r in
  Settlement.is_token_mint r = true
  /\ Settlement.getCurrentMintCount "token-mint" (Settlement.redis w) = 10
  /\ Settlement.read_max_count "token-mint" (Settlement.redis w) = 10
  /\ snd out = Settlement.Done Settlement.DUPLICATE_NONCE
  /\ ~ (exists c m, snd out = Settlement.Done (Settlement.MINT_LIMIT_REACHED c m)).
Proof.
  vm_compute. split_and!; try reflexivity. intros (c & m & H). discriminate H.
Qed.

(** C1 — eleven requests with distinct nonces reach the [token-mint] template
    (cap 10) together and are resumed in turn. Each passes the quota check
    while the counter is still 0, each is settled, and each increments the
    counter: all eleven are answered with success and the counter ends at 11,
    above [max_mint_count = 10]. *)
Theorem mint_counter_exceeds_cap_under_concurrency :
  let requests := map Settlement.numbered_request (seq 0 11) in
  let sys := Settlement.run_schedule
               Settlement.always_settles Settlement.swap_completes (Some "0xreceiver")
               Settlement.iso_stub
               (Settlement.arrive Settlement.empty_world requests)
               (Settlement.round_robin 11 11) in
  length (Settlement.responses sys) = 11%nat
  /\ forallb Settlement.is_ok (Settlement.responses sys) = true
  /\ length (Settlement.settle_calls (fst sys)) = 11%nat
  /\ Settlement.read_max_count "token-mint" (Settlement.redis (fst sys)) = 10
  /\ Settlement.getCurrentMintCount "token-mint" (Settlement.redis (fst sys)) = 11.
Proof. vm_compute. repeat split; reflexivity. Qed.

(** The same eleven requests handled one after the other: the pre-check does
    its work, the eleventh is refused and the counter stops at 10. *)
Lemma mint_counter_capped_when_sequential :
  let requests := map Settlement.numbered_request (seq 0 11) in
  let out := Settlement.verify_all
               Settlement.always_settles Settlement.swap_completes (Some "0xreceiver")
               Settlement.iso_stub Settlement.empty_world requests in
  Settlement.getCurrentMintCount "token-mint" (Settlement.redis (fst out)) = 10
  /\ last (snd out) = Some (Settlement.Done (Settlement.MINT_LIMIT_REACHED 10 10))
  /\ length (Settlement.settle_calls (fst out)) = 10%nat.
Proof. vm_compute. repeat split; reflexivity. Qed.

(** C2 — two requests with the same nonce arrive together and are resumed in
    turn: both pass the nonce check before either payment record is written.
    Neither is answered DUPLICATE_NONCE, the provider is asked to settle the
    same authorization twice, the record of the nonce is written twice (the
    second write replaces the first) and the counter is incremented twice. *)
Theorem same_nonce_settled_twice_under_concurrency :
  let r := Settlement.mint_request "abc" in
  let sys := Settlement.run_schedule
               Settlement.always_settles Settlement.swap_completes (Some "0xreceiver")
               Settlement.iso_stub
               (Settlement.arrive Settlement.empty_world [r; r])
               (Settlement.round_robin 2 11) in
  Settlement.responses sys
  = [Some (Settlement.OK "abc" (Some (Settlement.JNum 0, Settlement.JNum 1,
                                      Settlement.JStr "0xswapped")));
     Some (Settlement.OK "abc" (Some (Settlement.JNum 0, Settlement.JNum 1,
                                      Settlement.JStr "0xswapped")))]
  /\ length (List.filter Settlement.is_duplicate (Settlement.responses sys)) = 0%nat
  /\ Settlement.settle_calls (fst sys) = ["abc"; "abc"]
  /\ Settlement.getCurrentMintCount "token-mint" (Settlement.redis (fst sys)) = 2.
Proof. vm_compute. repeat split; reflexivity. Qed.

(** The same two requests one after the other: the second is refused. *)
Lemma same_nonce_refused_when_sequential :
  let r := Settlement.mint_request "abc" in
  let out := Settlement.verify_all
               Settlement.always_settles Settlement.swap_completes (Some "0xreceiver")
               Settlement.iso_stub Settlement.empty_world [r; r] in
  last (snd out) = Some (Settlement.Done Settlement.DUPLICATE_NONCE)
  /\ Settlement.settle_calls (fst out) = ["abc"]
  /\ Settlement.getCurrentMintCount "token-mint" (Settlement.redis (fst out)) = 1.
Proof. vm_compute. repeat split; reflexivity. Qed.

(** After [lTrim] the list of an address holds at most fifty records. *)
Lemma lTrim_bounded address (r : Settlement.Redis) :
  (length (default [] (Settlement.mint_records (Settlement.lTrim address r) !! address))
   <= 50)%nat.
Proof.
  unfold Settlement.lTrim.
  destruct (Settlement.mint_records r !! address) as [l|] eqn:E; cbn.
  - rewrite lookup_insert_eq. cbn. rewrite length_take. lia.
  - rewrite E. cbn. lia.
Qed.

(** Whatever [mintData] says, the record built by [saveMintRecord] has
    [status = 'success']: the literal's own [status] comes after the spread. *)
Lemma mintRecord_status_is_success now iso (mintData : gmap string Settlement.JsVal) :
  Settlement.mintRecord now iso mintData !! "status" = Some (Settlement.JStr "success").
Proof. unfold Settlement.mintRecord. apply lookup_insert_eq. Qed.

(** C4 — a paid request whose swap leg throws. A mint record is pushed on the
    payer's list and carries the error message, but its status reads
    'success', not 'failed'. When [executeSwap] reports the failure in its
    response instead of throwing, the handler takes it for a success: the
    record has status 'success', no error message and no transaction hash,
    and the request is answered 200. *)
Theorem failed_swap_recorded_as_success :
  let r := Settlement.mint_request "abc" in
  let thrown := Settlement.verify Settlement.always_settles Settlement.swap_throws
                                  (Some "0xreceiver") Settlement.iso_stub
                                  Settlement.empty_world r in
  let reported := Settlement.verify Settlement.always_settles Settlement.swap_reports_failure
                                    (Some "0xreceiver") Settlement.iso_stub
                                    Settlement.empty_world r in
  match Settlement.mint_records (Settlement.redis (fst thrown)) !! "0xpayer" with
  | Some [rec] =>
      rec !! "error_message"
      = Some (Settlement.JStr "Failed to create X Layer USDC->WOKB swap service configuration")
      /\ rec !! "status" = Some (Settlement.JStr "success")
  | _ => False
  end
  /\ snd thrown
     = Settlement.Done
         (Settlement.MINT_FAILED
            "Failed to create X Layer USDC->WOKB swap service configuration" "abc")
  /\ match Settlement.mint_records (Settlement.redis (fst reported)) !! "0xpayer" with
     | Some [rec] =>
         rec !! "error_message" = None
         /\ rec !! "tx_hash" = Some Settlement.JUndefined
         /\ rec !! "status" = Some (Settlement.JStr "success")
     | _ => False
     end
  /\ snd reported
     = Settlement.Done
         (Settlement.OK "abc" (Some (Settlement.JNum 0, Settlement.JNum 1,
                                     Settlement.JUndefined))).
Proof. vm_compute. repeat split; reflexivity. Qed.

(** ** Quote cache: the size bound *)

Section CacheBound.
Import Cache.
Context {T : Type}.
Implicit Types (m : list (string * ExtendedCacheEntry T)) (a : list string) (k : string).

Lemma map_has_elem k m : map_has k m = true <-> k ∈ map_keys m.
Proof.
  unfold map_has, map_keys. induction m as [|[k' v'] m IH]; cbn.
  - rewrite elem_of_nil. split; [discriminate|tauto].
  - rewrite elem_of_cons. destruct (String.eqb k' k) eqn:E.
    + apply String.eqb_eq in E. subst. tauto.
    + apply String.eqb_neq in E. rewrite IH. split; [tauto|]. intros [H|H]; congruence.
Qed.

Lemma map_get_elem k m : map_get k m <> None <-> k ∈ map_keys m.
Proof.
  rewrite <- map_has_elem. unfold map_has. destruct (map_get k m); split; congruence.
Qed.

Lemma keys_map_delete k k' m :
  k' ∈ map_keys (map_delete k m) <-> k' ∈ map_keys m /\ k' <> k.
Proof.
  unfold map_keys. induction m as [|[k0 v0] m IH]; cbn.
  - rewrite elem_of_nil. tauto.
  - destruct (String.eqb k0 k) eqn:E.
    + apply String.eqb_eq in E. subst. rewrite IH, elem_of_cons. split; [tauto|].
      intros [[H|H] Hn]; [congruence|tauto].
    + apply String.eqb_neq in E. cbn. rewrite !elem_of_cons, IH. split; [|tauto].
      intros [H|H]; [subst; split; auto; congruence|tauto].
Qed.

Lemma keys_map_set k k' (v : ExtendedCacheEntry T) m :
  k' ∈ map_keys (map_set k v m) <-> k' ∈ map_keys m \/ k' = k.
Proof.
  unfold map_keys. induction m as [|[k0 v0] m IH]; cbn.
  - rewrite elem_of_cons, !elem_of_nil. tauto.
  - destruct (String.eqb k0 k) eqn:E; cbn; rewrite !elem_of_cons.
    + apply String.eqb_eq in E. subst. tauto.
    + rewrite IH. tauto.
Qed.

Lemma length_map_set k (v : ExtendedCacheEntry T) m :
  length (map_set k v m) = if map_has k m then length m else S (length m).
Proof.
  unfold map_has. induction m as [|[k0 v0] m IH]; cbn; auto.
  destruct (String.eqb k0 k); cbn; auto.
  rewrite IH. destruct (map_get k m); auto.
Qed.

Lemma elem_remove_first k k' a :
  NoDup a -> k' ∈ remove_first k a <-> k' ∈ a /\ k' <> k.
Proof.
  induction 1 as [|x a Hx Hnd IH]; cbn.
  - rewrite elem_of_nil. tauto.
  - rewrite elem_of_cons. destruct (String.eqb x k) eqn:E.
    + apply String.eqb_eq in E. subst. split.
      * intros H. split; [tauto|]. intros ->. tauto.
      * intros [[H|H] Hn]; [congruence|auto].
    + apply String.eqb_neq in E. rewrite elem_of_cons, IH. split; [|tauto].
      intros [H|H]; [subst; split; auto|tauto].
Qed.

Lemma remove_first_incl k k' a : k' ∈ remove_first k a -> k' ∈ a.
Proof.
  induction a as [|x a IH]; cbn; auto.
  destruct (String.eqb x k); rewrite !elem_of_cons; tauto.
Qed.

Lemma NoDup_remove_first k a : NoDup a -> NoDup (remove_first k a).
Proof.
  induction 1 as [|x a Hx Hnd IH]; cbn; [constructor|].
  destruct (String.eqb x k); auto.
  constructor; auto. intros H. apply Hx. eapply remove_first_incl; eauto.
Qed.

(** A scan that has a candidate keeps one, and it is the candidate or a key
    of the map. *)
Lemma scan_min_step (f : ExtendedCacheEntry T -> Z) m : forall b k0,
  exists k,
    snd (fold_left
           (fun (acc : option Z * option string) (p : string * ExtendedCacheEntry T) =>
              match fst acc with
              | None => (Some (f (snd p)), Some (fst p))
              | Some best =>
                  if f (snd p) <? best then (Some (f (snd p)), Some (fst p)) else acc
              end) m (Some b, Some k0)) = Some k
    /\ (k = k0 \/ k ∈ map_keys m).
Proof.
  unfold map_keys. induction m as [|[k1 v1] m IH]; intros b k0; cbn.
  - eauto.
  - destruct (f v1 <? b).
    + destruct (IH (f v1) k1) as (k & -> & [->|H]); eexists; rewrite elem_of_cons; eauto.
    + destruct (IH b k0) as (k & -> & [->|H]); eexists; rewrite elem_of_cons; eauto.
Qed.

Lemma scan_min_elem (f : ExtendedCacheEntry T -> Z) m :
  m <> [] -> exists k, scan_min f m = Some k /\ k ∈ map_keys m.
Proof.
  destruct m as [|[k1 v1] m]; [congruence|]. intros _.
  unfold scan_min. cbn.
  destruct (scan_min_step f m (f v1) k1) as (k & -> & [->|H]);
    unfold map_keys; eexists; cbn; rewrite elem_of_cons; eauto.
Qed.

Implicit Types (c : SmartCacheManager T).

(** Removing a key from the map and from the order keeps them in step. *)
Lemma in_step_remove k c :
  in_step c ->
  in_step (with_cache c (map_delete k (cache c)) (remove_first k (accessOrder c))).
Proof.
  intros [Hne Hlru]. split; cbn [cache accessOrder strategy with_cache].
  - rewrite keys_map_delete. tauto.
  - intros Hs. destruct (Hlru Hs) as [Hnd Hiff]. split.
    + now apply NoDup_remove_first.
    + intros k'. rewrite elem_remove_first, keys_map_delete, Hiff by exact Hnd. tauto.
Qed.

(** Writing a non-empty key and, under LRU, moving it to the end of the
    order keeps them in step. *)
Lemma in_step_touch k (e : ExtendedCacheEntry T) c :
  in_step c -> k <> "" ->
  in_step (with_cache c (map_set k e (cache c))
                      (match strategy c with
                       | LRU => (remove_first k (accessOrder c) ++ [k])%list
                       | _ => accessOrder c
                       end)).
Proof.
  intros [Hne Hlru] Hk. split; cbn [cache accessOrder strategy with_cache].
  - rewrite keys_map_set. intros [H|H]; [tauto|congruence].
  - intros Hs. rewrite Hs. destruct (Hlru Hs) as [Hnd Hiff]. split.
    + apply NoDup_app. split; [now apply NoDup_remove_first|]. split; [|apply NoDup_singleton].
      intros x Hx Hx'. apply list_elem_of_singleton in Hx'. subst.
      apply elem_remove_first in Hx; [tauto|exact Hnd].
    + intros k'. rewrite elem_of_app, list_elem_of_singleton, elem_remove_first,
        keys_map_set, Hiff by exact Hnd.
      destruct (decide (k' = k)); tauto.
Qed.

(** On a non-empty map whose keys and order are in step, [evictEntry] removes
    an entry. *)
Lemma evictEntry_removes c :
  in_step c -> cache c <> [] ->
  in_step (evictEntry c)
  /\ strategy (evictEntry c) = strategy c
  /\ maxSize (evictEntry c) = maxSize c
  /\ (length (cache (evictEntry c)) < length (cache c))%nat
  /\ (forall k, k ∈ map_keys (cache (evictEntry c)) -> k ∈ map_keys (cache c)).
Proof.
  intros Hstep Hne.
  assert (Hvictim : exists k, keyToEvict c = Some k /\ k ∈ map_keys (cache c)).
  { unfold keyToEvict, findLeastFrequentlyUsed, findOldestEntry, findSoonestToExpire.
    destruct (strategy c) eqn:Hs; try (apply scan_min_elem; exact Hne).
    destruct Hstep as [_ Hlru]. destruct (Hlru Hs) as [_ Hiff].
    destruct (cache c) as [|[k0 v0] m] eqn:Ec; [congruence|].
    assert (Hk0 : k0 ∈ accessOrder c) by (apply Hiff; cbn; apply elem_of_cons; auto).
    destruct (accessOrder c) as [|x a]; [now apply elem_of_nil in Hk0|].
    exists x. split; [reflexivity|]. apply Hiff, elem_of_cons. auto. }
  destruct Hvictim as (k & Hk & Hin). unfold evictEntry. rewrite Hk.
  assert (Htruthy : Js.truthy (Some k) = true).
  { destruct k; [|reflexivity]. destruct Hstep as [Hempty _]. contradiction. }
  rewrite Htruthy. unfold count_eviction, in_step.
  cbn [cache accessOrder strategy maxSize with_cache with_stats stats].
  split_and!; auto.
  - apply (in_step_remove k c Hstep).
  - apply (in_step_remove k c Hstep).
  - apply map_delete_length_lt. now apply map_get_elem.
  - intros k'. rewrite keys_map_delete. tauto.
Qed.

(** [set] keeps a manager in step and within its bound. *)
Lemma set_preserves key (d : T) ttl now c :
  1 <= maxSize c -> key <> "" -> in_step c -> within_bound c ->
  in_step (set key d ttl now c) /\ within_bound (set key d ttl now c)
  /\ strategy (set key d ttl now c) = strategy c
  /\ maxSize (set key d ttl now c) = maxSize c.
Proof.
  intros Hmax Hkey Hstep Hbound. unfold within_bound, cache_size in *.
  set (c1 := if (maxSize c <=? cache_size c) && negb (map_has key (cache c))
             then evictEntry c else c).
  assert (H1 : in_step c1 /\ strategy c1 = strategy c /\ maxSize c1 = maxSize c
               /\ (map_has key (cache c1) = map_has key (cache c))
               /\ Z.of_nat (length (cache c1))
                  <= (if map_has key (cache c) then maxSize c else maxSize c - 1)).
  { subst c1. unfold cache_size.
    destruct (maxSize c <=? Z.of_nat (length (cache c))) eqn:Efull;
      destruct (map_has key (cache c)) eqn:Ehas; cbn [andb negb];
      try (split_and!; auto; apply Z.leb_gt in Efull; lia).
    apply Z.leb_le in Efull.
    destruct (evictEntry_removes c Hstep) as (Hs & Hst & Hm & Hlen & Hsub).
    { intros E. rewrite E in Efull. cbn in Efull. lia. }
    split_and!; auto; [|lia].
    destruct (map_has key (cache (evictEntry c))) eqn:E; [|reflexivity].
    apply map_has_elem, Hsub, map_has_elem in E. congruence. }
  destruct H1 as (Hs1 & Hst1 & Hm1 & Hhas1 & Hlen1).
  assert (Hshape : set key d ttl now c
                   = updateStats
                       (with_cache c1
                          (map_set key (mkEntry key d now (default (quoteTtl c) ttl) 1 now now)
                                   (cache c1))
                          (match strategy c1 with
                           | LRU => (remove_first key (accessOrder c1) ++ [key])%list
                           | _ => accessOrder c1
                           end))).
  { unfold set. fold c1. destruct (strategy c1); reflexivity. }
  rewrite Hshape.
  pose proof (in_step_touch key (mkEntry key d now (default (quoteTtl c) ttl) 1 now now)
                            c1 Hs1 Hkey) as Ht.
  split_and!; cbn; auto.
  rewrite length_map_set, Hhas1, Hm1. destruct (map_has key (cache c)); lia.
Qed.

(** The facts an operation has to keep for the bound to carry over. *)
Local Abbreviation kept c c' :=
  (in_step c' /\ within_bound c' /\ strategy c' = strategy c /\ maxSize c' = maxSize c).

Lemma remove_preserves k c :
  in_step c -> within_bound c ->
  kept c (with_cache c (map_delete k (cache c)) (remove_first k (accessOrder c))).
Proof.
  intros Hstep Hbound. split_and!; auto using in_step_remove.
  unfold within_bound, cache_size in *. cbn [cache maxSize with_cache].
  pose proof (map_delete_length k (cache c)). lia.
Qed.

Lemma get_preserves key now c :
  in_step c -> within_bound c -> kept c (snd (get key now c)).
Proof.
  intros Hstep Hbound. unfold get.
  destruct (map_get key (cache c)) as [entry|] eqn:Eg; [|cbn; auto].
  destruct (ttl entry <? now - timestamp entry).
  - apply (remove_preserves key c Hstep Hbound).
  - assert (Hin : key ∈ map_keys (cache c)) by (apply map_get_elem; congruence).
    assert (Hkey : key <> "") by (intros ->; destruct Hstep; contradiction).
    set (e' := mkEntry _ _ _ _ _ _ _).
    assert (Hshape : forall c2,
               c2 = match strategy (with_cache c (map_set key e' (cache c)) (accessOrder c)) with
                    | LRU => updateAccessOrder key
                               (with_cache c (map_set key e' (cache c)) (accessOrder c))
                    | _ => with_cache c (map_set key e' (cache c)) (accessOrder c)
                    end ->
               c2 = with_cache c (map_set key e' (cache c))
                      (match strategy c with
                       | LRU => (remove_first key (accessOrder c) ++ [key])%list
                       | _ => accessOrder c
                       end)).
    { intros c2 ->. cbn [strategy with_cache]. destruct (strategy c); reflexivity. }
    cbn [snd]. rewrite (Hshape _ eq_refl).
    pose proof (in_step_touch key e' c Hstep Hkey) as Ht.
    split_and!; auto.
    unfold within_bound, cache_size in *. cbn [cache maxSize with_cache count_hit with_stats].
    rewrite length_map_set. apply map_has_elem in Hin. now rewrite Hin.
Qed.

Lemma has_preserves key now c :
  in_step c -> within_bound c -> kept c (snd (has key now c)).
Proof.
  intros Hstep Hbound. unfold has.
  destruct (map_get key (cache c)) as [entry|]; [|cbn; auto].
  destruct (ttl entry <? now - timestamp entry); [|cbn; auto].
  apply (remove_preserves key c Hstep Hbound).
Qed.

Lemma delete_preserves key c :
  in_step c -> within_bound c -> kept c (snd (delete key c)).
Proof.
  intros Hstep Hbound. unfold delete.
  destruct (map_has key (cache c)); [|cbn; auto].
  apply (remove_preserves key c Hstep Hbound).
Qed.

Lemma cleanup_fold_preserves ks : forall c,
  in_step c -> within_bound c ->
  kept c (fold_left (fun acc k => with_cache acc (map_delete k (cache acc))
                                             (remove_first k (accessOrder acc))) ks c).
Proof.
  induction ks as [|k ks IH]; intros c Hstep Hbound; cbn [fold_left]; [auto|].
  destruct (remove_preserves k c Hstep Hbound) as (H1 & H2 & H3 & H4).
  destruct (IH _ H1 H2) as (H5 & H6 & H7 & H8).
  split_and!; auto; congruence.
Qed.

Lemma cleanup_preserves now c :
  in_step c -> within_bound c -> kept c (snd (cleanup now c)).
Proof.
  intros Hstep Hbound. unfold cleanup. cbn [snd].
  apply (cleanup_fold_preserves (expiredKeys now c) c Hstep Hbound).
Qed.

Lemma clear_preserves c : 0 <= maxSize c -> kept c (clear c).
Proof.
  intros Hmax. unfold clear, in_step, within_bound, cache_size. cbn.
  split_and!; auto; try lia.
  - apply not_elem_of_nil.
  - intros _. split; [constructor|]. intros k. tauto.
Qed.

Lemma apply_preserves c (ev : Z * Op T) :
  1 <= maxSize c -> op_key (snd ev) <> Some "" ->
  in_step c -> within_bound c -> kept c (apply c ev).
Proof.
  intros Hmax Hkey Hstep Hbound. destruct ev as [now [k d t|k|k|k| |]]; cbn [apply fst snd].
  - apply set_preserves; auto. intros ->. now apply Hkey.
  - now apply get_preserves.
  - now apply has_preserves.
  - now apply delete_preserves.
  - now apply cleanup_preserves.
  - apply clear_preserves. lia.
Qed.

Lemma run_preserves evs : forall c,
  1 <= maxSize c -> Forall (fun ev => op_key (snd ev) <> Some "") evs ->
  in_step c -> within_bound c -> kept c (run c evs).
Proof.
  unfold run.
  induction evs as [|ev evs IH]; intros c Hmax Hkeys Hstep Hbound; cbn [fold_left].
  - auto.
  - apply Forall_cons in Hkeys as [Hk Hks].
    destruct (apply_preserves c ev Hmax Hk Hstep Hbound) as (H1 & H2 & H3 & H4).
    destruct (IH (apply c ev)) as (H5 & H6 & H7 & H8); auto; [lia|].
    split_and!; auto; congruence.
Qed.

(** For a capacity of at least one and whatever the eviction strategy, a
    cache that starts empty stays within [maxSize] under every sequence of
    set, get, has, delete, cleanup and clear calls whose keys are not the
    empty string (and whose ttls are finite, as they all are here). *)
Lemma cache_size_bounded quoteTtl maxSize strategy (evs : list (Z * Op T)) :
  1 <= maxSize ->
  Forall (fun ev => op_key (snd ev) <> Some "") evs ->
  cache_size (run (new quoteTtl maxSize strategy) evs) <= maxSize.
Proof.
  intros Hmax Hkeys.
  destruct (run_preserves evs (new quoteTtl maxSize strategy)) as (_ & Hb & _ & Hm); auto.
  - split; cbn; [apply not_elem_of_nil|].
    intros _. split; [constructor|]. intros k. tauto.
  - unfold within_bound, cache_size. cbn. lia.
  - unfold within_bound in Hb. cbn in Hm. lia.
Qed.

End CacheBound.

(** The keys of the quote cache are never empty. *)
Lemma generateQuoteKey_not_empty f t a sl : Cache.generateQuoteKey f t a sl <> "".
Proof. unfold Cache.generateQuoteKey. cbn. discriminate. Qed.

(** C10 — an LRU cache of capacity 1 that holds the key [""] does not evict
    it when a second key is set: [evictEntry] picks [accessOrder[0]], which is
    [""], and [if (keyToEvict)] takes the empty string for no key. The cache
    then holds two entries. With any other first key the same calls leave one
    entry, the first one having been evicted. *)
Theorem cache_exceeds_maxSize_on_empty_key :
  let grown := Cache.run (Cache.new 30000 1 Cache.LRU)
                 [(0, Cache.OpSet "" 1 None); (1, Cache.OpSet "quote:a:b:1:0.5" 2 None)] in
  let evicted := Cache.run (Cache.new 30000 1 Cache.LRU)
                   [(0, Cache.OpSet "quote:a:b:2:0.5" 1 None);
                    (1, Cache.OpSet "quote:a:b:1:0.5" 2 None)] in
  Cache.maxSize grown = 1
  /\ Cache.cache_size grown = 2
  /\ Cache.map_keys (Cache.cache grown) = [""; "quote:a:b:1:0.5"]
  /\ Cache.evictions (Cache.stats grown) = 0
  /\ Cache.cache_size evicted = 1
  /\ Cache.map_keys (Cache.cache evicted) = ["quote:a:b:1:0.5"]
  /\ Cache.evictions (Cache.stats evicted) = 1.
Proof. vm_compute. repeat split; reflexivity. Qed.

(* ------------------------------------------------------------------ *)
(** * Part III — further properties of the code                          *)
(* ------------------------------------------------------------------ *)

(** ** Retry engine: results, budget and bookkeeping *)

Section RetryMore.
Import Retry.
Context {W T : Type}.
Variable operation : W -> (JsError + T) * W.
Variable sleep : Z -> W -> W.
Variable calculateDelay : RetryStrategy -> Z -> RetryConfig -> Z.
Variable st : RetryStrategy.
Variable cfg : RetryConfig.

Local Abbreviation loop := (attempts_loop operation sleep calculateDelay st cfg).

(** What the loop throws is an error it caught, as soon as one iteration ran
    or an error was already recorded; the attempt it stops at lies between
    the first and the last it could run. *)
Lemma loop_throws_recorded n : forall a ctx w t ctx' w',
  (n = 0%nat -> is_Some (lastError ctx)) ->
  loop n a ctx w = (inl t, ctx', w') -> is_Some t.
Proof.
  induction n as [|n IH]; intros a ctx w t ctx' w' H0; cbn [attempts_loop].
  - intros E. injection E as <- _ _. auto.
  - destruct (operation w) as [[e|r] w1]; [|discriminate].
    destruct (negb (isRetryableError e (retryableErrors cfg))).
    + intros E. injection E as <- _ _. eauto.
    + destruct (a <? maxAttempts cfg); apply IH; intros _; cbn; eauto.
Qed.

Lemma loop_attempt_range n : forall a ctx w,
  let ctx' := snd (fst (loop (S n) a ctx w)) in
  a <= attempt ctx' <= a + Z.of_nat n.
Proof.
  induction n as [|n IH]; intros a ctx w; cbn [attempts_loop].
  - destruct (operation w) as [[e|r] w1]; [|cbn; lia].
    destruct (negb (isRetryableError e (retryableErrors cfg))); [cbn; lia|].
    destruct (a <? maxAttempts cfg); cbn; lia.
  - destruct (operation w) as [[e|r] w1]; [|cbn; lia].
    destruct (negb (isRetryableError e (retryableErrors cfg))); [cbn; lia|].
    assert (Hnext : forall c w', a <= attempt (snd (fst (loop (S n) (a + 1) c w')))
                                 <= a + Z.of_nat (S n)).
    { intros c w'. pose proof (IH (a + 1) c w') as H. cbv zeta in H. lia. }
    destruct (a <? maxAttempts cfg); apply Hnext.
Qed.

End RetryMore.

(** X1 — for an attempt budget of at least one, the result of
    [executeWithRetry] is well formed: a success carries a result and no
    error, a failure carries an error and no result, and [attempts] lies
    between 1 and [maxAttempts]. *)
Theorem retry_result_well_formed {W T : Type}
    (operation : W -> (JsError + T) * W) (sleep : Z -> W -> W)
    (calculateDelay : Retry.RetryStrategy -> Z -> Retry.RetryConfig -> Z)
    (m : Retry.SmartRetryManager) (operationId : option string)
    (customConfig : option Retry.PartialRetryConfig) (w : W) :
  let cfg := Retry.merge (Retry.config m) customConfig in
  let res := fst (fst (Retry.executeWithRetry operation sleep calculateDelay
                                              m operationId customConfig w)) in
  1 <= Retry.maxAttempts cfg ->
  (if Retry.success res
   then is_Some (Retry.result res) /\ Retry.error res = None
   else is_Some (Retry.error res) /\ Retry.result res = None)
  /\ 1 <= Retry.attempts res <= Retry.maxAttempts cfg.
Proof.
  intros cfg res Hmax. subst res.
  unfold Retry.executeWithRetry, Retry.executeAttempts. fold cfg.
  destruct (Z.to_nat (Retry.maxAttempts cfg)) as [|n] eqn:En; [lia|].
  pose proof (loop_attempt_range operation sleep calculateDelay (Retry.strategy m) cfg n 1
                (Retry.mkContext 0 None []) w) as Hrange.
  pose proof (loop_throws_recorded operation sleep calculateDelay (Retry.strategy m) cfg (S n) 1
                (Retry.mkContext 0 None []) w) as Hthrow.
  destruct (Retry.attempts_loop operation sleep calculateDelay (Retry.strategy m) cfg (S n) 1
              (Retry.mkContext 0 None []) w) as [[[t|r] ctx'] w'].
  - cbn in *. split; [|lia]. split; [|reflexivity].
    eapply Hthrow; [discriminate|reflexivity].
  - cbn in *. split; [|lia]. split; [eauto|reflexivity].
Qed.

Lemma retry_result_well_formed_witness :
  let res := fst (fst (Retry.executeWithRetry
                         (Retry.scripted (fun _ => inl Retry.network_down))
                         Retry.no_sleep Retry.fixed_delay
                         (Retry.new_manager Retry.default_config Retry.FIXED_DELAY)
                         None None 0%nat)) in
  is_Some (Retry.error res) /\ Retry.attempts res <= 3.
Proof.
  intros res.
  pose proof (retry_result_well_formed
                (Retry.scripted (fun _ => inl Retry.network_down))
                Retry.no_sleep Retry.fixed_delay
                (Retry.new_manager Retry.default_config Retry.FIXED_DELAY)
                None None 0%nat) as H.
  cbv zeta in H. destruct H as [Hshape Hrange]; [vm_compute; discriminate|].
  change (Retry.success _) with false in Hshape. cbn in Hrange.
  split; [apply Hshape|apply Hrange].
Defined.

Section RetryCounting.
Import Retry.
Context {W T : Type}.
Variable operation : W -> (JsError + T) * W.
Variable sleep : Z -> W -> W.
Variable calculateDelay : RetryStrategy -> Z -> RetryConfig -> Z.
Variable st : RetryStrategy.
Variable cfg : RetryConfig.

Local Abbreviation plain := (attempts_loop operation sleep calculateDelay st cfg).
Local Abbreviation instrumented :=
  (attempts_loop (DexRetry.counted operation) (DexRetry.counted_sleep sleep)
                 calculateDelay st cfg).

(** Counting the invocations does not change what the loop does. *)
Lemma instrumented_agrees n : forall a ctx w c,
  fst (instrumented n a ctx (w, c)) = fst (plain n a ctx w)
  /\ fst (snd (instrumented n a ctx (w, c))) = snd (plain n a ctx w).
Proof.
  induction n as [|n IH]; intros a ctx w c; cbn [attempts_loop]; [auto|].
  unfold DexRetry.counted. cbn [fst snd].
  destruct (operation w) as [[e|r] w1]; [|split; reflexivity].
  destruct (negb (isRetryableError e (retryableErrors cfg))); [split; reflexivity|].
  destruct (a <? maxAttempts cfg); unfold DexRetry.counted_sleep; cbn [fst snd]; apply IH.
Qed.

(** Each iteration that runs invokes the operation once. *)
Lemma instrumented_counts n : forall a ctx w c,
  let out := instrumented (S n) a ctx (w, c) in
  Z.of_nat (snd (snd out)) = Z.of_nat c + (attempt (snd (fst out)) - a + 1).
Proof.
  induction n as [|n IH]; intros a ctx w c; cbn [attempts_loop];
    unfold DexRetry.counted; cbn [fst snd];
    destruct (operation w) as [[e|r] w1]; try (cbn; lia);
    destruct (negb (isRetryableError e (retryableErrors cfg))); try (cbn; lia).
  - destruct (a <? maxAttempts cfg); cbn; lia.
  - assert (Hnext : forall c0 w',
               Z.of_nat (snd (snd (instrumented (S n) (a + 1) c0 (w', S c))))
               = Z.of_nat c + (attempt (snd (fst (instrumented (S n) (a + 1) c0 (w', S c))))
                               - a + 1)).
    { intros c0 w'. pose proof (IH (a + 1) c0 w' (S c)) as H. cbv zeta in H. lia. }
    destruct (a <? maxAttempts cfg); unfold DexRetry.counted_sleep; cbn [fst snd]; apply Hnext.
Qed.

End RetryCounting.

(** The run of [executeWithRetry] on the instrumented operation: same
    result, same manager, same world. *)
Lemma executeWithRetry_instrumented {W T : Type}
    (operation : W -> (JsError + T) * W) (sleep : Z -> W -> W)
    (calculateDelay : Retry.RetryStrategy -> Z -> Retry.RetryConfig -> Z)
    (m : Retry.SmartRetryManager) (operationId : option string)
    (customConfig : option Retry.PartialRetryConfig) (w : W) (invoked : nat) :
  let run := Retry.executeWithRetry operation sleep calculateDelay
                                    m operationId customConfig w in
  let run' := Retry.executeWithRetry (DexRetry.counted operation)
                                     (DexRetry.counted_sleep sleep) calculateDelay
                                     m operationId customConfig (w, invoked) in
  fst run' = fst run /\ fst (snd run') = snd run.
Proof.
  intros run run'. subst run run'.
  unfold Retry.executeWithRetry, Retry.executeAttempts.
  destruct (instrumented_agrees operation sleep calculateDelay (Retry.strategy m)
              (Retry.merge (Retry.config m) customConfig)
              (Z.to_nat (Retry.maxAttempts (Retry.merge (Retry.config m) customConfig)))
              1 (Retry.mkContext 0 None []) w invoked) as [Hres Hworld].
  destruct (Retry.attempts_loop (DexRetry.counted operation) _ _ _ _ _ _ _ _)
    as [[out' ctx'] [w' c']].
  destruct (Retry.attempts_loop operation _ _ _ _ _ _ _ _) as [[out ctx] w0].
  cbn [fst snd] in *. injection Hres as -> ->. subst w0.
  destruct out as [t|r]; cbn [fst snd]; auto.
Qed.

(** The invocations made by a run of [executeWithRetry]. *)
Lemma executeWithRetry_invocations {W T : Type}
    (operation : W -> (JsError + T) * W) (sleep : Z -> W -> W)
    (calculateDelay : Retry.RetryStrategy -> Z -> Retry.RetryConfig -> Z)
    (m : Retry.SmartRetryManager) (operationId : option string)
    (customConfig : option Retry.PartialRetryConfig) (w : W) (invoked : nat) :
  let cfg := Retry.merge (Retry.config m) customConfig in
  let run' := Retry.executeWithRetry (DexRetry.counted operation)
                                     (DexRetry.counted_sleep sleep) calculateDelay
                                     m operationId customConfig (w, invoked) in
  Z.of_nat (snd (snd run')) = Z.of_nat invoked + Retry.attempts (fst (fst run'))
  /\ 0 <= Retry.attempts (fst (fst run')) <= Z.max 0 (Retry.maxAttempts cfg).
Proof.
  intros cfg run'. subst run'.
  unfold Retry.executeWithRetry, Retry.executeAttempts. fold cfg.
  destruct (Z.to_nat (Retry.maxAttempts cfg)) as [|n] eqn:En.
  - cbn. lia.
  - pose proof (instrumented_counts operation sleep calculateDelay (Retry.strategy m) cfg
                  n 1 (Retry.mkContext 0 None []) w invoked) as Hcount.
    pose proof (loop_attempt_range (DexRetry.counted operation) (DexRetry.counted_sleep sleep)
                  calculateDelay (Retry.strategy m) cfg
                  n 1 (Retry.mkContext 0 None []) (w, invoked)) as Hrange.
    cbv zeta in Hcount, Hrange.
    destruct (Retry.attempts_loop (DexRetry.counted operation) _ _ _ _ _ _ _ _)
      as [[out' ctx'] [w' c']].
    cbn [fst snd] in *.
    destruct out' as [t|r]; cbn [fst snd Retry.attempts]; lia.
Qed.

(** X2 — [attempts] is the number of times the operation was invoked, and it
    never exceeds the attempt budget. The count is taken on an instrumented
    copy of the operation, which behaves as the operation itself. *)
Theorem retry_attempts_count_invocations {W T : Type}
    (operation : W -> (JsError + T) * W) (sleep : Z -> W -> W)
    (calculateDelay : Retry.RetryStrategy -> Z -> Retry.RetryConfig -> Z)
    (m : Retry.SmartRetryManager) (operationId : option string)
    (customConfig : option Retry.PartialRetryConfig) (w : W) (invoked : nat) :
  let cfg := Retry.merge (Retry.config m) customConfig in
  let run := Retry.executeWithRetry operation sleep calculateDelay
                                    m operationId customConfig w in
  let run' := Retry.executeWithRetry (DexRetry.counted operation)
                                     (DexRetry.counted_sleep sleep) calculateDelay
                                     m operationId customConfig (w, invoked) in
  fst run' = fst run
  /\ fst (snd run') = snd run
  /\ Z.of_nat (snd (snd run')) = Z.of_nat invoked + Retry.attempts (fst (fst run))
  /\ 0 <= Retry.attempts (fst (fst run)) <= Z.max 0 (Retry.maxAttempts cfg).
Proof.
  intros cfg run run'.
  destruct (executeWithRetry_instrumented operation sleep calculateDelay m operationId
              customConfig w invoked) as [Hres Hworld].
  destruct (executeWithRetry_invocations operation sleep calculateDelay m operationId
              customConfig w invoked) as [Hcount Hrange].
  fold run run' in Hres, Hworld. fold cfg run' in Hcount, Hrange.
  rewrite <- Hres. auto.
Qed.

(** X3 — [executeWithRetry] leaves no registration behind: whatever the
    operation does, the entry of a (non-empty) [operationId] is absent from
    [activeRetries] when the call is over, also one that was registered under
    the same id before the call; the other registrations, the configuration
    and the strategy are as before. An empty id is never registered. *)
Theorem retry_registration_removed {W T : Type}
    (operation : W -> (JsError + T) * W) (sleep : Z -> W -> W)
    (calculateDelay : Retry.RetryStrategy -> Z -> Retry.RetryConfig -> Z)
    (m : Retry.SmartRetryManager) (operationId : option string)
    (customConfig : option Retry.PartialRetryConfig) (w : W) :
  let m' := snd (fst (Retry.executeWithRetry operation sleep calculateDelay
                                             m operationId customConfig w)) in
  Retry.config m' = Retry.config m
  /\ Retry.strategy m' = Retry.strategy m
  /\ match operationId with
     | Some id =>
         if String.eqb id ""
         then Retry.activeRetries m' = Retry.activeRetries m
         else Retry.activeRetries m' !! id = None
              /\ forall id', id' <> id ->
                   Retry.activeRetries m' !! id' = Retry.activeRetries m !! id'
     | None => Retry.activeRetries m' = Retry.activeRetries m
     end.
Proof.
  intros m'. subst m'. unfold Retry.executeWithRetry.
  destruct (Retry.executeAttempts _ _ _ _ _ _ _) as [[out ctx'] w'].
  assert (Hfst : forall (a b : Retry.RetryResult T) (x : Retry.SmartRetryManager),
             snd (fst (match out with
                       | inr r => (a, x, w')
                       | inl e => (b, x, w')
                       end)) = x) by (intros; destruct out; reflexivity).
  destruct operationId as [id|].
  - destruct (String.eqb id "") eqn:E.
    + apply String.eqb_eq in E. subst id. cbn. destruct out; cbn; destruct m; auto.
    + assert (Ht : Js.truthy (Some id) = true).
      { unfold Js.truthy. destruct id; [discriminate|reflexivity]. }
      rewrite Ht. destruct out; cbn [fst snd Retry.config Retry.strategy Retry.activeRetries];
        (split_and!; [reflexivity|reflexivity|apply lookup_delete_eq|]);
        intros id' Hne; rewrite lookup_delete_ne by congruence;
        apply lookup_insert_ne; congruence.
  - destruct out; cbn; destruct m; auto.
Qed.

(** X4 — which errors [smartRetry] goes on retrying, with the managers of
    [DexRetryManager]: the manager chosen for an error retries that error
    exactly when it is a [DexSwapError] with one of the three retryable codes,
    or another [Error] whose message mentions the network. A [DexSwapError]
    with any other code is sent to [apiRetry], which does not retry it, and
    an [Error] whose message only mentions the API or gas is sent to
    [networkRetry], which does not retry it either. *)
Theorem smartRetry_manager_retries (e : JsError) :
  let chosen := DexRetry.getRetryManagerForError DexRetry.getInstance e in
  Retry.isRetryableError e (Retry.retryableErrors (Retry.config chosen))
  = match e with
    | EDex d => code_in (code d) [NETWORK_ERROR; API_ERROR; GAS_ESTIMATION_FAILED]
    | EPlain msg =>
        let message := Js.toLowerCase msg in
        Js.includes message "network" || Js.includes message "timeout"
        || Js.includes message "connection" || Js.includes message "fetch"
    end.
Proof.
  destruct e as [d|msg]; cbn [DexRetry.getRetryManagerForError].
  - unfold Retry.isRetryableError. destruct (code d); reflexivity.
  - unfold Retry.isRetryableError. cbv zeta.
    cbn [DexRetry.getInstance DexRetry.networkRetry Retry.new_manager Retry.config
         Retry.retryableErrors].
    destruct (Js.includes (Js.toLowerCase msg) "network"
              || Js.includes (Js.toLowerCase msg) "timeout"
              || Js.includes (Js.toLowerCase msg) "connection"
              || Js.includes (Js.toLowerCase msg) "fetch"); [reflexivity|].
    destruct (Js.includes (Js.toLowerCase msg) "api"
              || Js.includes (Js.toLowerCase msg) "500"
              || Js.includes (Js.toLowerCase msg) "502"
              || Js.includes (Js.toLowerCase msg) "503"
              || Js.includes (Js.toLowerCase msg) "504"); [reflexivity|].
    destruct (Js.includes (Js.toLowerCase msg) "gas"
              || Js.includes (Js.toLowerCase msg) "estimate"); reflexivity.
Qed.

(** X5 — the invocations made by [smartRetry]. When the probing call
    returns, the operation ran once and the result reports one attempt. When
    it throws, the chosen manager starts over with its own budget: the
    operation runs [attempts + 1] times, the probing call not being counted
    in [attempts], and [attempts] stays within the budget of that manager. *)
Theorem smartRetry_invocations {W T : Type}
    (operation : W -> (JsError + T) * W) (sleep : Z -> W -> W)
    (calculateDelay : Retry.RetryStrategy -> Z -> Retry.RetryConfig -> Z)
    (m : DexRetry.DexRetryManager) (operationId : option string) (w : W) :
  let run := DexRetry.smartRetry (DexRetry.counted operation) (DexRetry.counted_sleep sleep)
                                 calculateDelay m operationId (w, 0%nat) in
  let res := fst (fst run) in
  let invocations := Z.of_nat (snd (snd run)) in
  match fst (operation w) with
  | inr r =>
      invocations = 1 /\ Retry.attempts res = 1
      /\ Retry.success res = true /\ Retry.result res = Some r
  | inl e =>
      let budget := Retry.maxAttempts
                      (Retry.config (DexRetry.getRetryManagerForError m e)) in
      invocations = 1 + Retry.attempts res
      /\ 0 <= Retry.attempts res <= Z.max 0 budget
  end.
Proof.
  intros run res invocations. subst invocations res run.
  unfold DexRetry.smartRetry.
  assert (Hc : DexRetry.counted operation (w, 0%nat)
               = (fst (operation w), (snd (operation w), 1%nat))).
  { unfold DexRetry.counted. cbn [fst snd]. now destruct (operation w). }
  rewrite !Hc. clear Hc.
  destruct (operation w) as [[e|r] w1]; cbn [fst snd].
  - pose proof (executeWithRetry_invocations operation sleep calculateDelay
                  (DexRetry.getRetryManagerForError m e) operationId None w1 1%nat) as H.
    cbv zeta in H. cbn [Retry.merge] in H.
    destruct (Retry.executeWithRetry _ _ _ _ _ _ _) as [[res mgr] [w2 c2]].
    cbn [fst snd] in *. lia.
  - cbn. auto.
Qed.

(** ** Circuit breaker: opening, rejecting, recovering *)

Section BreakerFacts.
Import Breaker.

Local Abbreviation failing := (map (fun t : Z => (t, false))).
Local Abbreviation succeeding := (map (fun t : Z => (t, true))).

Lemma call_failure_closed (b : CircuitBreaker) (t : Z) :
  state b <> OPEN ->
  call b (t, false) = onFailure t b.
Proof.
  intros H. unfold call, execute, scripted. cbn [fst snd].
  destruct (state b); [reflexivity|congruence|reflexivity].
Qed.

Lemma call_success_not_open (b : CircuitBreaker) (t : Z) :
  state b <> OPEN ->
  call b (t, true) = onSuccess b.
Proof.
  intros H. unfold call, execute, scripted. cbn [fst snd].
  destruct (state b); [reflexivity|congruence|reflexivity].
Qed.

(** Failures below the threshold are counted and leave the breaker CLOSED. *)
Lemma calls_failing_closed (ts : list Z) : forall b,
  state b = CLOSED ->
  failureCount b + Z.of_nat (length ts) < failureThreshold b ->
  let b' := calls b (failing ts) in
  state b' = CLOSED
  /\ failureCount b' = failureCount b + Z.of_nat (length ts)
  /\ failureThreshold b' = failureThreshold b
  /\ recoveryTimeMs b' = recoveryTimeMs b
  /\ successThreshold b' = successThreshold b.
Proof.
  induction ts as [|t ts IH]; intros b Hs Hlt; cbn [calls map fold_left length] in *.
  - split_and!; auto; lia.
  - rewrite call_failure_closed by congruence.
    assert (Hf : onFailure t b
                 = mkBreaker (failureCount b + 1) 0 t CLOSED (failureThreshold b)
                             (recoveryTimeMs b) (successThreshold b)).
    { unfold onFailure. cbn.
      destruct (failureThreshold b <=? failureCount b + 1) eqn:E; [lia|].
      now rewrite Hs. }
    rewrite Hf.
    destruct (IH (mkBreaker (failureCount b + 1) 0 t CLOSED (failureThreshold b)
                            (recoveryTimeMs b) (successThreshold b)))
      as (H1 & H2 & H3 & H4 & H5); [reflexivity|cbn; lia|].
    unfold calls in *. cbn in H2, H3, H4, H5. split_and!; auto. lia.
Qed.

(** Successes while HALF_OPEN close the breaker when their count reaches the
    threshold. *)
Lemma calls_succeeding_half_open (ts : list Z) : forall b,
  state b = HALF_OPEN ->
  ts <> [] ->
  successCount b + Z.of_nat (length ts) = successThreshold b ->
  let b' := calls b (succeeding ts) in
  state b' = CLOSED /\ failureCount b' = 0 /\ successCount b' = 0.
Proof.
  induction ts as [|t ts IH]; intros b Hs Hne Hlen; [congruence|].
  cbn [calls map fold_left length] in *.
  rewrite call_success_not_open by congruence.
  unfold onSuccess. cbn [state successCount successThreshold lastFailureTime
                         failureThreshold recoveryTimeMs]. rewrite Hs.
  destruct ts as [|t' ts].
  - cbn [length] in Hlen.
    destruct (successThreshold b <=? successCount b + 1) eqn:E; [|lia].
    cbn. auto.
  - destruct (successThreshold b <=? successCount b + 1) eqn:E;
      [cbn [length] in Hlen; lia|].
    apply (IH (mkBreaker 0 (successCount b + 1) (lastFailureTime b) HALF_OPEN
                         (failureThreshold b) (recoveryTimeMs b) (successThreshold b)));
      [reflexivity|discriminate|].
    cbn [successCount successThreshold]. cbn [length] in *. lia.
Qed.

End BreakerFacts.

(** X6 — the breaker opens at the threshold and then rejects. From a new
    breaker, failures below [failureThreshold] are counted and leave it
    CLOSED; the failure that reaches the threshold opens it and records its
    time. From then on, a call made before [recoveryTimeMs] has elapsed is
    refused with the 503 error of the breaker, without invoking the
    operation: the world and the breaker are as before the call. *)
Theorem breaker_opens_at_threshold_and_rejects (ft rt st : Z) (ts : list Z) (t : Z) :
  1 <= ft ->
  Z.of_nat (length ts) = ft - 1 ->
  let b := Breaker.calls (Breaker.new ft rt st) (map (fun t => (t, false)) ts) in
  let b' := Breaker.call b (t, false) in
  Breaker.state b = Breaker.CLOSED
  /\ Breaker.failureCount b = ft - 1
  /\ Breaker.state b' = Breaker.OPEN
  /\ Breaker.lastFailureTime b' = t
  /\ forall (W T : Type) (Date_now : W -> Z) (operation : W -> (JsError + T) * W) (w : W),
       Date_now w - t < rt ->
       Breaker.execute Date_now operation b' w
       = (inl (EDex (DexErrorFactory.apiError "Circuit Breaker" (Some "503"))), b', w).
Proof.
  intros Hft Hlen b b'.
  destruct (calls_failing_closed ts (Breaker.new ft rt st))
    as (Hs & Hfc & Hth & Hrt & Hst); [reflexivity|cbn; lia|].
  fold b in Hs, Hfc, Hth, Hrt, Hst. cbn in Hfc, Hth, Hrt, Hst.
  assert (Hb' : b' = Breaker.mkBreaker ft 0 t Breaker.OPEN ft rt
                                       (Breaker.successThreshold b)).
  { subst b'. rewrite call_failure_closed by congruence.
    unfold Breaker.onFailure.
    cbn [Breaker.failureThreshold Breaker.failureCount Breaker.recoveryTimeMs
         Breaker.successThreshold Breaker.state].
    rewrite Hfc, Hth, Hrt.
    replace (0 + Z.of_nat (length ts) + 1) with ft by lia.
    rewrite Z.leb_refl. reflexivity. }
  split_and!; [exact Hs|lia|now rewrite Hb'|now rewrite Hb'|].
  intros W T Date_now operation w Hwin. rewrite Hb'.
  unfold Breaker.execute. cbn [Breaker.state Breaker.lastFailureTime Breaker.recoveryTimeMs].
  destruct (Date_now w - t <? rt) eqn:E; [reflexivity|lia].
Qed.

Lemma breaker_opens_at_threshold_and_rejects_witness :
  let b' := Breaker.calls (Breaker.new 5 60000 2)
              [(0, false); (1, false); (2, false); (3, false); (4, false)] in
  Breaker.state b' = Breaker.OPEN
  /\ fst (fst (Breaker.execute fst Breaker.scripted b' (60003, true)))
     = inl (EDex (DexErrorFactory.apiError "Circuit Breaker" (Some "503"))).
Proof.
  intros b'.
  destruct (breaker_opens_at_threshold_and_rejects 5 60000 2 [0; 1; 2; 3] 4)
    as (_ & _ & Hopen & _ & Hreject); [lia|reflexivity|].
  split; [exact Hopen|].
  specialize (Hreject (Z * bool)%type unit fst Breaker.scripted (60003, true)).
  cbn [fst] in Hreject. change b' with
    (Breaker.call
       (Breaker.calls (Breaker.new 5 60000 2) (map (fun t => (t, false)) [0; 1; 2; 3]))
       (4, false)).
  rewrite Hreject by lia. reflexivity.
Defined.

(** X7 — the breaker recovers. An OPEN breaker with no success counted, called
    once [recoveryTimeMs] has elapsed since the last failure, lets the call
    through; after [successThreshold] calls that return, the first of them
    being that trial call, it is CLOSED again with both counters at 0. *)
Theorem breaker_recovers_after_successes (b : Breaker.CircuitBreaker) (t : Z) (ts : list Z) :
  Breaker.state b = Breaker.OPEN ->
  Breaker.successCount b = 0 ->
  Breaker.recoveryTimeMs b <= t - Breaker.lastFailureTime b ->
  Z.of_nat (length (t :: ts)) = Breaker.successThreshold b ->
  let b' := Breaker.calls b (map (fun t => (t, true)) (t :: ts)) in
  fst (fst (Breaker.execute fst Breaker.scripted b (t, true))) = inr tt
  /\ Breaker.state b' = Breaker.CLOSED
  /\ Breaker.failureCount b' = 0
  /\ Breaker.successCount b' = 0.
Proof.
  intros Hs Hsc Hrec Hlen b'.
  assert (Hgate : Breaker.call b (t, true)
                  = Breaker.call (Breaker.set_state b Breaker.HALF_OPEN) (t, true)).
  { unfold Breaker.call, Breaker.execute. rewrite Hs. cbn [fst snd Breaker.state Breaker.set_state].
    destruct (t - Breaker.lastFailureTime b <? Breaker.recoveryTimeMs b) eqn:E; [lia|].
    reflexivity. }
  split.
  - unfold Breaker.execute. rewrite Hs. cbn [fst snd].
    destruct (t - Breaker.lastFailureTime b <? Breaker.recoveryTimeMs b) eqn:E; [lia|].
    reflexivity.
  - subst b'. cbn [map Breaker.calls fold_left]. rewrite Hgate.
    apply (calls_succeeding_half_open (t :: ts) (Breaker.set_state b Breaker.HALF_OPEN));
      [reflexivity|discriminate|].
    cbn [Breaker.set_state Breaker.successCount Breaker.successThreshold]. lia.
Qed.

Lemma breaker_recovers_after_successes_witness :
  let b := Breaker.calls (Breaker.new 5 60000 2)
             [(0, false); (1, false); (2, false); (3, false); (4, false)] in
  Breaker.state (Breaker.calls b [(60004, true); (60005, true)]) = Breaker.CLOSED.
Proof.
  intros b.
  apply (breaker_recovers_after_successes b 60004 [60005]);
    [reflexivity|reflexivity|vm_compute; discriminate|reflexivity].
Defined.

(** X8 — an invariant of the breaker: whenever it is OPEN, the failure count
    has reached the threshold and no success is counted. [execute] keeps it,
    whatever the operation does and whatever the clock reads. *)
Theorem breaker_open_invariant {W T : Type} (Date_now : W -> Z)
    (operation : W -> (JsError + T) * W) (b : Breaker.CircuitBreaker) (w : W) :
  DexRetry.coherent b ->
  DexRetry.coherent (snd (fst (Breaker.execute Date_now operation b w))).
Proof.
  intros Hb. unfold Breaker.execute.
  assert (Hs : forall b1, Breaker.state b1 <> Breaker.OPEN ->
                 DexRetry.coherent (Breaker.onSuccess b1)).
  { intros b1 H1 Ho. exfalso. revert Ho. unfold Breaker.onSuccess. cbn.
    destruct (Breaker.state b1) eqn:E; cbn; try congruence.
    destruct (Breaker.successThreshold b1 <=? Breaker.successCount b1 + 1); cbn; congruence. }
  assert (Hf : forall now b1, Breaker.state b1 <> Breaker.OPEN ->
                 DexRetry.coherent (Breaker.onFailure now b1)).
  { intros now b1 H1. unfold DexRetry.coherent, Breaker.onFailure. cbn.
    destruct (Breaker.failureThreshold b1 <=? Breaker.failureCount b1 + 1) eqn:E; cbn.
    - intros _. split; [lia|reflexivity].
    - intros Ho. congruence. }
  destruct (Breaker.state b) eqn:Es.
  - destruct (operation w) as [[e|r] w']; cbn [fst snd];
      [apply Hf|apply Hs]; congruence.
  - destruct (Date_now w - Breaker.lastFailureTime b <? Breaker.recoveryTimeMs b).
    + exact Hb.
    + destruct (operation w) as [[e|r] w']; cbn [fst snd];
        [apply Hf|apply Hs]; cbn; congruence.
  - destruct (operation w) as [[e|r] w']; cbn [fst snd];
      [apply Hf|apply Hs]; congruence.
Qed.

Lemma breaker_open_invariant_witness :
  DexRetry.coherent
    (snd (fst (Breaker.execute fst Breaker.scripted (Breaker.new 1 60000 2) (0, false)))).
Proof.
  apply (breaker_open_invariant fst Breaker.scripted (Breaker.new 1 60000 2) (0, false)).
  intros H. discriminate H.
Defined.

(** X9 — the trial call of an OPEN breaker. Once [recoveryTimeMs] has elapsed
    the call is let through; if the operation throws, its error is rethrown
    and the breaker is OPEN again with the time of this failure, so that the
    recovery window starts anew. (The failure count was not reset while
    OPEN: this is what distinguishes the first trial call from a later
    one.) *)
Theorem breaker_trial_failure_reopens {W T : Type} (Date_now : W -> Z)
    (operation : W -> (JsError + T) * W) (b : Breaker.CircuitBreaker) (w : W) (e : JsError) :
  DexRetry.coherent b ->
  Breaker.state b = Breaker.OPEN ->
  Breaker.recoveryTimeMs b <= Date_now w - Breaker.lastFailureTime b ->
  fst (operation w) = inl e ->
  let out := Breaker.execute Date_now operation b w in
  let b' := snd (fst out) in
  fst (fst out) = inl e
  /\ snd out = snd (operation w)
  /\ Breaker.state b' = Breaker.OPEN
  /\ Breaker.lastFailureTime b' = Date_now (snd (operation w))
  /\ Breaker.failureCount b' = Breaker.failureCount b + 1.
Proof.
  intros Hc Hs Hrec Hop out b'. subst b' out.
  destruct (Hc Hs) as [Hfc _].
  unfold Breaker.execute. rewrite Hs.
  destruct (Date_now w - Breaker.lastFailureTime b <? Breaker.recoveryTimeMs b) eqn:E; [lia|].
  destruct (operation w) as [[e'|r] w']; cbn [fst snd] in *; [|discriminate].
  injection Hop as ->.
  unfold Breaker.onFailure. cbn.
  destruct (Breaker.failureThreshold b <=? Breaker.failureCount b + 1) eqn:E'; [|lia].
  cbn. auto.
Qed.

Lemma breaker_trial_failure_reopens_witness :
  let b := Breaker.calls (Breaker.new 5 60000 2)
             [(0, false); (1, false); (2, false); (3, false); (4, false)] in
  Breaker.state (Breaker.call b (60004, false)) = Breaker.OPEN
  /\ Breaker.lastFailureTime (Breaker.call b (60004, false)) = 60004.
Proof.
  intros b.
  destruct (breaker_trial_failure_reopens fst Breaker.scripted b (60004, false)
              (EPlain "dependency down"))
    as (_ & _ & Hstate & Htime & _).
  - intros _. vm_compute. split; [discriminate|reflexivity].
  - reflexivity.
  - vm_compute. discriminate.
  - reflexivity.
  - split; [exact Hstate|exact Htime].
Defined.

(** ** Cache: eviction order, expiry, statistics, keys *)

(** X10 — the size bound under the strategies that do not read the ttl. For
    a capacity of at least one and the strategy LRU, LFU or FIFO, a cache that
    starts empty stays within [maxSize] under every sequence of set, get, has,
    delete, cleanup and clear calls whose keys are not the empty string: the
    victim of these strategies is found by the order of access, the access
    count or the creation time, whatever the ttls are. *)
Theorem cache_size_bounded_without_expiry_scan {T : Type} quoteTtl maxSize strategy
    (evs : list (Z * Cache.Op T)) :
  strategy <> Cache.TTL_ONLY ->
  1 <= maxSize ->
  Forall (fun ev => Cache.op_key (snd ev) <> Some "") evs ->
  Cache.cache_size (Cache.run (Cache.new quoteTtl maxSize strategy) evs) <= maxSize.
Proof. intros _ Hmax Hkeys. apply cache_size_bounded; assumption. Qed.

Lemma cache_size_bounded_without_expiry_scan_witness :
  Cache.cache_size
    (Cache.run (Cache.new 30000 2 Cache.LFU)
               [(0, Cache.OpSet "a" 1 None); (1, Cache.OpSet "b" 2 None);
                (2, Cache.OpGet "a"); (3, Cache.OpSet "c" 3 None)]) <= 2.
Proof.
  apply (cache_size_bounded_without_expiry_scan (T := Z)); [discriminate|lia|].
  repeat constructor; discriminate.
Defined.

Section CacheMore.
Import Cache.
Context {T : Type}.
Implicit Types (m : list (string * ExtendedCacheEntry T)) (a : list string) (k : string).
Implicit Types (c : SmartCacheManager T).

Lemma map_get_set_ne k k' (v : ExtendedCacheEntry T) m :
  k <> k' -> map_get k (map_set k' v m) = map_get k m.
Proof.
  intros Hne. induction m as [|[k0 v0] m IH]; cbn.
  - destruct (String.eqb k' k) eqn:E; [apply String.eqb_eq in E; congruence|reflexivity].
  - destruct (String.eqb k0 k') eqn:E; cbn.
    + apply String.eqb_eq in E. subst k0.
      destruct (String.eqb k' k) eqn:E'; [apply String.eqb_eq in E'; congruence|reflexivity].
    + destruct (String.eqb k0 k); auto.
Qed.

Lemma map_get_delete_ne k k' m :
  k <> k' -> map_get k (map_delete k' m) = map_get k m.
Proof.
  intros Hne. induction m as [|[k0 v0] m IH]; cbn; auto.
  destruct (String.eqb k0 k') eqn:E; cbn.
  - apply String.eqb_eq in E. subst k0.
    destruct (String.eqb k' k) eqn:E'; [apply String.eqb_eq in E'; congruence|auto].
  - destruct (String.eqb k0 k); auto.
Qed.

Lemma keys_map_set_has k (v : ExtendedCacheEntry T) m :
  map_has k m = true -> map_keys (map_set k v m) = map_keys m.
Proof.
  unfold map_has, map_keys. induction m as [|[k0 v0] m IH]; cbn; [discriminate|].
  destruct (String.eqb k0 k) eqn:E; cbn; [reflexivity|].
  intros H. now rewrite IH.
Qed.

(** What a hit does to the manager. *)
Lemma get_hit key now c v :
  fst (get key now c) = Some v ->
  exists entry,
    map_get key (cache c) = Some entry
    /\ data entry = v
    /\ expired now entry = false
    /\ let entry' := mkEntry (Cache.key entry) (data entry) (timestamp entry) (ttl entry)
                             (accessCount entry + 1) now (createdAt entry) in
       cache (snd (get key now c)) = map_set key entry' (cache c)
       /\ accessOrder (snd (get key now c))
          = match strategy c with
            | LRU => (remove_first key (accessOrder c) ++ [key])%list
            | _ => accessOrder c
            end
       /\ maxSize (snd (get key now c)) = maxSize c
       /\ strategy (snd (get key now c)) = strategy c.
Proof.
  unfold get, expired. destruct (map_get key (cache c)) as [entry|] eqn:Eg; [|discriminate].
  destruct (ttl entry <? now - timestamp entry) eqn:Ex; [discriminate|].
  cbn [fst snd]. intros H. injection H as <-.
  exists entry. split_and!; auto;
    cbn [strategy with_cache]; destruct (strategy c) eqn:Es; cbn; rewrite ?Es; reflexivity.
Qed.

End CacheMore.

(** X11 — under LRU, an entry that has just been read survives the next
    insertion. If [get(k)] is a hit in a cache that holds another key as well,
    then after a [set] of any other key, also one that finds the cache full
    and evicts, [k] is still cached with its value. *)
Theorem lru_keeps_entry_just_read {T : Type} (c : Cache.SmartCacheManager T)
    (k k' k2 : string) (v d : T) (ttl : option Z) (now now' : Z) :
  Cache.in_step c ->
  Cache.strategy c = Cache.LRU ->
  fst (Cache.get k now c) = Some v ->
  k' ∈ Cache.map_keys (Cache.cache c) ->
  k' <> k ->
  k2 <> k ->
  exists e,
    Cache.map_get k (Cache.cache (Cache.set k2 d ttl now' (snd (Cache.get k now c)))) = Some e
    /\ Cache.data e = v.
Proof.
  intros [Hne Hlru] Hs Hget Hk' Hk'k Hk2.
  destruct (Hlru Hs) as [Hnd Hiff].
  destruct (get_hit k now c v Hget) as (entry & Hm & Hd & _ & Hc & Ho & Hmax & Hst).
  cbv zeta in Hc. rewrite Hs in Ho.
  set (c1 := snd (Cache.get k now c)) in *.
  set (entry' := Cache.mkEntry _ _ _ _ _ _ _) in Hc.
  exists entry'. split; [|exact Hd].
  assert (Hin : k' ∈ Cache.remove_first k (Cache.accessOrder c)).
  { apply elem_remove_first; [exact Hnd|]. split; [now apply Hiff|exact Hk'k]. }
  unfold Cache.set.
  destruct ((Cache.maxSize c1 <=? Cache.cache_size c1)
            && negb (Cache.map_has k2 (Cache.cache c1))) eqn:Efull.
  - (* the insertion evicts the head of the order, which is not [k] *)
    unfold Cache.evictEntry, Cache.keyToEvict. rewrite Hst, Hs, Ho.
    destruct (Cache.remove_first k (Cache.accessOrder c)) as [|x rest] eqn:Er;
      [apply elem_of_nil in Hin; contradiction|].
    cbn [head app].
    assert (Hx : x ∈ Cache.accessOrder c /\ x <> k).
    { apply (elem_remove_first k x (Cache.accessOrder c) Hnd). rewrite Er. left. }
    destruct Hx as [Hxo Hxk].
    assert (Htr : Js.truthy (Some x) = true).
    { destruct x; [|reflexivity]. exfalso. apply Hne. now apply Hiff. }
    rewrite Htr.
    cbn [Cache.count_eviction Cache.with_stats Cache.with_cache Cache.cache Cache.strategy
         Cache.accessOrder Cache.updateAccessOrder Cache.updateStats Cache.quoteTtl
         Cache.maxSize].
    rewrite Hst, Hs.
    cbn [Cache.count_eviction Cache.with_stats Cache.with_cache Cache.cache Cache.strategy
         Cache.accessOrder Cache.updateAccessOrder Cache.updateStats Cache.quoteTtl
         Cache.maxSize].
    rewrite map_get_set_ne by congruence.
    rewrite map_get_delete_ne by congruence.
    rewrite Hc. apply map_get_set_eq.
  - rewrite Hst, Hs.
    cbn [Cache.with_stats Cache.with_cache Cache.cache Cache.strategy
         Cache.accessOrder Cache.updateAccessOrder Cache.updateStats].
    rewrite map_get_set_ne by congruence.
    rewrite Hc. apply map_get_set_eq.
Qed.

Lemma lru_keeps_entry_just_read_witness :
  let c := Cache.run (Cache.new 30000 2 Cache.LRU)
                     [(0, Cache.OpSet "a" 1 None); (1, Cache.OpSet "b" 2 None)] in
  exists e,
    Cache.map_get "a" (Cache.cache (Cache.set "c" 3 None 3 (snd (Cache.get "a" 2 c)))) = Some e
    /\ Cache.data e = 1.
Proof.
  intros c.
  apply (lru_keeps_entry_just_read c "a" "b" "c" 1 3 None 2 3).
  - split.
    + apply (bool_decide_unpack _). vm_compute. exact I.
    + intros _. split.
      * apply (bool_decide_unpack _). vm_compute. exact I.
      * intros x. change (x ∈ ["a"; "b"] <-> x ∈ ["a"; "b"]). reflexivity.
  - reflexivity.
  - reflexivity.
  - apply (bool_decide_unpack _). vm_compute. exact I.
  - discriminate.
  - discriminate.
Defined.

(** X12 — overwriting a cached key never evicts: a [set] on a key the map
    already holds keeps the keys of the map and the eviction count as they
    are, also when the cache is full, and stores the new value. *)
Theorem set_existing_key_never_evicts {T : Type} (c : Cache.SmartCacheManager T)
    (key : string) (d : T) (ttl : option Z) (now : Z) :
  Cache.map_has key (Cache.cache c) = true ->
  let c' := Cache.set key d ttl now c in
  Cache.map_keys (Cache.cache c') = Cache.map_keys (Cache.cache c)
  /\ Cache.evictions (Cache.stats c') = Cache.evictions (Cache.stats c)
  /\ (exists e, Cache.map_get key (Cache.cache c') = Some e /\ Cache.data e = d
                /\ Cache.accessCount e = 1 /\ Cache.timestamp e = now).
Proof.
  intros Hhas c'. subst c'. unfold Cache.set. rewrite Hhas.
  rewrite andb_false_r.
  destruct (Cache.strategy c);
    cbn [Cache.with_stats Cache.with_cache Cache.cache Cache.strategy Cache.stats
         Cache.accessOrder Cache.updateAccessOrder Cache.updateStats Cache.evictions];
    (split_and!; [now apply keys_map_set_has|reflexivity|]);
    eexists; (split; [apply map_get_set_eq|]); cbn; auto.
Qed.

Lemma set_existing_key_never_evicts_witness :
  let c := Cache.set "a" 1 None 0 (Cache.new 30000 1 Cache.LRU) in
  Cache.map_keys (Cache.cache (Cache.set "a" 2 None 5 c)) = ["a"]
  /\ Cache.evictions (Cache.stats (Cache.set "a" 2 None 5 c)) = 0.
Proof.
  intros c.
  destruct (set_existing_key_never_evicts c "a" 2 None 5) as (Hk & He & _);
    [reflexivity|].
  split; [exact Hk|exact He].
Defined.

Section CacheScan.
Import Cache.
Context {T : Type}.
Implicit Types (m : list (string * ExtendedCacheEntry T)) (k : string).

(** A scan that has a candidate ends on a candidate whose measure is minimal
    among the entries scanned and not above the one it started with. *)
Lemma scan_min_minimal (f : ExtendedCacheEntry T -> Z) m : forall b k0,
  exists b' k,
    fold_left
      (fun (acc : option Z * option string) (p : string * ExtendedCacheEntry T) =>
         match fst acc with
         | None => (Some (f (snd p)), Some (fst p))
         | Some best =>
             if f (snd p) <? best then (Some (f (snd p)), Some (fst p)) else acc
         end) m (Some b, Some k0) = (Some b', Some k)
    /\ b' <= b
    /\ (forall p, p ∈ m -> b' <= f (snd p))
    /\ ((k = k0 /\ b' = b) \/ exists e, (k, e) ∈ m /\ f e = b').
Proof.
  induction m as [|[k1 v1] m IH]; intros b k0; cbn [fold_left fst snd].
  - exists b, k0. split_and!; auto; [lia|]. intros p Hp. apply elem_of_nil in Hp. contradiction.
  - destruct (f v1 <? b) eqn:E.
    + destruct (IH (f v1) k1) as (b' & k & -> & Hle & Hall & Hk).
      exists b', k. split_and!; auto; [lia| |].
      * intros p Hp. apply elem_of_cons in Hp as [->|Hp]; [exact Hle|auto].
      * right. destruct Hk as [[-> ->]|(e & He & Hf)].
        -- exists v1. split; [left|reflexivity].
        -- exists e. split; [now right|exact Hf].
    + destruct (IH b k0) as (b' & k & -> & Hle & Hall & Hk).
      exists b', k. split_and!; auto.
      * intros p Hp. apply elem_of_cons in Hp as [->|Hp]; [cbn; lia|auto].
      * destruct Hk as [[-> ->]|(e & He & Hf)]; [now left|].
        right. exists e. split; [now right|exact Hf].
Qed.

Lemma scan_min_is_minimal (f : ExtendedCacheEntry T -> Z) m :
  m <> [] ->
  exists k e, scan_min f m = Some k /\ (k, e) ∈ m
              /\ forall p, p ∈ m -> f e <= f (snd p).
Proof.
  destruct m as [|[k1 v1] m]; [congruence|]. intros _.
  unfold scan_min. cbn [fold_left fst snd].
  destruct (scan_min_minimal f m (f v1) k1) as (b' & k & -> & Hle & Hall & Hk).
  cbn [snd]. destruct Hk as [[-> ->]|(e & He & Hf)].
  - exists k1, v1. split_and!; [reflexivity|left|].
    intros p Hp. apply elem_of_cons in Hp as [->|Hp]; [cbn; lia|auto].
  - exists k, e. split_and!; [reflexivity|now right|].
    intros p Hp. rewrite Hf. apply elem_of_cons in Hp as [->|Hp]; [exact Hle|auto].
Qed.

End CacheScan.

(** X13 — the victim under LFU and FIFO. On a cache that is not empty, LFU
    picks the key of an entry whose access count is minimal among all
    entries, and FIFO the key of an entry whose creation time is. *)
Theorem eviction_victim_is_minimal {T : Type} (c : Cache.SmartCacheManager T) :
  Cache.strategy c = Cache.LFU \/ Cache.strategy c = Cache.FIFO ->
  Cache.cache c <> [] ->
  exists k e,
    Cache.keyToEvict c = Some k
    /\ (k, e) ∈ Cache.cache c
    /\ forall p, p ∈ Cache.cache c ->
         Cache.measure (Cache.strategy c) e <= Cache.measure (Cache.strategy c) (snd p).
Proof.
  intros Hs Hne. unfold Cache.keyToEvict.
  destruct (Cache.strategy c); [destruct Hs; discriminate| | |destruct Hs; discriminate].
  - exact (scan_min_is_minimal Cache.accessCount (Cache.cache c) Hne).
  - exact (scan_min_is_minimal Cache.createdAt (Cache.cache c) Hne).
Qed.

Lemma eviction_victim_is_minimal_witness :
  let c := Cache.run (Cache.new 30000 3 Cache.LFU)
                     [(0, Cache.OpSet "a" 1 None); (1, Cache.OpSet "b" 2 None);
                      (2, Cache.OpGet "a")] in
  exists k e, Cache.keyToEvict c = Some k /\ (k, e) ∈ Cache.cache c
              /\ Cache.accessCount e <= 1.
Proof.
  intros c.
  destruct (eviction_victim_is_minimal c) as (k & e & Hk & He & Hmin);
    [left; reflexivity|discriminate|].
  exists k, e. split_and!; [exact Hk|exact He|].
  apply (Hmin ("b", Cache.mkEntry "b" 2 1 30000 1 1 1)).
  right. left.
Defined.

Section CacheSweep.
Import Cache.
Context {T : Type}.
Implicit Types (m : list (string * ExtendedCacheEntry T)) (k : string).
Implicit Types (c : SmartCacheManager T).

(** [x] is none of the keys [ks]. *)
Local Abbreviation none_of ks :=
  (fun p : string * ExtendedCacheEntry T =>
     forallb (fun k => negb (String.eqb (fst p) k)) ks).

Lemma map_delete_filter k m :
  map_delete k m = List.filter (fun p => negb (String.eqb (fst p) k)) m.
Proof.
  induction m as [|[k0 v0] m IH]; cbn; auto.
  destruct (String.eqb k0 k); cbn; congruence.
Qed.

Lemma filter_filter {A} (f g : A -> bool) (l : list A) :
  List.filter f (List.filter g l) = List.filter (fun x => g x && f x) l.
Proof.
  induction l as [|x l IH]; cbn; auto.
  destruct (g x); cbn; [destruct (f x)|]; congruence.
Qed.

Lemma map_delete_absent k m : map_has k m = false -> map_delete k m = m.
Proof.
  unfold map_has. induction m as [|[k0 v0] m IH]; cbn; auto.
  destruct (String.eqb k0 k); [discriminate|]. intros H. now rewrite IH.
Qed.

Lemma none_of_spec (x : string) (ks : list string) :
  forallb (fun k => negb (String.eqb x k)) ks = true <-> x ∉ ks.
Proof.
  induction ks as [|k ks IH]; cbn [forallb].
  - split; [intros _; apply not_elem_of_nil|reflexivity].
  - rewrite andb_true_iff, IH, not_elem_of_cons, negb_true_iff.
    split; intros [H1 H2]; split; auto.
    + now apply String.eqb_neq.
    + now apply String.eqb_neq.
Qed.

(** The loop of [cleanup]: the entries of the listed keys go, nothing else
    changes. *)
Lemma sweep_cache ks : forall c,
  let c' := fold_left (fun acc k => with_cache acc (map_delete k (cache acc))
                                               (remove_first k (accessOrder acc))) ks c in
  cache c' = List.filter (none_of ks) (cache c)
  /\ stats c' = stats c /\ maxSize c' = maxSize c
  /\ strategy c' = strategy c /\ quoteTtl c' = quoteTtl c.
Proof.
  induction ks as [|k ks IH]; intros c; cbn [fold_left].
  - split_and!; auto. cbn. induction (cache c) as [|p m IHm]; cbn; congruence.
  - destruct (IH (with_cache c (map_delete k (cache c)) (remove_first k (accessOrder c))))
      as (H1 & H2 & H3 & H4 & H5).
    cbv zeta. rewrite H1, H2, H3, H4, H5. cbn [cache with_cache stats maxSize strategy quoteTtl].
    split_and!; auto.
    rewrite map_delete_filter, filter_filter. reflexivity.
Qed.

Lemma unique_entry m : forall p p',
  NoDup (map_keys m) -> p ∈ m -> p' ∈ m -> fst p = fst p' -> p = p'.
Proof.
  unfold map_keys. induction m as [|q m IH]; intros p p' Hnd Hp Hp' Hk.
  - apply elem_of_nil in Hp. contradiction.
  - cbn in Hnd. apply NoDup_cons in Hnd as [Hq Hnd].
    apply elem_of_cons in Hp as [->|Hp]; apply elem_of_cons in Hp' as [->|Hp']; auto.
    + exfalso. apply Hq. rewrite Hk. change (fst p' ∈ fst <$> m).
      now apply list_elem_of_fmap_2.
    + exfalso. apply Hq. rewrite <- Hk. change (fst p ∈ fst <$> m).
      now apply list_elem_of_fmap_2.
Qed.

Lemma elem_filter {A} (f : A -> bool) (l : list A) (x : A) :
  x ∈ List.filter f l <-> x ∈ l /\ f x = true.
Proof. rewrite !list_elem_of_In. apply filter_In. Qed.

End CacheSweep.

(** X14 — [cleanup] removes exactly the expired entries. On a map (one entry
    per key), the entries left are those whose ttl has not elapsed at the
    clock reading of the call, in their order; the number returned is the
    number of expired entries; the size statistic is brought up to date, and
    removals by expiry are not counted as evictions. *)
Theorem cleanup_removes_exactly_expired {T : Type} (c : Cache.SmartCacheManager T) (now : Z) :
  Cache.unique_keys c ->
  let out := Cache.cleanup now c in
  Cache.cache (snd out)
  = List.filter (fun p => negb (Cache.expired now (snd p))) (Cache.cache c)
  /\ fst out
     = Z.of_nat (length (List.filter (fun p => Cache.expired now (snd p)) (Cache.cache c)))
  /\ Cache.size (Cache.stats (snd out)) = Cache.cache_size (snd out)
  /\ Cache.evictions (Cache.stats (snd out)) = Cache.evictions (Cache.stats c).
Proof.
  intros Hu out. subst out. unfold Cache.cleanup. cbn [fst snd].
  destruct (sweep_cache (Cache.expiredKeys now c) c) as (Hc & Hst & _).
  cbv zeta in Hc, Hst.
  cbn [Cache.updateStats Cache.with_stats Cache.cache Cache.stats Cache.size Cache.evictions].
  rewrite Hc, Hst.
  split_and!; [|unfold Cache.expiredKeys; rewrite length_map; reflexivity| |reflexivity].
  - apply filter_ext_in. intros [k e] Hin. apply list_elem_of_In in Hin.
    cbn [fst snd]. destruct (Cache.expired now e) eqn:Ex; cbn [negb].
    + apply not_true_is_false. rewrite none_of_spec. intros Hn. apply Hn.
      unfold Cache.expiredKeys. change (k ∈ fst <$> List.filter
        (fun p => Cache.ttl (snd p) <? now - Cache.timestamp (snd p)) (Cache.cache c)).
      apply (list_elem_of_fmap_2' fst _ (k, e)); [|reflexivity].
      apply elem_filter. split; [exact Hin|exact Ex].
    + apply none_of_spec. intros Hk. unfold Cache.expiredKeys in Hk.
      change (k ∈ fst <$> List.filter
        (fun p => Cache.ttl (snd p) <? now - Cache.timestamp (snd p)) (Cache.cache c)) in Hk.
      apply list_elem_of_fmap_1 in Hk as ([k' e'] & Hkk & Hin').
      apply elem_filter in Hin' as [Hin' Hex]. cbn in Hkk, Hex. subst k'.
      assert (E : (k, e) = (k, e')) by (apply (unique_entry (Cache.cache c)); auto).
      injection E as ->. unfold Cache.expired in Ex. congruence.
  - unfold Cache.cache_size, Cache.updateStats. cbn [Cache.cache Cache.with_stats].
    rewrite ?Hc. reflexivity.
Qed.

Lemma cleanup_removes_exactly_expired_witness :
  let c := Cache.run (Cache.new 30000 3 Cache.LRU)
                     [(0, Cache.OpSet "a" 1 (Some 10)); (1, Cache.OpSet "b" 2 (Some 100))] in
  fst (Cache.cleanup 50 c) = 1
  /\ Cache.map_keys (Cache.cache (snd (Cache.cleanup 50 c))) = ["b"].
Proof.
  intros c.
  destruct (cleanup_removes_exactly_expired c 50) as (Hc & Hn & _).
  - apply (bool_decide_unpack _). vm_compute. exact I.
  - cbv zeta in Hc, Hn. split; [rewrite Hn|rewrite Hc]; reflexivity.
Defined.

Section CacheStatistics.
Import Cache.
Context {T : Type}.
Implicit Types (c : SmartCacheManager T).

(** The number of lookups counted so far. *)
Local Abbreviation lookups c := (hits (stats c) + misses (stats c)).

Lemma evictEntry_lookups c : lookups (evictEntry c) = lookups c.
Proof.
  unfold evictEntry. destruct (keyToEvict c) as [k|]; [|reflexivity].
  destruct (Js.truthy (Some k)); reflexivity.
Qed.

Lemma set_lookups key (d : T) ttl now c : lookups (set key d ttl now c) = lookups c.
Proof.
  unfold set.
  destruct ((maxSize c <=? cache_size c) && negb (map_has key (cache c))).
  - rewrite <- (evictEntry_lookups c).
    destruct (strategy (evictEntry c)); reflexivity.
  - destruct (strategy c); reflexivity.
Qed.

Lemma get_lookups key now c :
  lookups (snd (get key now c)) = lookups c + 1
  /\ (hits (stats (snd (get key now c)))
      = hits (stats c) + match fst (get key now c) with Some _ => 1 | None => 0 end).
Proof.
  unfold get. destruct (map_get key (cache c)) as [e|]; [|cbn; lia].
  destruct (ttl e <? now - timestamp e); [cbn; lia|].
  cbn [fst snd]. cbn [strategy with_cache].
  destruct (strategy c); cbn; lia.
Qed.

Lemma apply_lookups c (ev : Z * Op T) :
  snd ev <> OpClear ->
  lookups (apply c ev)
  = lookups c + match snd ev with OpGet _ => 1 | _ => 0 end.
Proof.
  destruct ev as [now [k d t|k|k|k| |]]; cbn [snd fst apply]; intros Hne.
  - rewrite set_lookups. lia.
  - apply get_lookups.
  - unfold has. destruct (map_get k (cache c)) as [e|]; [|cbn; lia].
    destruct (ttl e <? now - timestamp e); cbn; lia.
  - unfold delete. destruct (map_has k (cache c)); cbn; lia.
  - unfold cleanup. cbn [snd].
    destruct (sweep_cache (expiredKeys now c) c) as (_ & Hst & _). cbv zeta in Hst.
    cbn [updateStats with_stats stats hits misses]. rewrite Hst. lia.
  - congruence.
Qed.

End CacheStatistics.

(** X15 — every lookup is counted once. Over any sequence of calls that does
    not clear the cache, [hits + misses] grows by the number of [get] calls:
    each [get] counts exactly one of the two (a hit exactly when it returns a
    value), and [set], [has], [delete] and [cleanup] count none. *)
Theorem hits_and_misses_count_gets {T : Type} (evs : list (Z * Cache.Op T)) :
  forall c : Cache.SmartCacheManager T,
  Forall (fun ev => snd ev <> Cache.OpClear) evs ->
  let gets := List.filter (fun ev : Z * Cache.Op T =>
                             match snd ev with Cache.OpGet _ => true | _ => false end) evs in
  Cache.hits (Cache.stats (Cache.run c evs)) + Cache.misses (Cache.stats (Cache.run c evs))
  = Cache.hits (Cache.stats c) + Cache.misses (Cache.stats c) + Z.of_nat (length gets).
Proof.
  unfold Cache.run. induction evs as [|ev evs IH]; intros c Hall; cbn [fold_left List.filter].
  - cbn. lia.
  - apply Forall_cons in Hall as [Hev Hall].
    specialize (IH (Cache.apply c ev) Hall). cbv zeta in IH. rewrite IH.
    rewrite (apply_lookups c ev Hev).
    destruct (snd ev); cbn [length]; lia.
Qed.

Lemma hits_and_misses_count_gets_witness :
  let c := Cache.run (Cache.new 30000 2 Cache.LRU)
                     [(0, Cache.OpSet "a" 1 None); (1, Cache.OpGet "a");
                      (2, Cache.OpGet "b"); (3, Cache.OpHas "a")] in
  Cache.hits (Cache.stats c) + Cache.misses (Cache.stats c) = 2.
Proof.
  intros c. subst c.
  rewrite (hits_and_misses_count_gets
             [(0, Cache.OpSet "a" 1 None); (1, Cache.OpGet "a");
              (2, Cache.OpGet "b"); (3, Cache.OpHas "a")]
             (Cache.new 30000 2 Cache.LRU)).
  - reflexivity.
  - repeat constructor; discriminate.
Defined.

(** ** Quote keys *)

Lemma append_nil (s : string) : ("" ++ s)%string = s.
Proof. reflexivity. Qed.

Lemma append_cons (x : ascii) (a s : string) :
  (String x a ++ s)%string = String x (a ++ s).
Proof. reflexivity. Qed.

Lemma append_assoc (a b c : string) : ((a ++ b) ++ c)%string = (a ++ b ++ c)%string.
Proof.
  induction a as [|x a IH]; [reflexivity|].
  rewrite !append_cons. now rewrite IH.
Qed.

Lemma prefix_append (p r : string) : String.prefix p (p ++ r) = true.
Proof.
  induction p as [|x p IH]; [now destruct r|].
  rewrite append_cons. cbn [String.prefix].
  destruct (ascii_dec x x); [exact IH|congruence].
Qed.

(** Two strings that agree up to their first separator. *)
Lemma split_at_colon (a : string) : forall a' b b',
  Cache.colon_free a = true -> Cache.colon_free a' = true ->
  (a ++ String ":" b)%string = (a' ++ String ":" b')%string ->
  a = a' /\ b = b'.
Proof.
  induction a as [|x a IH]; intros [|x' a'] b b' Ha Ha' E;
    rewrite ?append_nil, ?append_cons in E.
  - injection E as ->. auto.
  - injection E as <- _. cbn in Ha'. discriminate.
  - injection E as -> _. cbn in Ha. discriminate.
  - injection E as -> E. cbn in Ha, Ha'.
    apply andb_true_iff in Ha as [_ Ha]. apply andb_true_iff in Ha' as [_ Ha'].
    destruct (IH a' b b' Ha Ha' E) as [-> ->]. auto.
Qed.

(** X16 — the keys of the quote cache tell requests apart: for token
    addresses and amounts that do not contain a colon, two requests have the
    same key only if they agree on both tokens, the amount and the
    slippage. *)
Theorem generateQuoteKey_injective (f t a s f' t' a' s' : string) :
  Cache.colon_free f = true -> Cache.colon_free t = true -> Cache.colon_free a = true ->
  Cache.colon_free f' = true -> Cache.colon_free t' = true -> Cache.colon_free a' = true ->
  Cache.generateQuoteKey f t a s = Cache.generateQuoteKey f' t' a' s' ->
  f = f' /\ t = t' /\ a = a' /\ s = s'.
Proof.
  intros Hf Ht Ha Hf' Ht' Ha' E. unfold Cache.generateQuoteKey in E.
  rewrite !append_cons, !append_nil in E. injection E as E.
  apply split_at_colon in E as [-> E]; auto.
  apply split_at_colon in E as [-> E]; auto.
  apply split_at_colon in E as [-> ->]; auto.
Qed.

Lemma generateQuoteKey_injective_witness :
  "0xusdc" = "0xusdc" /\ "0xwokb" = "0xwokb" /\ "1000000" = "1000000" /\ "0.5" = "0.5".
Proof.
  apply (generateQuoteKey_injective "0xusdc" "0xwokb" "1000000" "0.5"
                                    "0xusdc" "0xwokb" "1000000" "0.5");
    reflexivity.
Defined.

Section CachePrefix.
Import Cache.
Context {T : Type}.
Implicit Types (m : list (string * ExtendedCacheEntry T)) (k : string).
Implicit Types (c : SmartCacheManager T).

Local Abbreviation none_of ks :=
  (fun p : string * ExtendedCacheEntry T =>
     forallb (fun k => negb (String.eqb (fst p) k)) ks).

Local Abbreviation delete_step :=
  (fun (acc : Z * SmartCacheManager T) key =>
     let '(deleted, c') := delete key (snd acc) in
     (if deleted then fst acc + 1 else fst acc, c')).

Lemma delete_cache key c :
  cache (snd (delete key c)) = map_delete key (cache c)
  /\ hits (stats (snd (delete key c))) = hits (stats c)
  /\ misses (stats (snd (delete key c))) = misses (stats c)
  /\ evictions (stats (snd (delete key c))) = evictions (stats c).
Proof.
  unfold delete. destruct (map_has key (cache c)) eqn:E; cbn; [auto|].
  now rewrite map_delete_absent.
Qed.

Lemma delete_loop_cache ks : forall n c,
  let out := fold_left delete_step ks (n, c) in
  cache (snd out) = List.filter (none_of ks) (cache c)
  /\ hits (stats (snd out)) = hits (stats c)
  /\ misses (stats (snd out)) = misses (stats c)
  /\ evictions (stats (snd out)) = evictions (stats c).
Proof.
  induction ks as [|k ks IH]; intros n c; cbn [fold_left].
  - cbn. split_and!; auto. induction (cache c) as [|p m IHm]; cbn; congruence.
  - cbn [snd fst]. destruct (delete_cache k c) as (Hc & Hh & Hm & He).
    destruct (delete k c) as [deleted c1]. cbn [snd] in *.
    destruct (IH (if deleted then n + 1 else n) c1) as (H1 & H2 & H3 & H4).
    cbv zeta. rewrite H1, H2, H3, H4, Hc, Hh, Hm, He.
    split_and!; auto.
    rewrite map_delete_filter, filter_filter. reflexivity.
Qed.

Lemma delete_loop_count ks : forall n c,
  NoDup ks ->
  (forall k, k ∈ ks -> map_has k (cache c) = true) ->
  fst (fold_left delete_step ks (n, c)) = n + Z.of_nat (length ks).
Proof.
  induction ks as [|k ks IH]; intros n c Hnd Hall; cbn [fold_left length].
  - cbn. lia.
  - apply NoDup_cons in Hnd as [Hk Hnd]. cbn [snd fst].
    destruct (delete_cache k c) as (Hc & _).
    assert (Hd : fst (delete k c) = true).
    { unfold delete. rewrite (Hall k); [reflexivity|left]. }
    destruct (delete k c) as [deleted c1]. cbn [fst snd] in *. subst deleted.
    rewrite IH; [lia|exact Hnd|].
    intros k' Hk'. rewrite Hc. unfold map_has.
    rewrite map_get_delete_ne by (intros ->; contradiction).
    apply (Hall k'). now right.
Qed.

Lemma map_get_filter (g : string -> bool) k m :
  map_get k (List.filter (fun p => g (fst p)) m) = if g k then map_get k m else None.
Proof.
  induction m as [|[k0 v0] m IH]; cbn [List.filter map_get fst].
  - now destruct (g k).
  - destruct (g k0) eqn:E0; cbn [map_get].
    + destruct (String.eqb k0 k) eqn:E; [|exact IH].
      apply String.eqb_eq in E. subst k0. now rewrite E0.
    + destruct (String.eqb k0 k) eqn:E; [|exact IH].
      apply String.eqb_eq in E. subst k0. rewrite E0 in *. exact IH.
Qed.

Lemma NoDup_filter_keys (g : string -> bool) (ks : list string) :
  NoDup ks -> NoDup (List.filter g ks).
Proof.
  induction 1 as [|x l Hx Hnd IH]; cbn; [constructor|].
  destruct (g x); [|exact IH]. constructor; [|exact IH].
  intros H. apply Hx. apply elem_filter in H. tauto.
Qed.

(** What [deleteByPrefix] leaves. *)
Lemma deleteByPrefix_cache prefix c :
  cache (snd (deleteByPrefix prefix c))
  = List.filter (fun p => negb (String.prefix prefix (fst p))) (cache c).
Proof.
  unfold deleteByPrefix.
  destruct (delete_loop_cache (List.filter (String.prefix prefix) (map_keys (cache c))) 0 c)
    as (Hc & _).
  cbv zeta in Hc. rewrite Hc.
  apply filter_ext_in. intros [k e] Hin. cbn [fst].
  destruct (String.prefix prefix k) eqn:Ep; cbn [negb].
  - apply not_true_is_false. rewrite none_of_spec. intros Hn. apply Hn.
    apply elem_filter. split; [|exact Ep].
    unfold map_keys. change (k ∈ fst <$> cache c).
    apply (list_elem_of_fmap_2' fst _ (k, e)); [now apply list_elem_of_In|reflexivity].
  - apply none_of_spec. intros Hk. apply elem_filter in Hk as [_ Hk]. congruence.
Qed.

End CachePrefix.

(** X17 — [clearPairQuotes] removes every quote of the pair and nothing
    else. Afterwards no key generated for that pair, whatever the amount and
    the slippage, is in the map; every key that does not start with the
    prefix of the pair keeps its entry; on a map (one entry per key) the
    number returned is the number of keys that carried the prefix; hits,
    misses and evictions are as before. *)
Theorem clearPairQuotes_removes_the_pair {T : Type} (c : Cache.SmartCacheManager T)
    (fromToken toToken : string) :
  Cache.unique_keys c ->
  let prefix := "quote:" ++ fromToken ++ ":" ++ toToken ++ ":" in
  let out := Cache.clearPairQuotes fromToken toToken c in
  (forall amount slippage,
     Cache.map_get (Cache.generateQuoteKey fromToken toToken amount slippage)
                   (Cache.cache (snd out)) = None)
  /\ (forall k, String.prefix prefix k = false ->
        Cache.map_get k (Cache.cache (snd out)) = Cache.map_get k (Cache.cache c))
  /\ fst out = Z.of_nat (length (List.filter (String.prefix prefix)
                                             (Cache.map_keys (Cache.cache c))))
  /\ Cache.hits (Cache.stats (snd out)) = Cache.hits (Cache.stats c)
  /\ Cache.misses (Cache.stats (snd out)) = Cache.misses (Cache.stats c)
  /\ Cache.evictions (Cache.stats (snd out)) = Cache.evictions (Cache.stats c).
Proof.
  intros Hu prefix out. subst out. unfold Cache.clearPairQuotes. fold prefix.
  pose proof (deleteByPrefix_cache prefix c) as Hc.
  split_and!.
  - intros amount slippage. rewrite Hc.
    rewrite (map_get_filter (fun k => negb (String.prefix prefix k))).
    assert (Hk : Cache.generateQuoteKey fromToken toToken amount slippage
                 = (prefix ++ amount ++ ":" ++ slippage)%string).
    { unfold Cache.generateQuoteKey, prefix. now rewrite !append_assoc. }
    rewrite Hk, prefix_append. reflexivity.
  - intros k Hk. rewrite Hc.
    rewrite (map_get_filter (fun k => negb (String.prefix prefix k))).
    now rewrite Hk.
  - unfold Cache.deleteByPrefix. rewrite delete_loop_count; [lia| |].
    + apply NoDup_filter_keys, Hu.
    + intros k Hk. apply elem_filter in Hk as [Hk _]. now apply map_has_elem.
  - unfold Cache.deleteByPrefix.
    now destruct (delete_loop_cache (List.filter (String.prefix prefix)
                                       (Cache.map_keys (Cache.cache c))) 0 c)
      as (_ & H & _).
  - unfold Cache.deleteByPrefix.
    now destruct (delete_loop_cache (List.filter (String.prefix prefix)
                                       (Cache.map_keys (Cache.cache c))) 0 c)
      as (_ & _ & H & _).
  - unfold Cache.deleteByPrefix.
    now destruct (delete_loop_cache (List.filter (String.prefix prefix)
                                       (Cache.map_keys (Cache.cache c))) 0 c)
      as (_ & _ & _ & H).
Qed.

Lemma clearPairQuotes_removes_the_pair_witness :
  let c := Cache.setQuote "0xa" "0xb" "2" "0.5" 12 None 1
             (Cache.setQuote "0xa" "0xc" "1" "0.5" 11 None 1
                (Cache.setQuote "0xa" "0xb" "1" "0.5" 10 None 0
                   (Cache.newQuoteCache 30000 100))) in
  fst (Cache.clearPairQuotes "0xa" "0xb" c) = 2
  /\ fst (Cache.getQuote "0xa" "0xb" "1" "0.5" 2 (snd (Cache.clearPairQuotes "0xa" "0xb" c)))
     = None.
Proof.
  intros c.
  destruct (clearPairQuotes_removes_the_pair c "0xa" "0xb") as (Hgone & _ & Hn & _).
  - apply (bool_decide_unpack _). vm_compute. exact I.
  - cbv zeta in Hgone, Hn. split; [rewrite Hn; reflexivity|].
    unfold Cache.getQuote, Cache.get. now rewrite Hgone.
Defined.

(** ** The two-level cache *)

Section CacheRoundTrip.
Import Cache.
Context {T : Type}.
Implicit Types (c : SmartCacheManager T).

Lemma evictEntry_config c :
  quoteTtl (evictEntry c) = quoteTtl c /\ strategy (evictEntry c) = strategy c.
Proof.
  unfold evictEntry. destruct (keyToEvict c) as [k|]; [|auto].
  destruct (Js.truthy (Some k)); auto.
Qed.

(** The entry a [set] stores. *)
Lemma set_entry key (d : T) ttl now c :
  map_get key (cache (set key d ttl now c))
  = Some (mkEntry key d now (default (quoteTtl c) ttl) 1 now now)
  /\ quoteTtl (set key d ttl now c) = quoteTtl c.
Proof.
  unfold set.
  destruct ((maxSize c <=? cache_size c) && negb (map_has key (cache c))).
  - destruct (evictEntry_config c) as [Hq Hs].
    destruct (strategy (evictEntry c));
      cbn [updateStats with_stats with_cache cache quoteTtl updateAccessOrder];
      (split; [apply map_get_set_eq|exact Hq]).
  - destruct (strategy c);
      cbn [updateStats with_stats with_cache cache quoteTtl updateAccessOrder];
      (split; [apply map_get_set_eq|reflexivity]).
Qed.

Lemma get_after_set key (d : T) ttl now now' c :
  fst (get key now' (set key d ttl now c))
  = if default (quoteTtl c) ttl <? now' - now then None else Some d.
Proof.
  destruct (set_entry key d ttl now c) as [He _].
  unfold get. rewrite He. cbn [Cache.ttl timestamp data].
  destruct (default (quoteTtl c) ttl <? now' - now); reflexivity.
Qed.

Lemma get_quoteTtl key now c : quoteTtl (snd (get key now c)) = quoteTtl c.
Proof.
  unfold get. destruct (map_get key (cache c)) as [e|]; [|reflexivity].
  destruct (ttl e <? now - timestamp e); [reflexivity|].
  cbn [snd strategy with_cache]. destruct (strategy c); reflexivity.
Qed.

End CacheRoundTrip.

(** X18 — an entry of the two-level cache outlives its ttl five times. After
    [set(key, data, ttl)] with a positive ttl and a value that is truthy, on a
    manager with a second level: a [get] within five times the ttl returns the
    value without invoking the data provider; once the ttl itself has elapsed
    the value comes from the second level and is stored again in the first,
    under the first level's default ttl and with the time of the [get]; after
    five times the ttl both levels miss and the provider decides. *)
Theorem tiered_get_after_set {T : Type} (truthy : T -> bool)
    (tc : Tiered.TieredCacheManager T) (l2 : Cache.SmartCacheManager T)
    (key : string) (data : T) (ttl now now' : Z) (dataProvider : option ((JsError + T) * Z)) :
  Tiered.l2Cache tc = Some l2 ->
  truthy data = true ->
  0 < ttl ->
  let out := Tiered.get truthy key dataProvider now'
                        (Tiered.set key data (Some ttl) now tc) in
  (now' - now <= 5 * ttl -> fst out = (Some data, false))
  /\ (ttl < now' - now <= 5 * ttl ->
      Cache.map_get key (Cache.cache (Tiered.l1Cache (snd out)))
      = Some (Cache.mkEntry key data now' (Cache.quoteTtl (Tiered.l1Cache tc)) 1 now' now'))
  /\ (5 * ttl < now' - now ->
      fst out = match dataProvider with
                | Some (inr fetched, _) => (Some fetched, true)
                | Some (inl _, _) => (None, true)
                | None => (None, false)
                end).
Proof.
  intros Hl2 Htr Hpos out. subst out.
  unfold Tiered.set. rewrite Hl2.
  destruct (ttl =? 0) eqn:E0; [lia|].
  unfold Tiered.get. cbn [Tiered.l1Cache Tiered.l2Cache].
  pose proof (get_after_set key data (Some ttl) now now' (Tiered.l1Cache tc)) as H1.
  pose proof (get_after_set key data (Some (ttl * 5)) now now' l2) as H2.
  pose proof (get_quoteTtl key now' (Cache.set key data (Some ttl) now (Tiered.l1Cache tc)))
    as Hq.
  destruct (set_entry key data (Some ttl) now (Tiered.l1Cache tc)) as [_ Hq'].
  rewrite Hq' in Hq. clear Hq'.
  cbn [default from_option id] in H1, H2.
  destruct (Cache.get key now' (Cache.set key data (Some ttl) now (Tiered.l1Cache tc)))
    as [data1 l1'].
  destruct (Cache.get key now' (Cache.set key data (Some (ttl * 5)) now l2))
    as [data2 l2'].
  cbn [fst snd] in H1, H2, Hq. subst data1 data2.
  destruct (ttl <? now' - now) eqn:E1; destruct (ttl * 5 <? now' - now) eqn:E2;
    rewrite ?Htr; cbn [fst snd Tiered.l1Cache].
  - split_and!; [lia|lia|]. intros _. destruct dataProvider as [[[e|d] fetched]|]; reflexivity.
  - split_and!; [reflexivity| |lia]. intros _.
    destruct (set_entry key data None now' l1') as [He _]. rewrite He, Hq. reflexivity.
  - lia.
  - split_and!; [reflexivity|lia|lia].
Qed.

Lemma tiered_get_after_set_witness :
  let tc := Tiered.new (Tiered.mkPartialConfig (Some 30000) (Some 10))
                       (Some (Tiered.mkPartialConfig None None)) in
  fst (Tiered.get (fun n : Z => negb (n =? 0)) "k" None 4000
                  (Tiered.set "k" 7 (Some 1000) 0 tc)) = (Some 7, false).
Proof.
  intros tc.
  destruct (tiered_get_after_set (fun n : Z => negb (n =? 0)) tc
              (Tiered.newSmartCacheManager (Tiered.mkPartialConfig (Some 300000) None)
                                           Cache.LFU)
              "k" 7 1000 0 4000 None) as (Hhit & _);
    [reflexivity|reflexivity|lia|].
  apply Hhit. lia.
Defined.

(** The association list stays a map: every manager reached from a new one
    holds one entry per key, so the hypothesis [unique_keys] of the
    statements above is met by every cache that calls can build. *)
Section CacheKeys.
Import Cache.
Context {T : Type}.
Implicit Types (m : list (string * ExtendedCacheEntry T)) (k : string).
Implicit Types (c : SmartCacheManager T).

Lemma unique_map_delete k m : NoDup (map_keys m) -> NoDup (map_keys (map_delete k m)).
Proof.
  unfold map_keys. induction m as [|[k0 v0] m IH]; cbn; [auto|].
  intros Hnd. apply NoDup_cons in Hnd as [Hk Hnd].
  destruct (String.eqb k0 k); [auto|].
  cbn. apply NoDup_cons. split; [|auto].
  intros Hin. apply Hk. apply (keys_map_delete k k0 m) in Hin. tauto.
Qed.

Lemma unique_map_set k (v : ExtendedCacheEntry T) m :
  NoDup (map_keys m) -> NoDup (map_keys (map_set k v m)).
Proof.
  unfold map_keys. induction m as [|[k0 v0] m IH]; cbn.
  - intros _. apply NoDup_singleton.
  - intros Hnd. apply NoDup_cons in Hnd as [Hk Hnd].
    destruct (String.eqb k0 k) eqn:E; cbn.
    + apply NoDup_cons. auto.
    + apply NoDup_cons. split; [|auto].
      intros Hin. apply (keys_map_set k k0 v m) in Hin as [Hin| ->]; [auto|].
      rewrite String.eqb_refl in E. discriminate.
Qed.

Lemma unique_evictEntry c : unique_keys c -> unique_keys (evictEntry c).
Proof.
  unfold unique_keys, evictEntry. intros H.
  destruct (keyToEvict c) as [k|]; [|exact H].
  destruct (Js.truthy (Some k)); [|exact H].
  cbn. now apply unique_map_delete.
Qed.

Lemma unique_apply c (ev : Z * Op T) : unique_keys c -> unique_keys (apply c ev).
Proof.
  unfold unique_keys. intros H.
  destruct ev as [now [k d t|k|k|k| |]]; cbn [snd fst apply].
  - unfold set.
    assert (H1 : NoDup (map_keys (cache
               (if (maxSize c <=? cache_size c) && negb (map_has k (cache c))
                then evictEntry c else c)))).
    { destruct ((maxSize c <=? cache_size c) && negb (map_has k (cache c)));
        [now apply unique_evictEntry|exact H]. }
    destruct (strategy _); cbn; now apply unique_map_set.
  - unfold get. destruct (map_get k (cache c)) as [e|]; [|exact H].
    destruct (ttl e <? now - timestamp e); cbn [snd].
    + cbn. now apply unique_map_delete.
    + cbn [strategy with_cache]. destruct (strategy c); cbn; now apply unique_map_set.
  - unfold has. destruct (map_get k (cache c)) as [e|]; [|exact H].
    destruct (ttl e <? now - timestamp e); cbn; [now apply unique_map_delete|exact H].
  - unfold delete. destruct (map_has k (cache c)); cbn; [now apply unique_map_delete|exact H].
  - unfold cleanup. cbn [snd updateStats with_stats cache].
    generalize (expiredKeys now c). intros ks. revert c H.
    induction ks as [|k ks IH]; intros c H; cbn [fold_left]; [exact H|].
    apply IH. cbn. now apply unique_map_delete.
  - cbn. constructor.
Qed.

Lemma unique_run evs : forall c, unique_keys c -> unique_keys (run c evs).
Proof.
  unfold run. induction evs as [|ev evs IH]; intros c H; cbn [fold_left]; [exact H|].
  apply IH, unique_apply, H.
Qed.

End CacheKeys.

(** ** Settlement pipeline: the paths of one request, and the ledger under
    any schedule *)

Lemma duplicate_nonce_under_any_schedule_witness :
  let sys := Settlement.arrive
               (Settlement.with_recorded_nonce "abc" Settlement.empty_world)
               [Settlement.mint_request "abc"; Settlement.mint_request "xyz"] in
  let evs := (Settlement.Tick 3600000 :: Settlement.round_robin 2 11
              ++ [Settlement.Tick 3600000])%list in
  let sys' := Settlement.run_schedule
                Settlement.always_settles Settlement.swap_completes (Some "0xreceiver")
                Settlement.iso_stub sys evs in
  is_Some (Settlement.payment_nonce (Settlement.redis (fst sys')) !! "abc")
  /\ (snd sys' !! 0%nat = Some (Settlement.mint_request "abc", Settlement.AtCheckNonce)
      \/ snd sys' !! 0%nat
         = Some (Settlement.mint_request "abc", Settlement.Done Settlement.DUPLICATE_NONCE)).
Proof.
  intros sys evs.
  apply (duplicate_nonce_under_any_schedule
           Settlement.always_settles Settlement.swap_completes (Some "0xreceiver")
           Settlement.iso_stub evs sys 0%nat (Settlement.mint_request "abc") 86400000).
  - subst sys. cbn. rewrite lookup_insert_eq. eauto.
  - subst sys. cbn. now rewrite lookup_insert_eq.
  - vm_compute. discriminate.
  - subst evs. unfold Settlement.forward. cbn. repeat constructor; lia.
  - vm_compute. reflexivity.
  - left. reflexivity.
Defined.

Section SettlementPaths.
Import Settlement.
Variable okx_settle : Request -> JsError + list SettlementResult.
Variable dex_swap : SwapExecuteRequest -> JsError + Dex.SwapExecuteResponse.
Variable X402_PAY_TO : option string.
Variable toISOString : Z -> string.

Local Abbreviation step' := (step okx_settle dex_swap X402_PAY_TO toISOString).
Local Abbreviation steps' := (steps okx_settle dex_swap X402_PAY_TO toISOString).
Local Abbreviation verify' := (verify okx_settle dex_swap X402_PAY_TO toISOString).

Lemma steps_app a : forall b w r pc,
  steps' (a + b) w r pc = steps' b (fst (steps' a w r pc)) r (snd (steps' a w r pc)).
Proof.
  induction a as [|a IH]; intros b w r pc; cbn [steps Nat.add]; [reflexivity|].
  destruct (step' w r pc) as [w' pc']. apply IH.
Qed.

(** A request that has been answered within its eleven steps. *)
Lemma verify_answered k w r w' resp :
  (k <= 11)%nat ->
  steps' k w r AtCheckNonce = (w', Done resp) ->
  verify' w r = (w', Done resp).
Proof.
  intros Hk H. unfold verify. replace 11%nat with (k + (11 - k))%nat by lia.
  rewrite steps_app, H. apply steps_done.
Qed.

Lemma same_ledger_refl w : same_ledger w w.
Proof. unfold same_ledger. auto 10. Qed.

(** The quota gate lets a fresh request through when a mint is left; on the
    way the template configuration is created if it was missing. *)
Lemma quota_gate_passes w r :
  payment_nonce (redis w) !! nonce r = None ->
  is_token_mint r = true ->
  getCurrentMintCount "token-mint" (redis w) < read_max_count "token-mint" (redis w) ->
  exists w1 k,
    (k <= 5)%nat
    /\ steps' k w r AtCheckNonce = (w1, AtSettle)
    /\ same_ledger w w1
    /\ read_max_count "token-mint" (redis w1) = read_max_count "token-mint" (redis w).
Proof.
  intros Hfresh Hmint Hleft.
  apply checkNonceExists_false in Hfresh.
  assert (H1 : step' w r AtCheckNonce = (w, AtConfigExists))
    by (cbn [step]; now rewrite Hfresh, Hmint).
  unfold read_max_count, getCurrentMintCount in *.
  destruct (template_config (redis w) !! "token-mint") as [c|] eqn:Ec.
  - exists w, 4%nat. split; [lia|].
    split; [|split; [apply same_ledger_refl|now rewrite Ec]].
    rewrite (steps_step _ _ _ _ _ _ _ _ _ _ H1).
    erewrite steps_step by (cbn [step]; rewrite Ec; reflexivity).
    erewrite steps_step by (cbn [step]; reflexivity).
    erewrite steps_step; [reflexivity|].
    cbn [step]. unfold read_max_count, getCurrentMintCount. rewrite Ec.
    replace (default 0 (mint_count (redis w) !! "token-mint") <? max_mint_count c)
      with true by (symmetry; apply Z.ltb_lt; exact Hleft).
    replace (max_mint_count c <=? default 0 (mint_count (redis w) !! "token-mint"))
      with false by (symmetry; apply Z.leb_gt; exact Hleft).
    reflexivity.
  - eexists _, 5%nat. split; [lia|].
    rewrite (steps_step _ _ _ _ _ _ _ _ _ _ H1).
    erewrite steps_step by (cbn [step]; rewrite Ec; reflexivity).
    erewrite steps_step by (cbn [step]; reflexivity).
    erewrite steps_step by (cbn [step]; reflexivity).
    erewrite steps_step.
    2:{ cbn [step]. unfold read_max_count, getCurrentMintCount.
        cbn [redis set_redis template_config mint_count].
        rewrite lookup_insert_eq. cbn [max_mint_count default_template_config].
        replace (default 0 (mint_count (redis w) !! "token-mint") <? 10)
          with true by (symmetry; apply Z.ltb_lt; exact Hleft).
        replace (10 <=? default 0 (mint_count (redis w) !! "token-mint"))
          with false by (symmetry; apply Z.leb_gt; exact Hleft).
        reflexivity. }
    split; [reflexivity|]. split.
    + unfold same_ledger. cbn. auto 10.
    + cbn. rewrite lookup_insert_eq. reflexivity.
Qed.

Lemma truthy_receiver receiver : receiver <> "" -> Js.truthy (Some receiver) = true.
Proof. destruct receiver; [congruence|reflexivity]. Qed.

(** From the settlement call to the response, for a mint whose swap
    returns. *)
Lemma mint_tail w1 r res swapResult receiver :
  is_token_mint r = true ->
  okx_settle r = inr res ->
  existsb sr_success res = true ->
  X402_PAY_TO = Some receiver ->
  receiver <> "" ->
  dex_swap (mkSwapRequest "0x74b7f16337b8972027f6196a17a631ac6de26d22"
                          "0xe538905cf8410324e03a5a23c1c177a474d59b2b"
                          (FloorOfMicros (value r))
                          receiver (Some "10.0")) = inr swapResult ->
  let record := mintRecord (clock w1) (toISOString (clock w1))
                          (mint_success_data (clock w1) r swapResult) in
  exists wf,
    steps' 6 w1 r AtSettle
    = (wf, Done (OK (nonce r)
                    (Some (field record "id", field record "mint_count",
                           field record "tx_hash"))))
    /\ getCurrentMintCount "token-mint" (redis wf)
       = getCurrentMintCount "token-mint" (redis w1) + 1
    /\ settle_calls wf = (settle_calls w1 ++ [nonce r])%list
    /\ swap_calls wf
       = (swap_calls w1
            ++ [mkSwapRequest "0x74b7f16337b8972027f6196a17a631ac6de26d22"
                              "0xe538905cf8410324e03a5a23c1c177a474d59b2b"
                              (FloorOfMicros (value r))
                              receiver (Some "10.0")])%list
    /\ is_Some (payment_nonce (redis wf) !! nonce r)
    /\ mint_records (redis wf) !! from r
       = Some (take 50 (record :: default [] (mint_records (redis w1) !! from r)))
    /\ template_config (redis wf) = template_config (redis w1).
Proof.
  intros Hmint Hsettle Hsucc Hpay Hne Hswap record.
  pose proof (truthy_receiver receiver Hne) as Htruthy.
  eexists.
  erewrite steps_step by (cbn [step]; rewrite Hsettle, Hsucc; reflexivity).
  erewrite steps_step by (cbn [step]; rewrite Hmint; reflexivity).
  erewrite steps_step
    by (cbn [step]; unfold incrementMintCount; rewrite Hpay, Htruthy;
        cbn [default from_option id]; reflexivity).
  erewrite steps_step
    by (cbn [step]; rewrite Hswap; cbn [clock set_redis]; reflexivity).
  erewrite steps_step by (cbn [step]; reflexivity).
  erewrite steps_step by (cbn [step]; reflexivity).
  cbn [steps]. split; [reflexivity|].
  unfold getCurrentMintCount, lTrim, lPush.
  cbn [redis set_redis mint_records mint_count payment_nonce template_config
       settle_calls swap_calls clock].
  rewrite lookup_insert_eq.
  cbn [redis set_redis mint_records mint_count payment_nonce template_config
       settle_calls swap_calls clock].
  rewrite !lookup_insert_eq. cbn [default from_option id].
  split_and!; eauto.
Qed.

(** X20 — a paid mint, end to end. A request to the [token-mint] template
    whose nonce is not recorded, arriving while a mint is left, whose payment
    the provider settles and whose swap returns, handled with a receiving
    wallet configured, is answered with success for its own nonce and mint
    record; the provider and the swap service are each called once, the
    latter for a swap from USDC to WOKB into the receiving wallet, with
    slippage '10.0' and the amount the handler derives from the value of the
    authorization; the counter grows by one, the nonce is recorded, and the
    mint record is the newest of the payer's list, which keeps at most fifty
    records. *)
Theorem mint_request_goes_through w r res swapResult receiver :
  payment_nonce (redis w) !! nonce r = None ->
  is_token_mint r = true ->
  getCurrentMintCount "token-mint" (redis w) < read_max_count "token-mint" (redis w) ->
  okx_settle r = inr res ->
  existsb sr_success res = true ->
  X402_PAY_TO = Some receiver ->
  receiver <> "" ->
  let swapRequest := mkSwapRequest "0x74b7f16337b8972027f6196a17a631ac6de26d22"
                                   "0xe538905cf8410324e03a5a23c1c177a474d59b2b"
                                   (FloorOfMicros (value r))
                                   receiver (Some "10.0") in
  dex_swap swapRequest = inr swapResult ->
  let out := verify' w r in
  let record := mintRecord (clock w) (toISOString (clock w))
                          (mint_success_data (clock w) r swapResult) in
  snd out = Done (OK (nonce r)
                     (Some (JNum (clock w), JNum 1,
                            js_of_hash (Dex.transactionHash swapResult))))
  /\ getCurrentMintCount "token-mint" (redis (fst out))
     = getCurrentMintCount "token-mint" (redis w) + 1
  /\ settle_calls (fst out) = (settle_calls w ++ [nonce r])%list
  /\ swap_calls (fst out) = (swap_calls w ++ [swapRequest])%list
  /\ is_Some (payment_nonce (redis (fst out)) !! nonce r)
  /\ mint_records (redis (fst out)) !! from r
     = Some (take 50 (record :: default [] (mint_records (redis w) !! from r))).
Proof.
  intros Hfresh Hmint Hleft Hsettle Hsucc Hpay Hne swapRequest Hswap out record.
  destruct (quota_gate_passes w r Hfresh Hmint Hleft)
    as (w1 & k & Hk & Hgate & (Hmc & Hmr & Hpn & Hex & Hcl & Hsc & Hsw) & _).
  destruct (mint_tail w1 r res swapResult receiver Hmint Hsettle Hsucc Hpay Hne Hswap)
    as (wf & Htail & Hcount & Hsettled & Hswapped & Hnonce & Hrecords & _).
  assert (Hv : verify' w r = (wf, Done (OK (nonce r)
                 (Some (JNum (clock w), JNum 1,
                        js_of_hash (Dex.transactionHash swapResult)))))).
  { apply (verify_answered (k + 6)); [lia|].
    rewrite steps_app, Hgate. cbn [fst snd]. rewrite Htail, Hcl. reflexivity. }
  subst out. rewrite Hv. cbn [fst snd].
  unfold getCurrentMintCount in *.
  rewrite Hcount, Hsettled, Hswapped, Hrecords, Hmc, Hmr, Hcl, Hsc, Hsw.
  split_and!; auto.
Qed.

(** The way of a fresh request to the settlement call, for any template. *)
Lemma reaches_settlement w r :
  payment_nonce (redis w) !! nonce r = None ->
  (is_token_mint r = true ->
   getCurrentMintCount "token-mint" (redis w) < read_max_count "token-mint" (redis w)) ->
  exists w1 k,
    (k <= 5)%nat
    /\ steps' k w r AtCheckNonce = (w1, AtSettle)
    /\ same_ledger w w1
    /\ (is_token_mint r = false -> w1 = w).
Proof.
  intros Hfresh Hleft. destruct (is_token_mint r) eqn:Hmint.
  - destruct (quota_gate_passes w r Hfresh Hmint (Hleft eq_refl))
      as (w1 & k & Hk & Hgate & Hsame & _).
    exists w1, k. split_and!; auto. discriminate.
  - exists w, 1%nat. split_and!; [lia| |apply same_ledger_refl|reflexivity].
    apply checkNonceExists_false in Hfresh.
    cbn [steps step]. now rewrite Hfresh, Hmint.
Qed.

(** X21 — a payment that is not settled leaves the ledger as it was. When the
    provider throws or reports no successful settlement, a request that got
    as far as the settlement call is answered PAYMENT_ERROR (with the
    provider's message) or SETTLEMENT_FAILED; the provider was called once,
    the swap service not at all, and the counter, the recorded nonces and the
    mint records are unchanged: the nonce is not burnt and the same
    authorization can be submitted again. *)
Theorem unsettled_payment_leaves_ledger w r :
  payment_nonce (redis w) !! nonce r = None ->
  (is_token_mint r = true ->
   getCurrentMintCount "token-mint" (redis w) < read_max_count "token-mint" (redis w)) ->
  match okx_settle r with
  | inl _ => True
  | inr res => existsb sr_success res = false
  end ->
  let out := verify' w r in
  snd out = Done (match okx_settle r with
                  | inl e => PAYMENT_ERROR (message_of e)
                  | inr _ => SETTLEMENT_FAILED
                  end)
  /\ settle_calls (fst out) = (settle_calls w ++ [nonce r])%list
  /\ swap_calls (fst out) = swap_calls w
  /\ mint_count (redis (fst out)) = mint_count (redis w)
  /\ payment_nonce (redis (fst out)) = payment_nonce (redis w)
  /\ mint_records (redis (fst out)) = mint_records (redis w).
Proof.
  intros Hfresh Hleft Hfail out.
  destruct (reaches_settlement w r Hfresh Hleft)
    as (w1 & k & Hk & Hgate & (Hmc & Hmr & Hpn & Hex & Hcl & Hsc & Hsw) & _).
  assert (Hv : verify' w r
               = (mkWorld (redis w1) (clock w1) (settle_calls w1 ++ [nonce r])%list
                          (swap_calls w1),
                  Done (match okx_settle r with
                        | inl e => PAYMENT_ERROR (message_of e)
                        | inr _ => SETTLEMENT_FAILED
                        end))).
  { apply (verify_answered (k + 1)); [lia|].
    rewrite steps_app, Hgate. cbn [fst snd steps step].
    destruct (okx_settle r) as [e|res]; [reflexivity|]. now rewrite Hfail. }
  subst out. rewrite Hv. cbn [fst snd redis settle_calls swap_calls].
  rewrite Hsc, Hsw. split_and!; auto.
Qed.

(** X22 — a paid request to another template touches nothing of the mint. For
    a template other than [token-mint], a fresh nonce and a settled payment,
    the answer is a success without mint record; the nonce is recorded with
    status 'paid'; the mint counter, the template configurations, the mint
    records and the swap service are untouched. *)
Theorem other_template_payment_only w r res :
  payment_nonce (redis w) !! nonce r = None ->
  is_token_mint r = false ->
  okx_settle r = inr res ->
  existsb sr_success res = true ->
  let out := verify' w r in
  snd out = Done (OK (nonce r) None)
  /\ (exists record, payment_nonce (redis (fst out)) !! nonce r = Some record
                     /\ record !! "status" = Some (JStr "paid")
                     /\ record !! "nonce" = Some (JStr (nonce r)))
  /\ settle_calls (fst out) = (settle_calls w ++ [nonce r])%list
  /\ swap_calls (fst out) = swap_calls w
  /\ mint_count (redis (fst out)) = mint_count (redis w)
  /\ mint_records (redis (fst out)) = mint_records (redis w)
  /\ template_config (redis (fst out)) = template_config (redis w).
Proof.
  intros Hfresh Hmint Hsettle Hsucc out.
  apply checkNonceExists_false in Hfresh.
  assert (Hv : exists wf, verify' w r = (wf, Done (OK (nonce r) None))
               /\ (exists record, payment_nonce (redis wf) !! nonce r = Some record
                                  /\ record !! "status" = Some (JStr "paid")
                                  /\ record !! "nonce" = Some (JStr (nonce r)))
               /\ settle_calls wf = (settle_calls w ++ [nonce r])%list
               /\ swap_calls wf = swap_calls w
               /\ mint_count (redis wf) = mint_count (redis w)
               /\ mint_records (redis wf) = mint_records (redis w)
               /\ template_config (redis wf) = template_config (redis w)).
  { eexists. split.
    - apply (verify_answered 3); [lia|].
      erewrite steps_step by (cbn [step]; rewrite Hfresh, Hmint; reflexivity).
      erewrite steps_step by (cbn [step]; rewrite Hsettle, Hsucc; reflexivity).
      erewrite steps_step by (cbn [step]; rewrite Hmint; reflexivity).
      reflexivity.
    - cbn [redis set_redis payment_nonce settle_calls swap_calls mint_count mint_records
           template_config].
      split_and!; auto.
      eexists. split; [apply lookup_insert_eq|].
      unfold paymentRecord. split; [apply lookup_insert_eq|].
      rewrite lookup_insert_ne by discriminate.
      rewrite lookup_insert_ne by discriminate.
      reflexivity. }
  destruct Hv as (wf & Hv & H). subst out. rewrite Hv. cbn [fst snd].
  split; [reflexivity|exact H].
Qed.

(** X23 — a paid mint without receiving wallet. When [X402_PAY_TO] is not set
    (or empty), a mint request that is settled is answered MINT_FAILED, after
    its nonce has been recorded and the counter incremented: the mint is
    consumed although no swap was attempted and no mint record is written. *)
Theorem unconfigured_receiver_consumes_quota w r res :
  payment_nonce (redis w) !! nonce r = None ->
  is_token_mint r = true ->
  getCurrentMintCount "token-mint" (redis w) < read_max_count "token-mint" (redis w) ->
  okx_settle r = inr res ->
  existsb sr_success res = true ->
  Js.truthy X402_PAY_TO = false ->
  let out := verify' w r in
  snd out = Done (MINT_FAILED "未配置接收钱包地址" (nonce r))
  /\ getCurrentMintCount "token-mint" (redis (fst out))
     = getCurrentMintCount "token-mint" (redis w) + 1
  /\ is_Some (payment_nonce (redis (fst out)) !! nonce r)
  /\ swap_calls (fst out) = swap_calls w
  /\ mint_records (redis (fst out)) = mint_records (redis w).
Proof.
  intros Hfresh Hmint Hleft Hsettle Hsucc Hpay out.
  destruct (quota_gate_passes w r Hfresh Hmint Hleft)
    as (w1 & k & Hk & Hgate & (Hmc & Hmr & Hpn & Hex & Hcl & Hsc & Hsw) & _).
  assert (Hv : exists wf, verify' w r
                          = (wf, Done (MINT_FAILED "未配置接收钱包地址" (nonce r)))
               /\ getCurrentMintCount "token-mint" (redis wf)
                  = getCurrentMintCount "token-mint" (redis w1) + 1
               /\ is_Some (payment_nonce (redis wf) !! nonce r)
               /\ swap_calls wf = swap_calls w1
               /\ mint_records (redis wf) = mint_records (redis w1)).
  { eexists. split.
    - apply (verify_answered (k + 3)); [lia|].
      rewrite steps_app, Hgate. cbn [fst snd].
      erewrite steps_step by (cbn [step]; rewrite Hsettle, Hsucc; reflexivity).
      erewrite steps_step by (cbn [step]; rewrite Hmint; reflexivity).
      erewrite steps_step
        by (cbn [step]; unfold incrementMintCount; rewrite Hpay; reflexivity).
      reflexivity.
    - unfold getCurrentMintCount.
      cbn [redis set_redis payment_nonce settle_calls swap_calls mint_count mint_records].
      rewrite !lookup_insert_eq. cbn [default from_option id]. split_and!; eauto. }
  destruct Hv as (wf & Hv & Hcount & Hnonce & Hswaps & Hrecords).
  subst out. rewrite Hv. cbn [fst snd]. unfold getCurrentMintCount in *.
  rewrite Hcount, Hswaps, Hrecords, Hmc, Hmr, Hsw. split_and!; auto.
Qed.

(** One step of any request: the counter stays or grows by one, and the calls
    made to the provider are kept. *)
Lemma step_ledger_grows w r pc :
  let w' := fst (step' w r pc) in
  getCurrentMintCount "token-mint" (redis w)
  <= getCurrentMintCount "token-mint" (redis w')
  <= getCurrentMintCount "token-mint" (redis w) + 1
  /\ settle_calls w `prefix_of` settle_calls w'
  /\ swap_calls w `prefix_of` swap_calls w'.
Proof.
  cbv zeta. unfold getCurrentMintCount.
  destruct pc; cbn [step]; unfold lTrim, lPush, incrementMintCount, getCurrentMintCount;
    repeat match goal with
           | |- context [if ?b then _ else _] => destruct b
           | |- context [match ?x with _ => _ end] => destruct x
           end;
    cbn [fst snd redis set_redis mint_count settle_calls swap_calls];
    rewrite ?lookup_insert_eq; cbn [default from_option id];
    (split_and!; [lia|lia|try reflexivity; try (now apply prefix_app_r)
                 |try reflexivity; try (now apply prefix_app_r)]).
Qed.

(** X24 — the ledger only grows, under any schedule. Whatever requests are
    in flight and in whatever order they are resumed, the mint counter never
    decreases and rises by at most one per resumption, and the calls made to
    the settlement provider and to the swap service are only ever added
    to. *)
Theorem ledger_grows_under_any_schedule (evs : list Event) : forall sys : System,
  let sys' := run_schedule okx_settle dex_swap X402_PAY_TO toISOString sys evs in
  getCurrentMintCount "token-mint" (redis (fst sys))
  <= getCurrentMintCount "token-mint" (redis (fst sys'))
  <= getCurrentMintCount "token-mint" (redis (fst sys)) + Z.of_nat (length evs)
  /\ settle_calls (fst sys) `prefix_of` settle_calls (fst sys')
  /\ swap_calls (fst sys) `prefix_of` swap_calls (fst sys').
Proof.
  unfold run_schedule. induction evs as [|ev evs IH]; intros sys; cbn [fold_left length].
  - split_and!; [lia|lia|reflexivity|reflexivity].
  - assert (Hstep :
      getCurrentMintCount "token-mint" (redis (fst sys))
      <= getCurrentMintCount "token-mint"
           (redis (fst (sched_step okx_settle dex_swap X402_PAY_TO toISOString sys ev)))
      <= getCurrentMintCount "token-mint" (redis (fst sys)) + 1
      /\ settle_calls (fst sys)
         `prefix_of` settle_calls
                       (fst (sched_step okx_settle dex_swap X402_PAY_TO toISOString sys ev))
      /\ swap_calls (fst sys)
         `prefix_of` swap_calls
                       (fst (sched_step okx_settle dex_swap X402_PAY_TO toISOString sys ev))).
    { destruct sys as [w reqs]. destruct ev as [i|dt]; cbn [sched_step fst snd].
      - destruct (reqs !! i) as [[r pc]|]; [|cbn; split_and!; [lia|lia|reflexivity|reflexivity]].
        pose proof (step_ledger_grows w r pc) as H. cbv zeta in H.
        destruct (step' w r pc) as [w' pc']. exact H.
      - unfold getCurrentMintCount.
        cbn [redis expire mint_count settle_calls swap_calls].
        split_and!; [lia|lia|reflexivity|reflexivity]. }
    destruct Hstep as (Hc & Hs & Hw).
    destruct (IH (sched_step okx_settle dex_swap X402_PAY_TO toISOString sys ev))
      as (Hc' & Hs' & Hw').
    cbv zeta. split_and!; [lia|lia|etrans; eauto|etrans; eauto].
Qed.

(** X25 — requests handled one after the other never overrun the cap: if the
    counter is within [max_mint_count], it still is after any number of
    requests, each run to its response before the next starts, whatever the
    provider and the swap service answer. *)
Theorem sequential_requests_keep_cap (rs : list Request) : forall w,
  within_cap w ->
  within_cap (fst (verify_all okx_settle dex_swap X402_PAY_TO toISOString w rs)).
Proof.
  unfold verify_all.
  assert (H : forall (acc : World * list Pc), within_cap (fst acc) ->
            within_cap (fst (fold_left
              (fun acc r =>
                 let '(w', pc) := verify' (fst acc) r in (w', (snd acc ++ [pc])%list))
              rs acc))).
  { induction rs as [|r rs IH]; intros acc Hacc; cbn [fold_left]; [exact Hacc|].
    apply IH.
    pose proof (verify_keeps_cap okx_settle dex_swap X402_PAY_TO toISOString
                  (fst acc) r Hacc) as Hk.
    destruct (verify' (fst acc) r) as [w' pc]. exact Hk. }
  intros w Hw. apply (H (w, [])). exact Hw.
Qed.

End SettlementPaths.

Lemma mint_request_goes_through_witness :
  let out := Settlement.verify Settlement.always_settles Settlement.swap_completes
                               (Some "0xreceiver") Settlement.iso_stub
                               Settlement.empty_world (Settlement.mint_request "abc") in
  snd out = Settlement.Done
              (Settlement.OK "abc" (Some (Settlement.JNum 0, Settlement.JNum 1,
                                          Settlement.JStr "0xswapped")))
  /\ Settlement.getCurrentMintCount "token-mint" (Settlement.redis (fst out)) = 1.
Proof.
  intros out.
  destruct (mint_request_goes_through
              Settlement.always_settles Settlement.swap_completes (Some "0xreceiver")
              Settlement.iso_stub Settlement.empty_world (Settlement.mint_request "abc")
              [Settlement.mkSettlement true "0xsettled"]
              (Dex.mkResponse true (Some "0xswapped")
                              (Some "https://www.oklink.com/xlayer/tx/0xswapped")
                              "1000000" "0.02" (Some "0.020000") (Some "21000")
                              None None None)
              "0xreceiver")
    as (Hresp & Hcount & _);
    [reflexivity|reflexivity|reflexivity|reflexivity|reflexivity|reflexivity
    |discriminate|reflexivity|].
  split; [exact Hresp|exact Hcount].
Defined.

Lemma unsettled_payment_leaves_ledger_witness :
  let out := Settlement.verify (fun _ => inl (EPlain "provider down"))
                               Settlement.swap_completes
                               (Some "0xreceiver") Settlement.iso_stub
                               Settlement.empty_world (Settlement.mint_request "abc") in
  snd out = Settlement.Done (Settlement.PAYMENT_ERROR "provider down")
  /\ Settlement.payment_nonce (Settlement.redis (fst out)) = ∅.
Proof.
  intros out.
  destruct (unsettled_payment_leaves_ledger
              (fun _ => inl (EPlain "provider down")) Settlement.swap_completes
              (Some "0xreceiver") Settlement.iso_stub
              Settlement.empty_world (Settlement.mint_request "abc"))
    as (Hresp & _ & _ & _ & Hnonces & _);
    [reflexivity|intros _; reflexivity|exact I|].
  split; [exact Hresp|exact Hnonces].
Defined.

Lemma other_template_payment_only_witness :
  let r := Settlement.mkRequest "n1" "0xpayer" "0xreceiver" "1000000" (Some "basic") in
  let out := Settlement.verify Settlement.always_settles Settlement.swap_completes
                               (Some "0xreceiver") Settlement.iso_stub
                               Settlement.empty_world r in
  snd out = Settlement.Done (Settlement.OK "n1" None)
  /\ Settlement.mint_count (Settlement.redis (fst out)) = ∅.
Proof.
  intros r out.
  destruct (other_template_payment_only
              Settlement.always_settles Settlement.swap_completes (Some "0xreceiver")
              Settlement.iso_stub Settlement.empty_world r
              [Settlement.mkSettlement true "0xsettled"])
    as (Hresp & _ & _ & _ & Hcount & _);
    [reflexivity|reflexivity|reflexivity|reflexivity|].
  split; [exact Hresp|exact Hcount].
Defined.

Lemma unconfigured_receiver_consumes_quota_witness :
  let out := Settlement.verify Settlement.always_settles Settlement.swap_completes
                               None Settlement.iso_stub
                               Settlement.empty_world (Settlement.mint_request "abc") in
  snd out = Settlement.Done (Settlement.MINT_FAILED "未配置接收钱包地址" "abc")
  /\ Settlement.getCurrentMintCount "token-mint" (Settlement.redis (fst out)) = 1.
Proof.
  intros out.
  destruct (unconfigured_receiver_consumes_quota
              Settlement.always_settles Settlement.swap_completes None
              Settlement.iso_stub Settlement.empty_world (Settlement.mint_request "abc")
              [Settlement.mkSettlement true "0xsettled"])
    as (Hresp & Hcount & _);
    [reflexivity|reflexivity|reflexivity|reflexivity|reflexivity|reflexivity|].
  split; [exact Hresp|exact Hcount].
Defined.

Lemma sequential_requests_keep_cap_witness :
  Settlement.within_cap
    (fst (Settlement.verify_all
            Settlement.always_settles Settlement.swap_completes (Some "0xreceiver")
            Settlement.iso_stub Settlement.empty_world
            (map Settlement.numbered_request (seq 0 12)))).
Proof.
  apply (sequential_requests_keep_cap
           Settlement.always_settles Settlement.swap_completes (Some "0xreceiver")
           Settlement.iso_stub (map Settlement.numbered_request (seq 0 12))
           Settlement.empty_world).
  unfold Settlement.within_cap. vm_compute. discriminate.
Defined.

(** X26 — the answers of [checkMintLimit] agree with each other. Whatever the
    store holds, the counts reported are the counter and the maximum of the
    template (10 when the configuration had to be created, which it then
    is), [canMint] is the negation of [isCompleted], [remaining] is positive
    exactly when [canMint] holds and then counts the mints left, and the third
    reason of the check route ('已达到铸造限制') is never given. The gate of
    [POST /verify] lets a request through exactly when [canMint] holds. *)
Theorem checkMintLimit_answers_agree (templateId : string) (rd : Settlement.Redis)
    okx_settle dex_swap X402_PAY_TO toISOString
    (w : Settlement.World) (r : Settlement.Request) (maxCount : Z) :
  let l := fst (MintLimit.checkMintLimit templateId rd) in
  let rd' := snd (MintLimit.checkMintLimit templateId rd) in
  MintLimit.currentCount l = Settlement.getCurrentMintCount templateId rd
  /\ MintLimit.maxCount l = Settlement.read_max_count templateId rd
  /\ is_Some (Settlement.template_config rd' !! templateId)
  /\ MintLimit.canMint l = negb (MintLimit.isCompleted l)
  /\ (MintLimit.canMint l = true <-> 0 < MintLimit.remaining l)
  /\ MintLimit.remaining l
     = (if MintLimit.canMint l
        then MintLimit.maxCount l - MintLimit.currentCount l else 0)
  /\ MintLimit.check_reason l <> "已达到铸造限制"
  /\ snd (Settlement.step okx_settle dex_swap X402_PAY_TO toISOString w r
                          (Settlement.AtGetCount maxCount))
     = (let l' := MintLimit.limitCheck
                    (Settlement.getCurrentMintCount "token-mint" (Settlement.redis w))
                    maxCount in
        if MintLimit.canMint l' then Settlement.AtSettle
        else Settlement.Done (Settlement.MINT_LIMIT_REACHED
                                (MintLimit.currentCount l') (MintLimit.maxCount l'))).
Proof.
  cbv zeta.
  assert (Hread : Settlement.getCurrentMintCount templateId
                    (MintLimit.initializeTemplateConfig templateId rd)
                  = Settlement.getCurrentMintCount templateId rd
                  /\ Settlement.read_max_count templateId
                       (MintLimit.initializeTemplateConfig templateId rd)
                     = Settlement.read_max_count templateId rd
                  /\ is_Some (Settlement.template_config
                                (MintLimit.initializeTemplateConfig templateId rd)
                              !! templateId)).
  { unfold MintLimit.initializeTemplateConfig, Settlement.read_max_count,
      Settlement.getCurrentMintCount.
    destruct (Settlement.template_config rd !! templateId) as [c|] eqn:Ec.
    - rewrite Ec. eauto.
    - cbn. rewrite lookup_insert_eq. eauto. }
  destruct Hread as (Hcur & Hmax & Hcfg).
  unfold MintLimit.checkMintLimit, MintLimit.limitCheck, MintLimit.check_reason.
  cbn [fst snd MintLimit.canMint MintLimit.isCompleted MintLimit.remaining
       MintLimit.currentCount MintLimit.maxCount Settlement.step].
  rewrite Hcur, Hmax.
  set (cur := Settlement.getCurrentMintCount templateId rd).
  set (mx := Settlement.read_max_count templateId rd).
  split_and!; [reflexivity|reflexivity|exact Hcfg| | | | |].
  - destruct (Z.ltb_spec cur mx), (Z.leb_spec mx cur); try reflexivity; lia.
  - rewrite Z.ltb_lt. lia.
  - destruct (Z.ltb_spec cur mx); lia.
  - destruct (Z.ltb_spec cur mx); [discriminate|].
    destruct (Z.leb_spec mx cur); [discriminate|lia].
  - destruct (Z.ltb_spec
                (Settlement.getCurrentMintCount "token-mint" (Settlement.redis w)) maxCount),
             (Z.leb_spec maxCount
                (Settlement.getCurrentMintCount "token-mint" (Settlement.redis w)));
      cbn; try reflexivity; lia.
Qed.

(** ** The swap service as the factory builds it *)

(** The factory on the configuration as shipped. *)
Lemma createXLayerUsdcWokbSwapService_shipped (X_LAYER_RPC_URL : option string) (wallet : bool) :
  Dex.createXLayerUsdcWokbSwapService (Config.getInstance X_LAYER_RPC_URL) wallet
  = inr (Dex.mkService wallet true true true "10.0" "https://www.oklink.com/xlayer" false
           (Cache.newQuoteCache 30000 100)
           (Retry.new_manager (Retry.mkRetryConfig 3 1000 [NETWORK_ERROR])
                              Retry.EXPONENTIAL_BACKOFF)
           (Dex.mkMetrics 0 0 0 0 0 (fun _ => 0)) [] (fun _ => 0) []).
Proof. vm_compute. reflexivity. Qed.

Section ShippedService.
Import Dex.
Context {W : Type}.
Variable Date_now : W -> Z.
Variable isoNow : W -> string.
Variable validateQuoteRequest : SwapRequest -> ValidationResult.
Variable validateCompleteSwapRequest : SwapRequest -> W -> (JsError + ValidationResult) * W.
Variable fetchQuoteFromAPI : SwapRequest -> W -> (JsError + SwapQuoteResponse) * W.
Variable validateAllowance : SwapRequest -> W -> (JsError + ValidationResult) * W.
Variable approve : SwapRequest -> W -> (JsError + unit) * W.
Variable getSwapTx : SwapRequest -> W -> (JsError + TransactionData) * W.
Variable validateTransactionData : TransactionData -> ValidationResult.
Variable sendTransaction : TransactionData -> W -> (JsError + string) * W.
Variable waitForTransaction : string -> W -> (JsError + option Receipt) * W.
Variable parseBigInt : string -> option Z.
Variable sleep : Z -> W -> W.
Variable calculateDelay : Retry.RetryStrategy -> Z -> Retry.RetryConfig -> Z.

Local Abbreviation try' :=
  (executeSwap_try Date_now isoNow validateQuoteRequest validateCompleteSwapRequest
     fetchQuoteFromAPI validateAllowance approve getSwapTx validateTransactionData
     sendTransaction waitForTransaction parseBigInt sleep calculateDelay).
Local Abbreviation executeSwap' :=
  (executeSwap Date_now isoNow validateQuoteRequest validateCompleteSwapRequest
     fetchQuoteFromAPI validateAllowance approve getSwapTx validateTransactionData
     sendTransaction waitForTransaction parseBigInt sleep calculateDelay).

(** A service that finds no tokens: the [try] block ends at the lookup, or
    before it when there is no signer or the progress callback throws. *)
Lemma executeSwap_try_without_tokens request cb (sv : Service) (w : W) :
  tokensConfigured sv = false ->
  exists t sv',
    try' request cb (sv, w)
    = (inl (ThrowError t),
       (sv', match cb with
             | Some f => if wallet sv then snd (f 10 "验证交换参数..." w) else w
             | None => w
             end))
    /\ match cb with
       | None => exists d, t = EDex d /\ code d = INVALID_PARAMETERS
       | Some _ => True
       end.
Proof.
  intros Htok. unfold executeSwap_try.
  erewrite bind_returned by reflexivity. cbn [fst].
  destruct (wallet sv) eqn:Hw.
  - erewrite bind_returned by reflexivity.
    assert (Hcount : forall f, exists sv1,
               count_swap (W := W) f (sv, w) = (inr tt, (sv1, w))).
    { intros f. unfold count_swap, bind, service, when, modify, ret. cbn.
      destruct (enableMetrics sv); cbn; eauto. }
    destruct (Hcount (fun m => mkMetrics (totalSwaps m + 1) (successfulSwaps m)
                                         (failedSwaps m) (totalVolume m)
                                         (averageGasUsed m) (errorBreakdown m)))
      as (sv1 & Hc).
    erewrite bind_returned by exact Hc.
    assert (Hemit : exists sv2,
               emit_if_enabled (W := W) SWAP_INITIATED None (sv1, w) = (inr tt, (sv2, w))).
    { unfold emit_if_enabled, bind, service, when, emit, modify, ret. cbn.
      destruct (enableEvents sv1); cbn; eauto. }
    destruct Hemit as (sv2 & He).
    erewrite bind_returned by exact He.
    destruct cb as [f|].
    + unfold updateProgress. unfold bind at 1. unfold await. cbn [fst snd].
      destruct (f 10 "验证交换参数..." w) as [[e|[]] w'].
      * do 2 eexists. split; [reflexivity|exact I].
      * rewrite Htok. erewrite bind_thrown by reflexivity.
        do 2 eexists. split; [reflexivity|exact I].
    + erewrite bind_returned by reflexivity.
      rewrite Htok. erewrite bind_thrown by reflexivity.
      do 2 eexists. split; [reflexivity|]. eexists. split; reflexivity.
  - erewrite bind_thrown by reflexivity.
    do 2 eexists. split; [destruct cb; reflexivity|].
    destruct cb; [exact I|]. eexists. split; reflexivity.
Qed.

(** X27 — with the configuration as shipped, no swap is ever attempted. The
    tokens are registered under the network key ('xlayer') and [executeSwap]
    looks them up under the chain id ('196'): the service built by
    [createXLayerUsdcWokbSwapService] answers every request with a failure,
    whatever the validators, the aggregator, the signer and the provider
    would do. Besides the caller's progress callback nothing outside the
    process is touched; without callback the error is INVALID_PARAMETERS. *)
Theorem shipped_service_never_swaps
    (X_LAYER_RPC_URL : option string) (hasWallet : bool) (request : SwapRequest)
    (cb : option (Z -> string -> W -> (JsError + unit) * W)) (w : W) :
  match createXLayerUsdcWokbSwapService (Config.getInstance X_LAYER_RPC_URL) hasWallet with
  | inl _ => False
  | inr sv =>
      tokensConfigured sv = false
      /\ let out := executeSwap' request cb (sv, w) in
         (exists resp,
            fst out = inr resp
            /\ success resp = false
            /\ transactionHash resp = None
            /\ fromAmount resp = amount request
            /\ toAmount resp = "0"
            /\ match cb with
               | None => errorCode resp = Some INVALID_PARAMETERS
               | Some _ => True
               end)
         /\ snd (snd out)
            = match cb with
              | Some f => if hasWallet then snd (f 10 "验证交换参数..." w) else w
              | None => w
              end
  end.
Proof.
  rewrite createXLayerUsdcWokbSwapService_shipped. split; [reflexivity|].
  cbv zeta. unfold executeSwap, try_catch.
  edestruct (executeSwap_try_without_tokens request cb) as (t & sv' & Htry & Hcode);
    [|rewrite Htry]; [reflexivity|].
  cbn [wallet] in *.
  split.
  - destruct (executeSwap_catch_returns isoNow request t
                (sv', match cb with
                      | Some f => if hasWallet then snd (f 10 "验证交换参数..." w) else w
                      | None => w
                      end))
      as (resp & s' & Hcatch & Hs & Hh & Hf & Ht & _ & Hc).
    rewrite Hcatch. exists resp. split_and!; auto.
    destruct cb; [exact I|].
    destruct Hcode as (d & -> & Hd). rewrite Hc. cbn. now rewrite Hd.
  - apply executeSwap_catch_world.
Qed.

End ShippedService.

(** ** The OKX client: attempts and back-off *)

Section OkxRequest.
Import OkxClient.
Context {W T : Type}.
Variable http : W -> Outcome T * W.
Variable sleep : Z -> W -> W.

Local Abbreviation loop := (request_loop http sleep).
Local Abbreviation loop' := (request_loop (counted_http http) (logged_sleep sleep)).

Lemma request_loop_counts n : forall a w calls slept,
  a + Z.of_nat n = 4 ->
  (1 <= n)%nat ->
  let out := loop' n a (w, calls, slept) in
  let calls' := snd (fst (snd out)) in
  fst out = fst (loop n a w)
  /\ fst (fst (snd out)) = snd (loop n a w)
  /\ (calls < calls' <= calls + n)%nat
  /\ snd (snd out) = (slept ++ backoffs (calls' - calls - 1) a)%list
  /\ fst out <> inl Exhausted.
Proof.
  induction n as [|n IH]; intros a w calls slept Hn Hpos; [lia|].
  cbv zeta. cbn [request_loop].
  assert (Hc : counted_http http (w, calls, slept)
               = (fst (http w), (snd (http w), S calls, slept))).
  { unfold counted_http. cbn [fst snd]. now destruct (http w). }
  rewrite !Hc. clear Hc.
  destruct (http w) as [[code msg data|e] w1]; cbn [fst snd].
  - destruct (String.eqb code "0"); cbn [fst snd];
      replace (S calls - calls - 1)%nat with 0%nat by lia; cbn [backoffs];
      rewrite app_nil_r; (split_and!; [reflexivity|reflexivity|lia|lia|reflexivity|]);
      discriminate.
  - destruct (isRateLimit e) eqn:Er; cbn [andb].
    + destruct (a <? 3) eqn:Ea.
      * apply Z.ltb_lt in Ea.
        change (logged_sleep sleep (500 * 2 ^ a) (w1, S calls, slept))
          with (sleep (500 * 2 ^ a) w1, S calls, (slept ++ [500 * 2 ^ a])%list).
        destruct (IH (a + 1) (sleep (500 * 2 ^ a) w1) (S calls)
                     (slept ++ [500 * 2 ^ a])%list) as (H1 & H2 & H3 & H4 & H5);
          [lia|lia|].
        cbv zeta in H1, H2, H3, H4, H5.
        set (out := loop' n (a + 1)
                      (sleep (500 * 2 ^ a) w1, S calls, (slept ++ [500 * 2 ^ a])%list)) in *.
        split_and!; [exact H1|exact H2|lia|lia| |exact H5].
        rewrite H4, <- app_assoc. f_equal.
        replace (snd (fst (snd out)) - calls - 1)%nat
          with (S (snd (fst (snd out)) - S calls - 1))%nat by lia.
        reflexivity.
      * cbn [fst snd]. replace (S calls - calls - 1)%nat with 0%nat by lia.
        cbn [backoffs]. rewrite app_nil_r.
        split_and!; [reflexivity|reflexivity|lia|lia|reflexivity|discriminate].
    + cbn [fst snd]. replace (S calls - calls - 1)%nat with 0%nat by lia.
      cbn [backoffs]. rewrite app_nil_r.
      split_and!; [reflexivity|reflexivity|lia|lia|reflexivity|discriminate].
Qed.

(** A run of the loop by the outcomes of its round trips: after [k] round
    trips that end in a rate-limit error, the loop ends on the next one, or
    on the last one it is allowed. *)
Lemma request_loop_run k : forall n a w calls slept,
  a + Z.of_nat n = 4 ->
  (k < n)%nat ->
  (forall j, (j < k)%nat -> rate_limited (fst (http (world_before http sleep a j w))) = true) ->
  (S k = n \/ rate_limited (fst (http (world_before http sleep a k w))) = false) ->
  let last := http (world_before http sleep a k w) in
  loop' n a (w, calls, slept)
  = (result_of (fst last), (snd last, (calls + S k)%nat, (slept ++ backoffs k a)%list)).
Proof.
  induction k as [|k IH]; intros n a w calls slept Hn Hk Hlim Hlast;
    (destruct n as [|n]; [lia|]); cbv zeta; cbn [request_loop world_before backoffs].
  - assert (Hc : counted_http http (w, calls, slept)
                 = (fst (http w), (snd (http w), S calls, slept))).
    { unfold counted_http. cbn [fst snd]. now destruct (http w). }
    rewrite Hc. clear Hc. cbn [world_before] in Hlast.
    rewrite app_nil_r. replace (calls + 1)%nat with (S calls) by lia.
    destruct (http w) as [[code msg data|e] w1]; cbn [fst snd rate_limited result_of] in *.
    + destruct (String.eqb code "0"); reflexivity.
    + destruct (isRateLimit e) eqn:Er; cbn [andb]; [|reflexivity].
      destruct Hlast as [Hlast|Hlast]; [|discriminate].
      assert (a = 3) by lia. subst a. reflexivity.
  - assert (Hc : counted_http http (w, calls, slept)
                 = (fst (http w), (snd (http w), S calls, slept))).
    { unfold counted_http. cbn [fst snd]. now destruct (http w). }
    rewrite Hc. clear Hc.
    pose proof (Hlim 0%nat ltac:(lia)) as H0. cbn [world_before] in H0.
    destruct (http w) as [[code msg data|e] w1] eqn:Ew; cbn [fst snd rate_limited] in *;
      [discriminate|].
    rewrite H0. cbn [andb].
    replace (a <? 3) with true by (symmetry; apply Z.ltb_lt; lia).
    change (logged_sleep sleep (500 * 2 ^ a) (w1, S calls, slept))
      with (sleep (500 * 2 ^ a) w1, S calls, (slept ++ [500 * 2 ^ a])%list).
    rewrite (IH n (a + 1) (sleep (500 * 2 ^ a) w1) (S calls) (slept ++ [500 * 2 ^ a])%list);
      [|lia|lia| |].
    + cbv zeta. rewrite <- app_assoc. cbn [app].
      replace (S calls + S k)%nat with (calls + S (S k))%nat by lia. reflexivity.
    + intros j Hj. specialize (Hlim (S j) ltac:(lia)). cbn [world_before] in Hlim.
      rewrite Ew in Hlim. exact Hlim.
    + destruct Hlast as [Hlast|Hlast]; [left; lia|right].
      cbn [world_before] in Hlast. rewrite Ew in Hlast. exact Hlast.
Qed.

(** X28 — the attempts of [OkxClient.request], round trip by round trip. When
    the first [k] round trips end in an error that signals a rate limit
    (status 429 or API code '50011') and the next one does not, or is the
    fourth, the call has made [k + 1] round trips, has slept the first [k] of
    500, 1000, 2000 ms between them, and ends on the outcome of the last: the
    data of a body with code '0', an error for a body with any other code
    (also '50011'), the rate-limit error when the fourth round trip is
    rate-limited too, and otherwise the error caught. So the call goes on
    only after a rate-limit error, at most three times, and the [Error]
    after the loop is never thrown. The count is taken on instrumented
    collaborators, which behave as the collaborators themselves. *)
Theorem okx_request_attempts (w : W) (k : nat) :
  (k <= 3)%nat ->
  (forall j, (j < k)%nat -> rate_limited (fst (http (world_before http sleep 0 j w))) = true) ->
  (k = 3%nat \/ rate_limited (fst (http (world_before http sleep 0 k w))) = false) ->
  let out := request (counted_http http) (logged_sleep sleep) (w, 0%nat, []) in
  let last := http (world_before http sleep 0 k w) in
  request http sleep w = (result_of (fst last), snd last)
  /\ fst out = fst (request http sleep w)
  /\ fst (fst (snd out)) = snd (request http sleep w)
  /\ snd (fst (snd out)) = S k
  /\ snd (snd out) = take k [500; 1000; 2000]
  /\ fst out <> inl Exhausted.
Proof.
  intros Hk Hlim Hlast. cbv zeta. unfold request.
  destruct (request_loop_counts 4 0 w 0%nat []) as (H1 & H2 & _ & _ & H5); [lia|lia|].
  cbv zeta in H1, H2, H5.
  pose proof (request_loop_run k 4 0 w 0%nat [] ltac:(lia) ltac:(lia) Hlim
                ltac:(destruct Hlast; [left; lia|now right])) as Hrun.
  cbv zeta in Hrun. rewrite Hrun in H1, H2, H5. cbn [fst snd] in H1, H2, H5.
  rewrite Hrun. cbn [fst snd app].
  split_and!.
  - rewrite (surjective_pairing (loop 4 0 w)), <- H1, <- H2. reflexivity.
  - exact H1.
  - exact H2.
  - reflexivity.
  - destruct k as [|[|[|[|k]]]]; try lia; reflexivity.
  - exact H5.
Qed.

End OkxRequest.

Lemma okx_request_attempts_witness :
  let busy := OkxClient.Failed (OkxClient.mkHttpError (Some 429) None "Too Many Requests") in
  let limit := OkxClient.Failed (OkxClient.mkHttpError (Some 200) (Some "50011")
                                                       "Rate limit") in
  let w := [busy; limit; OkxClient.Responded "0" None 7] in
  OkxClient.request OkxClient.scripted_http OkxClient.no_sleep w = (inr 7, [])
  /\ snd (OkxClient.request (OkxClient.counted_http OkxClient.scripted_http)
                            (OkxClient.logged_sleep OkxClient.no_sleep) (w, 0%nat, []))
     = ([], 3%nat, [500; 1000]).
Proof.
  intros busy limit w.
  destruct (okx_request_attempts (T := Z) OkxClient.scripted_http OkxClient.no_sleep w 2)
    as (H1 & H2 & H3 & H4 & H5 & _).
  - lia.
  - intros [|[|j]] Hj; [reflexivity|reflexivity|lia].
  - right. reflexivity.
  - split; [exact H1|].
    rewrite (surjective_pairing (snd _)), (surjective_pairing (fst (snd _))).
    rewrite H3, H4, H5, H1. reflexivity.
Defined.

(** ** The quote cache inside the service *)

Section QuoteCaching.
Import Dex.
Context {W : Type}.
Variable Date_now : W -> Z.
Variable isoNow : W -> string.
Variable validateQuoteRequest : SwapRequest -> ValidationResult.
Variable fetchQuoteFromAPI : SwapRequest -> W -> (JsError + SwapQuoteResponse) * W.
Variable sleep : Z -> W -> W.
Variable calculateDelay : Retry.RetryStrategy -> Z -> Retry.RetryConfig -> Z.

Local Abbreviation getQuote' :=
  (getQuote Date_now isoNow validateQuoteRequest fetchQuoteFromAPI sleep calculateDelay).

(** The key under which [getQuote] caches the quote of a request. *)
Local Abbreviation key_of request sv :=
  (Cache.generateQuoteKey (fromTokenAddress request) (toTokenAddress request)
     (amount request)
     (if Js.truthy (slippagePercent request)
      then default "" (slippagePercent request) else defaultSlippage sv)).

(** The service after an event has been emitted, if events are enabled. *)
Local Abbreviation emitted t h sv :=
  (if enableEvents sv
   then set_events sv (push_bounded 1000 (mkEvent t h) (eventHistory sv))
   else sv).

Lemma emit_if_enabled_eq t h (sv : Service) (w : W) :
  emit_if_enabled t h (sv, w) = (inr tt, (emitted t h sv, w)).
Proof.
  unfold emit_if_enabled, bind, service, when, emit, modify, ret. cbn [fst snd].
  destruct (enableEvents sv); reflexivity.
Qed.

Lemma emitted_same t h (sv : Service) :
  cacheManager (emitted t h sv) = cacheManager sv
  /\ defaultSlippage (emitted t h sv) = defaultSlippage sv
  /\ enableEvents (emitted t h sv) = enableEvents sv
  /\ networkRetry (emitted t h sv) = networkRetry sv.
Proof. destruct (enableEvents sv) eqn:E; cbn; rewrite ?E; auto. Qed.

(** The handler of [getQuote] always throws. *)
Lemma getQuote_handler_throws (error : Thrown) (s : Service * W) :
  exists t s',
    bind (emit_if_enabled QUOTE_FAILED None)
         (fun _ => bind (toDexError isoNow error)
                        (fun dexError => bind (trackError dexError)
                                              (fun _ => throw (A := SwapQuoteResponse)
                                                              (EDex dexError)))) s
    = (inl t, s').
Proof.
  destruct s as [sv w]. erewrite bind_returned by apply emit_if_enabled_eq.
  destruct error as [e|].
  - erewrite bind_returned by reflexivity.
    erewrite bind_returned by reflexivity. unfold throw. eauto.
  - erewrite bind_thrown by reflexivity. eauto.
Qed.

(** A quote that [getQuote] returned when the cache had none for the request
    was fetched and is now cached, with the time of the call. *)
Lemma getQuote_fetched request (sv : Service) (w : W) q sv1 w1 :
  Cache.map_get (key_of request sv) (Cache.cache (cacheManager sv)) = None ->
  getQuote' request (sv, w) = (inr q, (sv1, w1)) ->
  isValid (validateQuoteRequest request) = true
  /\ (exists c', cacheManager sv1 = Cache.set (key_of request sv) q None (Date_now w1) c'
                 /\ Cache.quoteTtl c' = Cache.quoteTtl (cacheManager sv))
  /\ defaultSlippage sv1 = defaultSlippage sv.
Proof.
  intros Hmiss H. unfold getQuote, try_catch in H.
  destruct (bind _ _ (sv, w)) as [[t|a] s1] eqn:Eb.
  - destruct (getQuote_handler_throws t s1) as (t' & s' & Hh).
    rewrite Hh in H. discriminate.
  - injection H as -> ->.
    erewrite bind_returned in Eb by apply emit_if_enabled_eq.
    destruct (emitted_same QUOTE_REQUESTED None sv) as (Hc & Hd & He & Hr).
    destruct (isValid (validateQuoteRequest request)) eqn:Ev.
    2:{ erewrite bind_thrown in Eb by reflexivity. discriminate. }
    erewrite bind_returned in Eb by reflexivity.
    erewrite bind_returned in Eb by reflexivity.
    erewrite bind_returned in Eb by reflexivity.
    cbn [fst snd] in Eb. rewrite Hd, Hc in Eb.
    unfold Cache.get at 1 in Eb. rewrite Hmiss in Eb.
    erewrite bind_returned in Eb by reflexivity.
    cbn [fst snd] in Eb.
    destruct (Retry.executeWithRetry (fetchQuoteFromAPI request) sleep calculateDelay
                (networkRetry (set_cache (emitted QUOTE_REQUESTED None sv)
                                         (Cache.count_miss (cacheManager sv)))) None None w)
      as [[r m'] w'] eqn:Er.
    erewrite bind_returned in Eb by (cbn [fst snd]; rewrite Er; reflexivity).
    destruct (Retry.success r); cbn [negb] in Eb.
    2:{ destruct (Retry.error r); discriminate. }
    destruct (Retry.result r) as [quoteResponse|]; [|discriminate].
    erewrite bind_returned in Eb by reflexivity.
    erewrite bind_returned in Eb by reflexivity.
    erewrite bind_returned in Eb by apply emit_if_enabled_eq.
    unfold ret in Eb. injection Eb as <- <- <-.
    split; [reflexivity|].
    destruct (enableEvents sv) eqn:Ee;
      cbn [enableEvents set_events set_cache set_retry cacheManager defaultSlippage];
      rewrite ?Ee;
      cbn [enableEvents set_events set_cache set_retry cacheManager defaultSlippage];
      (split; [eexists; split; reflexivity|reflexivity]).
Qed.

(** X29 — a quote is fetched once. When [getQuote] has returned a quote for a
    request the cache had nothing for, a second [getQuote] for the same
    request, made before the cache's ttl has elapsed since the first returned,
    returns the same quote without calling the aggregator: the world outside
    the process is as it was, and the cache counts one more hit. *)
Theorem getQuote_served_from_cache request (sv : Service) (w : W) q sv1 w1 (w2 : W) :
  Cache.map_get (key_of request sv) (Cache.cache (cacheManager sv)) = None ->
  getQuote' request (sv, w) = (inr q, (sv1, w1)) ->
  Date_now w2 - Date_now w1 <= Cache.quoteTtl (cacheManager sv) ->
  exists sv2,
    getQuote' request (sv1, w2) = (inr q, (sv2, w2))
    /\ Cache.hits (Cache.stats (cacheManager sv2))
       = Cache.hits (Cache.stats (cacheManager sv1)) + 1.
Proof.
  intros Hmiss Hfirst Hfresh.
  destruct (getQuote_fetched request sv w q sv1 w1 Hmiss Hfirst)
    as (Hvalid & (c' & Hcache & Httl) & Hslip).
  unfold getQuote, try_catch.
  erewrite bind_returned by apply emit_if_enabled_eq.
  destruct (emitted_same QUOTE_REQUESTED None sv1) as (Hc & Hd & He & Hr).
  rewrite Hvalid.
  erewrite bind_returned by reflexivity.
  erewrite bind_returned by reflexivity.
  erewrite bind_returned by reflexivity.
  cbn [fst snd]. rewrite Hd, Hc, Hslip.
  pose proof (get_after_set (key_of request sv) q None (Date_now w1) (Date_now w2) c')
    as Hget.
  pose proof (get_lookups (key_of request sv) (Date_now w2) (cacheManager sv1)) as [_ Hhits].
  rewrite <- Hcache in Hget.
  destruct (Cache.get (key_of request sv) (Date_now w2) (cacheManager sv1))
    as [cached c2] eqn:Eg.
  cbn [fst snd default from_option id] in Hget, Hhits. rewrite Httl in Hget.
  destruct (Cache.quoteTtl (cacheManager sv) <? Date_now w2 - Date_now w1) eqn:Ex; [lia|].
  subst cached.
  erewrite bind_returned by reflexivity.
  erewrite bind_returned by apply emit_if_enabled_eq.
  eexists. split; [reflexivity|].
  match goal with
  | |- context [set_cache ?x c2] =>
      destruct (emitted_same QUOTE_RECEIVED None (set_cache x c2)) as (Hc2 & _)
  end.
  cbn [fst] in Hc2 |- *. rewrite Hc2. cbn [cacheManager set_cache]. exact Hhits.
Qed.

End QuoteCaching.

Lemma getQuote_served_from_cache_witness :
  let quote := Dex.mkQuote "0.02" "0.020000" "300000" in
  let run := Dex.getQuote (W := Z) (fun w => w) (fun _ => "1970-01-01T00:00:00.000Z")
                          (fun _ => Dex.valid) (fun _ w => (inr quote, w))
                          (fun _ w => w) (fun _ _ cfg => Retry.backoffMs cfg)
                          Dex.usdc_to_wokb in
  let sv := Dex.newDexSwapService
              (Config.getInstance None)
              (Config.mkNetwork "196" "X Layer" "https://rpc.xlayer.tech"
                                "https://www.oklink.com/xlayer")
              true "10.0" in
  exists sv2, run (fst (snd (run (sv, 0))), 20000) = (inr quote, (sv2, 20000)).
Proof.
  intros quote run sv.
  destruct (getQuote_served_from_cache
              (fun w : Z => w) (fun _ => "1970-01-01T00:00:00.000Z")
              (fun _ => Dex.valid) (fun _ w => (inr quote, w))
              (fun _ w => w) (fun _ _ cfg => Retry.backoffMs cfg)
              Dex.usdc_to_wokb sv 0 quote (fst (snd (run (sv, 0)))) 0 20000)
    as (sv2 & H & _).
  - reflexivity.
  - vm_compute. reflexivity.
  - vm_compute. discriminate.
  - exists sv2. exact H.
Defined.

(** ** Validation and simulation of the transaction data *)

Section ValidatedTransaction.
Context {W : Type}.
Variable isAddress : string -> bool.
Variable validateAmount : string -> Z -> string -> Validator.ValidationResult.
Variable getSwapTx : Dex.SwapRequest -> W -> (JsError + Dex.TransactionData) * W.

Local Abbreviation validate := (Validator.validateTransactionData isAddress validateAmount).

(** What an accepted transaction looks like. *)
Lemma validateTransactionData_accepts (tx : Dex.TransactionData) :
  Validator.isValid (validate tx) = true ->
  (exists a, Dex.to tx = Some a /\ a <> "" /\ isAddress a = true)
  /\ (exists d, Dex.tx_data tx = Some d /\ d <> "" /\ d <> "0x"
                /\ String.prefix "0x" d = true).
Proof.
  unfold Validator.validateTransactionData, Validator.result.
  cbn [Validator.isValid]. intros H. apply bool_decide_eq_true in H.
  apply app_eq_nil in H as [Hto H]. apply app_eq_nil in H as [Hdata _].
  split.
  - unfold Validator.validateAddress in Hto.
    destruct (Dex.to tx) as [a|]; [|discriminate].
    destruct a as [|c a]; [discriminate|].
    cbn [Js.truthy negb default from_option id] in Hto.
    destruct (isAddress (String c a)) eqn:Ea; [|discriminate].
    exists (String c a). split_and!; [reflexivity|discriminate|exact Ea].
  - destruct (Dex.tx_data tx) as [d|]; [|discriminate].
    destruct d as [|c d]; [discriminate|].
    cbn [Js.truthy negb orb default from_option id] in Hdata.
    destruct (bool_decide (Some (String c d) = Some "0x")) eqn:E0; [discriminate|].
    apply bool_decide_eq_false in E0.
    destruct (String.prefix "0x" (String c d)) eqn:Ep; [|discriminate].
    exists (String c d). split_and!; [reflexivity|discriminate|congruence|exact Ep].
Qed.

(** X30 — transaction data that passed validation passes the simulation. The
    data [prepareTransactionData] returns has been accepted by
    [validateTransactionData]: it has a recipient that is an address and call
    data that start with '0x' and are not just '0x'. The check made by
    [simulateTransaction] on such data never fails, so a swap is never
    stopped at the simulation step, and the simulation touches nothing
    outside the process. *)
Theorem validated_transaction_passes_simulation (request : Dex.SwapRequest)
    (s s1 : Dex.Service * W) (tx : Dex.TransactionData) :
  Dex.prepareTransactionData getSwapTx (fun t => Validator.read (validate t)) request s
  = (inr tx, s1) ->
  (exists a, Dex.to tx = Some a /\ isAddress a = true)
  /\ (exists d, Dex.tx_data tx = Some d /\ d <> "0x" /\ String.prefix "0x" d = true)
  /\ exists sv2, Dex.simulateTransaction tx s1 = (inr tt, (sv2, snd s1)).
Proof.
  intros Hprep.
  assert (Hvalid : Validator.isValid (validate tx) = true).
  { unfold Dex.prepareTransactionData, Dex.bind, Dex.await in Hprep.
    destruct (getSwapTx request (snd s)) as [[e|tx'] w']; [discriminate|].
    cbn [Validator.read Dex.isValid] in Hprep.
    destruct (Validator.isValid (validate tx')) eqn:Ev; [|discriminate].
    unfold Dex.ret in Hprep. injection Hprep as <- _. exact Ev. }
  destruct (validateTransactionData_accepts tx Hvalid)
    as ((a & Ha & Hane & Haddr) & (d & Hd & Hdne & Hd0 & Hpre)).
  split; [eauto|]. split; [eauto|].
  destruct s1 as [sv1 w1]. unfold Dex.simulateTransaction.
  erewrite bind_returned by apply emit_if_enabled_eq.
  rewrite Ha, Hd.
  assert (Hta : Js.truthy (Some a) = true) by (destruct a; [congruence|reflexivity]).
  assert (Htd : Js.truthy (Some d) = true) by (destruct d; [congruence|reflexivity]).
  assert (Hnz : bool_decide (Some d = Some "0x") = false)
    by (apply bool_decide_eq_false; congruence).
  rewrite Hta, Htd, Hnz. cbn [negb orb].
  erewrite bind_returned by reflexivity.
  rewrite emit_if_enabled_eq. eexists. reflexivity.
Qed.

End ValidatedTransaction.

Lemma validated_transaction_passes_simulation_witness :
  let tx := Dex.mkTx (Some "0xrouter") (Some "0xcalldata") "0" "300000" "100000000" in
  let sv := Dex.newDexSwapService
              (Config.getInstance None)
              (Config.mkNetwork "196" "X Layer" "https://rpc.xlayer.tech"
                                "https://www.oklink.com/xlayer")
              true "10.0" in
  exists sv2, Dex.simulateTransaction (W := Z) tx (sv, 0) = (inr tt, (sv2, 0)).
Proof.
  intros tx sv.
  destruct (validated_transaction_passes_simulation
              (fun _ => true) (fun _ _ _ => Validator.result [] [])
              (fun _ (w : Z) => (inr tx, w)) Dex.usdc_to_wokb (sv, 0) (sv, 0) tx)
    as (_ & _ & sv2 & H).
  - reflexivity.
  - exists sv2. exact H.
Defined.
